(** * TaskManagement: offline task storage, action log and replay

    A shallow embedding of the task services of the TaskManagement client
    and the properties of its offline synchronisation subsystem.

    Sources embedded:
    - [src/types/index.ts]: [Task], [TaskStatus], [OfflineAction],
      [TaskState];
    - [src/services/storage.ts]: [storage.getTasks], [storage.saveTasks];
    - [src/services/sync.ts]: [syncService];
    - [src/services/tasks.ts]: [taskService];
    - [src/services/firestoreService.ts]: [updateTask] and [deleteTask],
      as interactions;
    - [src/store/taskStore.ts]: [updateTask], [deleteTask],
      [toggleTaskComplete], [updateTaskStatus], [syncTasks] and
      [filterTasks] of [useTaskStore];
    - [src/store/syncStore.ts]: [checkConnectivity], [addOfflineAction]
      and [clearPendingActions] of [useSyncStore];
    - [src/screens/TaskDetailScreen.tsx]: [handleStatusChange].

    Modelling conventions.
    - Strings are [string]; a clock reading is a [Z], in milliseconds.
    - An [async] function is a computation in a state-and-exception monad
      over a [World]: the state of the store, the two AsyncStorage items,
      the trace of the interactions with the environment, and the answers
      of the environment (is the call rejected, what does NetInfo report,
      what does the clock read), indexed by the position of the interaction
      in the trace.  Every [try]/[catch] of the sources is a [tryCatch].
    - [JSON.parse (JSON.stringify v)] is the identity on the values stored,
      so an AsyncStorage item holds the value itself.
    - Promises run one after the other: a call is not interleaved with
      another call.
    - JavaScript built-ins whose result depends on the host ([toISOString],
      [toLowerCase], [trim], [localeCompare], date parsing) are the methods
      of the class [JSHost]; [asciiHost] is an instance to compute with.
    - [Array.prototype.sort] is the method of the class [JSEngine]; the
      theorems hold it to what ECMAScript requires of it ([conforming]):
      the array is rearranged, and for a consistent comparator it is put
      in order; the order is the engine's own otherwise.
      [insertionEngine] is an instance to compute with.  The arrays
      [filterTasks] works on live in a [Heap], since the sort is in
      place. *)

From Stdlib Require Import List String Ascii ZArith Bool Lia.
From Stdlib Require Import Permutation Sorted DecimalString DecimalZ.
Import ListNotations.

Set Implicit Arguments.

(** ** Data model ([src/types/index.ts]) *)

Module Status.
(** [type TaskStatus = 'not_started' | 'in_progress' | 'completed'] *)
Inductive TaskStatus : Set := not_started | in_progress | completed.

Definition eqb (a b : TaskStatus) : bool :=
  match a, b with
  | not_started, not_started => true
  | in_progress, in_progress => true
  | completed, completed => true
  | _, _ => false
  end.
End Status.
Abbreviation TaskStatus := Status.TaskStatus.

(** [interface Task].  [dueDate] is optional in the interface.
    [assignedDate] is declared [string], but tasks fetched through
    [firestoreService] carry [undefined] there and [filterTasks] guards the
    read with [?? 0], so the field is optional here as well. *)
Record Task : Set := mkTask {
  id : string;
  title : string;
  description : string;
  completed : bool;
  status : TaskStatus;
  assignedDate : option string;
  dueDate : option string;
  createdAt : string;
  updatedAt : string;
  userId : string
}.

Module Partial.
(** [Partial<Task>]: every key may be absent ([None]).  For the two
    optional fields a present key may hold [undefined] ([Some None]). *)
Record Task : Set := mk {
  id : option string;
  title : option string;
  description : option string;
  completed : option bool;
  status : option TaskStatus;
  assignedDate : option (option string);
  dueDate : option (option string);
  createdAt : option string;
  updatedAt : option string;
  userId : option string
}.

(** The literal [{}] *)
Definition empty : Task :=
  mk None None None None None None None None None None.

(** One more key in an object literal: [{ ...u, title: v }] and the like *)
Definition with_title (v : string) (u : Task) : Task :=
  mk (id u) (Some v) (description u) (completed u) (status u)
     (assignedDate u) (dueDate u) (createdAt u) (updatedAt u) (userId u).

Definition with_completed (v : bool) (u : Task) : Task :=
  mk (id u) (title u) (description u) (Some v) (status u)
     (assignedDate u) (dueDate u) (createdAt u) (updatedAt u) (userId u).

Definition with_status (v : TaskStatus) (u : Task) : Task :=
  mk (id u) (title u) (description u) (completed u) (Some v)
     (assignedDate u) (dueDate u) (createdAt u) (updatedAt u) (userId u).
End Partial.

(** [{ ...t, ...updates }] *)
Definition spread (t : Task) (updates : Partial.Task) : Task :=
  let pick {A} (o : option A) (d : A) := match o with Some v => v | None => d end in
  {| id := pick (Partial.id updates) (id t);
     title := pick (Partial.title updates) (title t);
     description := pick (Partial.description updates) (description t);
     completed := pick (Partial.completed updates) (completed t);
     status := pick (Partial.status updates) (status t);
     assignedDate := pick (Partial.assignedDate updates) (assignedDate t);
     dueDate := pick (Partial.dueDate updates) (dueDate t);
     createdAt := pick (Partial.createdAt updates) (createdAt t);
     updatedAt := pick (Partial.updatedAt updates) (updatedAt t);
     userId := pick (Partial.userId updates) (userId t) |}.

(** [{ ...t, updatedAt: now }] *)
Definition with_updatedAt (t : Task) (now : string) : Task :=
  {| id := id t; title := title t; description := description t;
     completed := completed t; status := status t;
     assignedDate := assignedDate t; dueDate := dueDate t;
     createdAt := createdAt t; updatedAt := now; userId := userId t |}.

(** [type] and [payload] of an [OfflineAction].  The interface lets the two
    vary independently; every action built in the repository pairs
    ['CREATE'] and ['UPDATE'] with a full task and ['DELETE'] with
    [{ id }], and the pairing is part of the type here. *)
Inductive ActionBody : Set :=
| CREATE (payload : Task)
| UPDATE (payload : Task)
| DELETE (payload_id : string).

Module Action.
(** [interface OfflineAction] *)
Record OfflineAction : Set := mk {
  id : string;
  body : ActionBody;
  timestamp : string
}.
End Action.
Abbreviation OfflineAction := Action.OfflineAction.

(** ** Host functions *)

Class JSHost : Type := {
  (** [new Date(ms).toISOString()] *)
  toISOString : Z -> string;
  (** [String.prototype.toLowerCase] *)
  toLowerCase : string -> string;
  (** [String.prototype.trim] *)
  trim : string -> string;
  (** [String.prototype.localeCompare] *)
  localeCompare : string -> string -> Z;
  (** [new Date(s).getTime()]; [None] is [NaN] *)
  Date_getTime : string -> option Z
}.

(** [n.toString()] for an integral number *)
Definition toString (n : Z) : string := NilZero.string_of_int (Z.to_int n).

(** ** Array helpers *)

Section Arrays.
Variable A : Type.

(** [Array.prototype.findIndex]: the first index whose element satisfies
    [p], [-1] when there is none. *)
Fixpoint findIndex (p : A -> bool) (l : list A) : Z :=
  match l with
  | [] => (-1)%Z
  | x :: l' =>
      if p x then 0%Z
      else let i := findIndex p l' in
           if (i =? -1)%Z then (-1)%Z else (i + 1)%Z
  end.

(** [l[index] = v] for an index inside the array.  Every index assigned
    to in the sources comes from a successful [findIndex]; outside the
    array the list is left as it is. *)
Fixpoint assign (l : list A) (index : nat) (v : A) : list A :=
  match l, index with
  | [], _ => []
  | _ :: l', O => v :: l'
  | x :: l', S n => x :: assign l' n v
  end.
End Arrays.

(** ** The world of an asynchronous call *)

Inductive Key : Set := TASKS | OFFLINE_ACTIONS.

Inductive Event : Set :=
| GetItem (k : Key)
| SetItem (k : Key)
| RemoveItem (k : Key)
| NetInfoFetch
| DateNow
| FirestoreUpdateDoc.

Inductive Exn : Set :=
| TaskNotFound          (* new Error('Task not found') *)
| NoInternetConnection  (* new Error('No internet connection') *)
| Rejected.             (* a rejection of the storage or of the backend *)

(** [interface TaskState]: the in-memory state of the task store.  [error]
    keeps the exception whose message the store records. *)
Record TaskState : Type := mkTaskState {
  tasks : list Task;
  isLoading : bool;
  error : option Exn
}.

Record World : Type := mkWorld {
  memory : TaskState;                         (* the state of useTaskStore *)
  tasksItem : option (list Task);             (* AsyncStorage '@tasks' *)
  actionsItem : option (list OfflineAction);  (* AsyncStorage '@offline_actions' *)
  trace : list Event;
  (** The answers of the environment to the n-th interaction: whether it
      is rejected, when it is a call to the storage or to the backend;
      [state.isConnected], when it is [NetInfo.fetch]; the time, when it
      reads the clock. *)
  rejects : nat -> bool;
  isConnected : nat -> option bool;
  clock : nat -> Z
}.

Definition emit (e : Event) (w : World) : World :=
  {| memory := memory w;
     tasksItem := tasksItem w; actionsItem := actionsItem w;
     trace := trace w ++ [e];
     rejects := rejects w; isConnected := isConnected w; clock := clock w |}.

Definition set_tasksItem (v : option (list Task)) (w : World) : World :=
  {| memory := memory w;
     tasksItem := v; actionsItem := actionsItem w; trace := trace w;
     rejects := rejects w; isConnected := isConnected w; clock := clock w |}.

Definition set_actionsItem (v : option (list OfflineAction)) (w : World) : World :=
  {| memory := memory w;
     tasksItem := tasksItem w; actionsItem := v; trace := trace w;
     rejects := rejects w; isConnected := isConnected w; clock := clock w |}.

Definition set_memory (v : TaskState) (w : World) : World :=
  {| memory := v;
     tasksItem := tasksItem w; actionsItem := actionsItem w; trace := trace w;
     rejects := rejects w; isConnected := isConnected w; clock := clock w |}.

(** The position of the next interaction. *)
Definition tick (w : World) : nat := List.length (trace w).

(** The persisted snapshot and the persisted action log. *)
Definition snapshot (w : World) : list Task :=
  match tasksItem w with Some l => l | None => [] end.

Definition pending (w : World) : list OfflineAction :=
  match actionsItem w with Some l => l | None => [] end.

(** ** Promises *)

Inductive Result (A : Type) : Type :=
| Ok (a : A)
| Throw (e : Exn).
Arguments Ok {A} a.
Arguments Throw {A} e.

Definition Async (A : Type) : Type := World -> Result A * World.

Definition ret {A} (a : A) : Async A := fun w => (Ok a, w).

Definition throw {A} (e : Exn) : Async A := fun w => (Throw e, w).

Definition bind {A B} (m : Async A) (k : A -> Async B) : Async B :=
  fun w => match m w with
           | (Ok a, w') => k a w'
           | (Throw e, w') => (Throw e, w')
           end.

(** [try { m } catch (error) { handler error }] *)
Definition tryCatch {A} (m : Async A) (handler : Exn -> Async A) : Async A :=
  fun w => match m w with
           | (Ok a, w') => (Ok a, w')
           | (Throw e, w') => handler e w'
           end.

Declare Scope async_scope.
Delimit Scope async_scope with async.
Notation "x <- m ;; k" := (bind m (fun x => k))
  (at level 61, m at next level, right associativity) : async_scope.
Notation "m ;;; k" := (bind m (fun _ => k))
  (at level 61, right associativity) : async_scope.
Open Scope async_scope.

(** ** Environment primitives *)

Definition AsyncStorage_getItem_TASKS : Async (option (list Task)) :=
  fun w => if rejects w (tick w)
           then (Throw Rejected, emit (GetItem TASKS) w)
           else (Ok (tasksItem w), emit (GetItem TASKS) w).

Definition AsyncStorage_setItem_TASKS (v : list Task) : Async unit :=
  fun w => if rejects w (tick w)
           then (Throw Rejected, emit (SetItem TASKS) w)
           else (Ok tt, emit (SetItem TASKS) (set_tasksItem (Some v) w)).

Definition AsyncStorage_getItem_OFFLINE_ACTIONS : Async (option (list OfflineAction)) :=
  fun w => if rejects w (tick w)
           then (Throw Rejected, emit (GetItem OFFLINE_ACTIONS) w)
           else (Ok (actionsItem w), emit (GetItem OFFLINE_ACTIONS) w).

Definition AsyncStorage_setItem_OFFLINE_ACTIONS (v : list OfflineAction) : Async unit :=
  fun w => if rejects w (tick w)
           then (Throw Rejected, emit (SetItem OFFLINE_ACTIONS) w)
           else (Ok tt, emit (SetItem OFFLINE_ACTIONS) (set_actionsItem (Some v) w)).

Definition AsyncStorage_removeItem_OFFLINE_ACTIONS : Async unit :=
  fun w => if rejects w (tick w)
           then (Throw Rejected, emit (RemoveItem OFFLINE_ACTIONS) w)
           else (Ok tt, emit (RemoveItem OFFLINE_ACTIONS) (set_actionsItem None w)).

(** [NetInfo.fetch()], projected on [state.isConnected] *)
Definition NetInfo_fetch : Async (option bool) :=
  fun w => (Ok (isConnected w (tick w)), emit NetInfoFetch w).

(** [Date.now()] *)
Definition Date_now : Async Z :=
  fun w => (Ok (clock w (tick w)), emit DateNow w).

(** ** [storage] ([src/services/storage.ts]) *)

Module storage.
(** [data ? JSON.parse(data) : []], and [[]] when the read rejects *)
Definition getTasks : Async (list Task) :=
  tryCatch
    (data <- AsyncStorage_getItem_TASKS ;;
     ret (match data with Some tasks => tasks | None => [] end))
    (fun _ => ret []).

Definition saveTasks (tasks : list Task) : Async unit :=
  tryCatch (AsyncStorage_setItem_TASKS tasks) (fun error => throw error).
End storage.

(** ** [syncService] ([src/services/sync.ts]) *)

Module syncService.
Definition getOfflineActions : Async (list OfflineAction) :=
  tryCatch
    (actionsData <- AsyncStorage_getItem_OFFLINE_ACTIONS ;;
     ret (match actionsData with Some actions => actions | None => [] end))
    (fun _ => ret []).

Definition saveOfflineAction (action : OfflineAction) : Async unit :=
  tryCatch
    (actions <- getOfflineActions ;;
     AsyncStorage_setItem_OFFLINE_ACTIONS (actions ++ [action]))
    (fun error => throw error).

(** The rejection of [removeItem] is logged and swallowed. *)
Definition clearOfflineActions : Async unit :=
  tryCatch AsyncStorage_removeItem_OFFLINE_ACTIONS (fun _ => ret tt).

Definition removeOfflineAction (actionId : string) : Async unit :=
  tryCatch
    (actions <- getOfflineActions ;;
     AsyncStorage_setItem_OFFLINE_ACTIONS
       (filter (fun a => negb (Action.id a =? actionId)%string) actions))
    (fun _ => ret tt).

(** [state.isConnected ?? false] *)
Definition checkConnectivity : Async bool :=
  state <- NetInfo_fetch ;;
  ret (match state with Some b => b | None => false end).

(** The simulated network delay changes nothing in the world. *)
Definition syncTasks (tasks : list Task) : Async (list Task) :=
  isOnline <- checkConnectivity ;;
  if negb isOnline then throw NoInternetConnection
  else storage.saveTasks tasks ;;; ret tasks.

(** One turn of the [for (const action of actions)] loop: the [switch]
    on [action.type], returning the new value of [updatedTasks]. *)
Definition applyAction (updatedTasks : list Task) (action : OfflineAction)
  : list Task :=
  match Action.body action with
  | CREATE payload =>
      (* 'id' in action.payload holds for a task *)
      updatedTasks ++ [payload]
  | UPDATE task =>
      let index := findIndex (fun t => (id t =? id task)%string) updatedTasks in
      if negb (index =? -1)%Z
      then assign updatedTasks (Z.to_nat index) task
      else updatedTasks
  | DELETE payload_id =>
      filter (fun t => negb (id t =? payload_id)%string) updatedTasks
  end.

(** The loop itself, over the actions in the order of the array. *)
Fixpoint replay (updatedTasks : list Task) (actions : list OfflineAction)
  : list Task :=
  match actions with
  | [] => updatedTasks
  | action :: rest => replay (applyAction updatedTasks action) rest
  end.

Definition processOfflineActions (tasks : list Task) : Async (list Task) :=
  actions <- getOfflineActions ;;
  let updatedTasks := replay tasks actions in
  clearOfflineActions ;;;
  ret updatedTasks.
End syncService.

(** ** [taskService] ([src/services/tasks.ts]) *)

Module taskService.
Section WithHost.
Context {host : JSHost}.

Definition getAllTasks : Async (list Task) :=
  tryCatch storage.getTasks (fun error => throw error).

Definition getTasksByUserId (uid : string) : Async (list Task) :=
  tryCatch
    (tasks <- storage.getTasks ;;
     ret (filter (fun task => (userId task =? uid)%string) tasks))
    (fun error => throw error).

(** [tasks.find(...) || null] *)
Definition getTaskById (taskId : string) : Async (option Task) :=
  tryCatch
    (tasks <- storage.getTasks ;;
     ret (find (fun task => (id task =? taskId)%string) tasks))
    (fun _ => ret None).

(** The tail shared by the three mutations: probe the connectivity, push
    the snapshot when online, and queue [mkAction] when offline or when
    the push throws.  [mkAction] evaluates the object literal of the
    action, which reads the clock. *)
Definition syncOrQueue (tasks : list Task) (mkAction : Async OfflineAction)
  : Async unit :=
  isOnline <- syncService.checkConnectivity ;;
  if isOnline then
    tryCatch
      (syncService.syncTasks tasks ;;; ret tt)
      (fun _ => action <- mkAction ;; syncService.saveOfflineAction action)
  else
    action <- mkAction ;; syncService.saveOfflineAction action.

Definition createTask (title description userId : string)
  (dueDate : option string) : Async Task :=
  tryCatch
    (d <- Date_now ;;
     let now := toISOString d in
     i <- Date_now ;;
     let newTask :=
       {| id := toString i;
          title := title;
          description := description;
          completed := false;
          status := Status.not_started;
          assignedDate := Some now;
          dueDate := dueDate;
          createdAt := now;
          updatedAt := now;
          userId := userId |} in
     tasks <- storage.getTasks ;;
     let tasks := tasks ++ [newTask] in
     storage.saveTasks tasks ;;;
     syncOrQueue tasks
       (a <- Date_now ;;
        ret (Action.mk (toString a) (CREATE newTask) now)) ;;;
     ret newTask)
    (fun error => throw error).

Definition updateTask (taskId : string) (updates : Partial.Task)
  : Async Task :=
  tryCatch
    (tasks <- storage.getTasks ;;
     let index := findIndex (fun t => (id t =? taskId)%string) tasks in
     if (index =? -1)%Z then throw TaskNotFound
     else
       match nth_error tasks (Z.to_nat index) with
       | None => throw TaskNotFound (* not reached: [index] is in range *)
       | Some found =>
           d <- Date_now ;;
           let updatedTask := with_updatedAt (spread found updates) (toISOString d) in
           let tasks := assign tasks (Z.to_nat index) updatedTask in
           storage.saveTasks tasks ;;;
           syncOrQueue tasks
             (a <- Date_now ;;
              s <- Date_now ;;
              ret (Action.mk (toString a) (UPDATE updatedTask) (toISOString s))) ;;;
           ret updatedTask
       end)
    (fun error => throw error).

Definition deleteTask (taskId : string) : Async unit :=
  tryCatch
    (tasks <- storage.getTasks ;;
     let filteredTasks := filter (fun t => negb (id t =? taskId)%string) tasks in
     if (List.length tasks =? List.length filteredTasks)%nat
     then throw TaskNotFound
     else
       storage.saveTasks filteredTasks ;;;
       syncOrQueue filteredTasks
         (a <- Date_now ;;
          s <- Date_now ;;
          ret (Action.mk (toString a) (DELETE taskId) (toISOString s))))
    (fun error => throw error).

Definition toggleTaskComplete (taskId : string) : Async Task :=
  task <- getTaskById taskId ;;
  match task with
  | None => throw TaskNotFound
  | Some task =>
      let newStatus :=
        if completed task then Status.not_started else Status.completed in
      (* { completed: !task.completed, status: newStatus } *)
      updateTask taskId
        (Partial.with_status newStatus
           (Partial.with_completed (negb (completed task)) Partial.empty))
  end.

Definition updateTaskStatus (taskId : string) (status : TaskStatus)
  : Async Task :=
  (* { status, completed: status === 'completed' } *)
  updateTask taskId
    (Partial.with_completed (Status.eqb status Status.completed)
       (Partial.with_status status Partial.empty)).
End WithHost.
End taskService.

(** ** [firestoreService.updateTask] ([src/services/firestoreService.ts])

    The remote document is not part of the world: the call is an
    interaction that the backend accepts or rejects. *)

Module firestoreService.
Definition updateTask (taskId : string) (updates : Partial.Task) : Async unit :=
  if (taskId =? "")%string then throw Rejected (* 'taskId required' *)
  else fun w => if rejects w (tick w)
                then (Throw Rejected, emit FirestoreUpdateDoc w)
                else (Ok tt, emit FirestoreUpdateDoc w).
End firestoreService.

(** ** Arrays as objects, and sorting

    [filterTasks] sorts an array in place, so the arrays are objects of a
    heap here: [[...a]] and [a.filter(p)] allocate a new array, [a.sort(f)]
    overwrites the array it is called on. *)

Definition Ref : Set := nat.
Definition Heap : Set := list (list Task).

Definition deref (h : Heap) (r : Ref) : list Task := nth r h [].

Definition alloc (a : list Task) (h : Heap) : Ref * Heap :=
  (List.length h, h ++ [a]).

Definition overwrite (r : Ref) (a : list Task) (h : Heap) : Heap := assign h r a.

Module SortBy.
(** ['assignedDate' | 'dueDate' | 'title'] *)
Inductive t : Set := assignedDate | dueDate | title.
End SortBy.

(** [String.prototype.includes] *)
Fixpoint includes (s sub : string) : bool :=
  if prefix sub s then true
  else match s with
       | EmptyString => false
       | String _ s' => includes s' sub
       end.

(** Truthiness of a string and of an optional string *)
Definition truthy (s : string) : bool :=
  match s with EmptyString => false | String _ _ => true end.

Definition truthy_opt (s : option string) : bool :=
  match s with Some s => truthy s | None => false end.

(** Subtraction of two numbers, [None] being [NaN] *)
Definition minus (x y : option Z) : option Z :=
  match x, y with
  | Some p, Some q => Some (p - q)%Z
  | _, _ => None
  end.

Section Sorting.
Variable A : Type.
Variable comparefn : A -> A -> option Z.

(** The sort reads a [NaN] answer of the comparator as [+0]. *)
Definition sortCompare (x y : A) : Z :=
  match comparefn x y with Some v => v | None => 0%Z end.

Fixpoint insert (x : A) (l : list A) : list A :=
  match l with
  | [] => [x]
  | y :: l' =>
      if (sortCompare x y <=? 0)%Z then x :: y :: l' else y :: insert x l'
  end.

(** A sort by insertion, the elements inserted from the right. *)
Definition Array_sort (l : list A) : list A := fold_right insert [] l.
End Sorting.

(** [Array.prototype.sort(comparefn)], as a function of the comparator and
    of the elements of the array: the elements the array holds afterwards.
    The comparator answers [None] for [NaN]. *)
Class JSEngine : Type := {
  Array_prototype_sort : forall A : Type, (A -> A -> option Z) -> list A -> list A
}.

(** An engine that sorts by insertion *)
#[export] Instance insertionEngine : JSEngine := {|
  Array_prototype_sort := Array_sort
|}.

(** ** [useTaskStore] ([src/store/taskStore.ts]) *)

Module useTaskStore.
Section WithHost.
Context {host : JSHost} {engine : JSEngine}.

(** [get()] *)
Definition get : Async TaskState := fun w => (Ok (memory w), w).

(** [set({ error })] and [set((state) => ({ tasks: f state.tasks }))] *)
Definition set_error (e : option Exn) : Async unit :=
  fun w => (Ok tt, set_memory (mkTaskState (tasks (memory w))
                                           (isLoading (memory w)) e) w).

Definition set_tasks (f : list Task -> list Task) : Async unit :=
  fun w => (Ok tt, set_memory (mkTaskState (f (tasks (memory w)))
                                           (isLoading (memory w))
                                           (error (memory w))) w).

(** [{ ...task, completed: c }] and [{ ...task, status: s }] *)
Definition with_completed (task : Task) (c : bool) : Task :=
  spread task (Partial.with_completed c Partial.empty).

Definition with_status (task : Task) (s : TaskStatus) : Task :=
  spread task (Partial.with_status s Partial.empty).

Definition toggleTaskComplete (taskId : string) : Async unit :=
  tryCatch
    (set_error None ;;;
     state <- get ;;
     match find (fun t => (id t =? taskId)%string) (tasks state) with
     | None => throw TaskNotFound
     | Some existing =>
         let newCompleted := negb (completed existing) in
         tryCatch
           (firestoreService.updateTask taskId
              (Partial.with_completed newCompleted Partial.empty))
           (fun _ => taskService.toggleTaskComplete taskId ;;; ret tt) ;;;
         set_tasks
           (map (fun task => if (id task =? taskId)%string
                             then with_completed task newCompleted else task))
     end)
    (fun error => set_error (Some error) ;;; throw error).

Definition updateTaskStatus (taskId : string) (status : TaskStatus) : Async unit :=
  tryCatch
    (set_error None ;;;
     tryCatch
       (firestoreService.updateTask taskId
          (Partial.with_status status Partial.empty))
       (fun _ => taskService.updateTaskStatus taskId status ;;; ret tt) ;;;
     set_tasks
       (map (fun task => if (id task =? taskId)%string
                         then with_status task status else task)))
    (fun error => set_error (Some error) ;;; throw error).

(** *** [filterTasks] *)

(** The predicate of the search filter, [query] being lower-cased *)
Definition matchesQuery (query : string) (task : Task) : bool :=
  includes (toLowerCase (title task)) query
  || includes (toLowerCase (description task)) query.

Definition hasStatus (filterByStatus : TaskStatus) (task : Task) : bool :=
  Status.eqb (status task) filterByStatus.

(** [new Date(a.assignedDate ?? 0).getTime()] *)
Definition assignedTime (a : Task) : option Z :=
  match assignedDate a with
  | Some s => Date_getTime s
  | None => Some 0%Z
  end.

(** [new Date(a.dueDate).getTime()] *)
Definition dueTime (a : Task) : option Z :=
  match dueDate a with
  | Some s => Date_getTime s
  | None => None
  end.

(** The comparator handed to [sort] *)
Definition comparefn (sortBy : SortBy.t) (a b : Task) : option Z :=
  match sortBy with
  | SortBy.assignedDate => minus (assignedTime a) (assignedTime b)
  | SortBy.dueDate =>
      if negb (truthy_opt (dueDate a)) && negb (truthy_opt (dueDate b)) then Some 0%Z
      else if negb (truthy_opt (dueDate a)) then Some 1%Z
      else if negb (truthy_opt (dueDate b)) then Some (-1)%Z
      else minus (dueTime a) (dueTime b)
  | SortBy.title => Some (localeCompare (title a) (title b))
  end.

(** [filterTasks], run on the heap [h] in which [state_tasks] is the
    array held by the store ([get().tasks]).  It returns the reference
    to the array it hands back and the heap it leaves. *)
Definition filterTasks (state_tasks : Ref) (searchQuery : string)
  (sortBy : SortBy.t) (filterByStatus : option TaskStatus) (h : Heap)
  : Ref * Heap :=
  let (filtered, h) := alloc (deref h state_tasks) h in
  let (filtered, h) :=
    if truthy (trim searchQuery) then
      let query := toLowerCase searchQuery in
      alloc (List.filter (matchesQuery query) (deref h filtered)) h
    else (filtered, h) in
  let (filtered, h) :=
    match filterByStatus with
    | Some s => alloc (List.filter (hasStatus s) (deref h filtered)) h
    | None => (filtered, h)
    end in
  let h := overwrite filtered
             (Array_prototype_sort (comparefn sortBy) (deref h filtered)) h in
  (filtered, h).
End WithHost.
End useTaskStore.


(** ** A host over ASCII text

    An instance of [JSHost] to run the definitions on: letters are
    lower-cased and white space is trimmed within ASCII, strings compare by
    code unit, and a date is written as its number of milliseconds. *)

Definition lower_ascii (c : ascii) : ascii :=
  let n := nat_of_ascii c in
  if ((65 <=? n) && (n <=? 90))%nat then ascii_of_nat (n + 32) else c.

Fixpoint ascii_toLowerCase (s : string) : string :=
  match s with
  | EmptyString => EmptyString
  | String c s' => String (lower_ascii c) (ascii_toLowerCase s')
  end.

Definition is_space (c : ascii) : bool :=
  let n := nat_of_ascii c in
  ((9 <=? n) && (n <=? 13) || (n =? 32))%nat.

Fixpoint trimStart (s : string) : string :=
  match s with
  | EmptyString => EmptyString
  | String c s' => if is_space c then trimStart s' else s
  end.

Fixpoint trimEnd (s : string) : string :=
  match s with
  | EmptyString => EmptyString
  | String c s' =>
      match trimEnd s' with
      | EmptyString => if is_space c then EmptyString else String c EmptyString
      | r => String c r
      end
  end.

Definition compare_code_units (a b : string) : Z :=
  match String.compare a b with
  | Lt => (-1)%Z
  | Eq => 0%Z
  | Gt => 1%Z
  end.

Definition parse_millis (s : string) : option Z :=
  match NilZero.int_of_string s with
  | Some d => Some (Z.of_int d)
  | None => None
  end.

#[export] Instance asciiHost : JSHost := {|
  toISOString := toString;
  toLowerCase := ascii_toLowerCase;
  trim := fun s => trimEnd (trimStart s);
  localeCompare := compare_code_units;
  Date_getTime := parse_millis
|}.

(** A device with the given persisted items, an empty trace, a storage that
    never rejects, the given connectivity and a clock that advances by one
    millisecond per interaction. *)
Definition device (stored : option (list Task))
  (log : option (list OfflineAction)) (online : bool) (start : Z) : World :=
  {| memory := mkTaskState [] false None;
     tasksItem := stored;
     actionsItem := log;
     trace := [];
     rejects := fun _ => false;
     isConnected := fun _ => Some online;
     clock := fun n => (start + Z.of_nat n)%Z |}.

(** A task in the shape the tests of the repository use *)
Definition sampleTask (i t : string) (c : bool) (s : TaskStatus) : Task :=
  {| id := i; title := t; description := "Description"%string;
     completed := c; status := s;
     assignedDate := Some "1704067200000"%string; dueDate := None;
     createdAt := "1704067200000"%string; updatedAt := "1704067200000"%string;
     userId := "user1"%string |}.

(** ** The properties the specification speaks of *)

(** [completed == (status == completed)] *)
Definition consistent (t : Task) : Prop :=
  completed t = Status.eqb (status t) Status.completed.

Definition stored_consistent (w : World) : Prop :=
  Forall consistent (snapshot w).

(** The environment rejects no call to the storage (nor to the backend). *)
Definition reliable (w : World) : Prop := forall n, rejects w n = false.

(** [state.isConnected ?? false] at the n-th interaction *)
Definition connected (w : World) (n : nat) : bool :=
  match isConnected w n with Some b => b | None => false end.

(** The call rejects with 'Task not found' having done nothing but read the
    stored tasks once: both items are as before and the trace grew by that
    read alone. *)
Definition not_found_before_writing {A} (m : Async A) (w : World) : Prop :=
  exists w',
    m w = (Throw TaskNotFound, w') /\
    tasksItem w' = tasksItem w /\ actionsItem w' = actionsItem w /\
    trace w' = trace w ++ [GetItem TASKS].

(** Hoare triples over [Async], with one postcondition for a fulfilled
    promise and one for a rejected promise. *)
Definition hoare {A} (P : World -> Prop) (m : Async A)
  (Q : A -> World -> Prop) (E : Exn -> World -> Prop) : Prop :=
  forall w, P w ->
    match m w with
    | (Ok a, w') => Q a w'
    | (Throw e, w') => E e w'
    end.

(** ** Worlds, tasks and logs of the statements *)

(** [extends w w']: [w'] is [w] after some interactions that changed no
    item. *)
Inductive extends (w : World) : World -> Prop :=
| extends_refl : extends w w
| extends_emit e w' : extends w w' -> extends w (emit e w').

(** The task [createTask] builds from the two clock readings it takes. *)
Definition createdTask {host : JSHost} (title description userId : string)
  (dueDate : option string) (w : World) : Task :=
  let now := toISOString (clock w (tick w)) in
  {| id := toString (clock w (S (tick w)));
     title := title; description := description;
     completed := false; status := Status.not_started;
     assignedDate := Some now; dueDate := dueDate;
     createdAt := now; updatedAt := now; userId := userId |}.

(** The updates [toggleTaskComplete] hands to [updateTask] *)
Definition toggled (task : Task) : Partial.Task :=
  Partial.with_status
    (if completed task then Status.not_started else Status.completed)
    (Partial.with_completed (negb (completed task)) Partial.empty).

(** The tasks [filterTasks] keeps, before it sorts them. *)
Definition selected {host : JSHost} (searchQuery : string)
  (filterByStatus : option TaskStatus) (snapshot : list Task) : list Task :=
  let searched :=
    if truthy (trim searchQuery)
    then filter (useTaskStore.matchesQuery (toLowerCase searchQuery)) snapshot
    else snapshot in
  match filterByStatus with
  | Some s => filter (useTaskStore.hasStatus s) searched
  | None => searched
  end.

(** [holds_copy h0 (r, h) content]: in the heap [h], grown from [h0], the
    array at [r] was allocated after [h0], holds [content], and the arrays
    of [h0] are as they were. *)
Definition holds_copy (h0 : Heap) (st : Ref * Heap) (content : list Task)
  : Prop :=
  (List.length h0 <= fst st < List.length (snd st))%nat /\
  deref (snd st) (fst st) = content /\
  (forall r0, (r0 < List.length h0)%nat -> deref (snd st) r0 = deref h0 r0).

(** ** The order a sort leaves *)

Section SortOrder.
Variable A : Type.
Variable comparefn : A -> A -> option Z.

(** [a] may stand before [b]. *)
Definition before (a b : A) : Prop := (sortCompare comparefn a b <= 0)%Z.

(** Any two elements of [l] compare one way or the other, and the
    comparison is transitive. *)
Definition consistent_on (l : list A) : Prop :=
  (forall a b, In a l -> In b l -> before a b \/ before b a) /\
  (forall a b c, In a l -> In b l -> In c l ->
                 before a b -> before b c -> before a c).

(** A consistent comparator for the elements of [l], as ECMAScript defines
    it: the comparator never answers [NaN]; an element equals itself;
    equality is symmetric and transitive; less and greater are
    transitive. *)
Definition consistent_comparator (l : list A) : Prop :=
  (forall a b, In a l -> In b l -> comparefn a b <> None) /\
  (forall a, In a l -> sortCompare comparefn a a = 0%Z) /\
  (forall a b, In a l -> In b l ->
     sortCompare comparefn a b = 0%Z -> sortCompare comparefn b a = 0%Z) /\
  (forall a b c, In a l -> In b l -> In c l ->
     sortCompare comparefn a b = 0%Z -> sortCompare comparefn b c = 0%Z ->
     sortCompare comparefn a c = 0%Z) /\
  (forall a b c, In a l -> In b l -> In c l ->
     (sortCompare comparefn a b < 0)%Z -> (sortCompare comparefn b c < 0)%Z ->
     (sortCompare comparefn a c < 0)%Z) /\
  (forall a b c, In a l -> In b l -> In c l ->
     (sortCompare comparefn a b > 0)%Z -> (sortCompare comparefn b c > 0)%Z ->
     (sortCompare comparefn a c > 0)%Z).
End SortOrder.

(** What ECMAScript requires of [Array.prototype.sort], as far as the
    theorems need it: the array holds the same elements afterwards, each
    as often as before; and when the comparator is consistent for them,
    each element may stand before all the elements after it.  For a
    comparator that is not consistent the order is the engine's own. *)
Definition conforming (engine : JSEngine) : Prop :=
  forall (A : Type) (comparefn : A -> A -> option Z) (l : list A),
    Permutation (Array_prototype_sort comparefn l) l /\
    (consistent_comparator comparefn l ->
     StronglySorted (before comparefn) (Array_prototype_sort comparefn l)).

(** The dates the comparator of [sortBy] reads in [l] parse.  The
    comparator of ['title'] reads no date. *)
Definition dates_parse {host : JSHost} (sortBy : SortBy.t) (l : list Task)
  : Prop :=
  match sortBy with
  | SortBy.assignedDate =>
      forall t, In t l -> useTaskStore.assignedTime t <> None
  | SortBy.dueDate =>
      forall t, In t l -> truthy_opt (dueDate t) = true ->
                useTaskStore.dueTime t <> None
  | SortBy.title => True
  end.

(** ** Sample data *)

(** A store holding the sample task, over a storage that holds it too; the
    first interaction is rejected when [backendRejects]. *)
Definition storeWorld (backendRejects : bool) : World :=
  {| memory := mkTaskState [sampleTask "t1" "A" false Status.not_started] false None;
     tasksItem := Some [sampleTask "t1" "A" false Status.not_started];
     actionsItem := None;
     trace := [];
     rejects := fun n => if (n =? 0)%nat then backendRejects else false;
     isConnected := fun _ => Some true;
     clock := fun n => (1704067200000 + Z.of_nat n)%Z |}.

(** The log of the net-zero scenario: create [t1], retitle it, delete it. *)
Definition netZeroLog (t1 : Task) (i1 i2 i3 ts1 ts2 ts3 : string)
  : list OfflineAction :=
  [ Action.mk i1 (CREATE t1) ts1;
    Action.mk i2
      (UPDATE (spread t1 (Partial.with_title "X" Partial.empty))) ts2;
    Action.mk i3 (DELETE (id t1)) ts3 ].

(** The store's array of the examples: four tasks, at reference 0 of a heap
    that holds nothing else. *)
Definition sampleHeap : Heap :=
  [ [ mkTask "1" "Write report" "quarterly TASK list" false Status.not_started
             (Some "300"%string) None "300" "300" "user1";
      mkTask "2" "Review Task board" "" false Status.in_progress
             (Some "200"%string) (Some "900"%string) "200" "200" "user1";
      mkTask "3" "Plan tasks" "for the week" false Status.not_started
             (Some "100"%string) (Some "800"%string) "100" "100" "user1";
      mkTask "4" "Call supplier" "" false Status.not_started
             (Some "50"%string) None "50" "50" "user1" ] ].

(** A store's array in which the assigned date of the second task does not
    parse *)
Definition unparsableHeap : Heap :=
  [ [ mkTask "x" "First" "" false Status.not_started
             (Some "5"%string) None "5" "5" "user1";
      mkTask "y" "Second" "" false Status.not_started
             (Some "soon"%string) None "1" "1" "user1";
      mkTask "z" "Third" "" false Status.not_started
             (Some "3"%string) None "3" "3" "user1" ] ].

(** ** The rest of [useTaskStore] ([src/store/taskStore.ts]) *)

(** [firestoreService.deleteTask]: a soft delete, one update of the remote
    document, which the backend accepts or rejects. *)
Definition firestoreService_deleteTask (taskId : string) : Async unit :=
  fun w => if rejects w (tick w)
           then (Throw Rejected, emit FirestoreUpdateDoc w)
           else (Ok tt, emit FirestoreUpdateDoc w).

Module taskStore.
Section WithHost.
Context {host : JSHost}.

(** [set((state) => f state)] *)
Definition set_state (f : TaskState -> TaskState) : Async unit :=
  fun w => (Ok tt, set_memory (f (memory w)) w).

(** The fields [updateTask] sends to the backend: the keys are copied from
    the updates, [id], [createdAt] and [updatedAt] are not sent. *)
Definition backendFields (updates : Partial.Task) : Partial.Task :=
  Partial.mk None (Partial.title updates) (Partial.description updates)
    (Partial.completed updates) (Partial.status updates)
    (Partial.assignedDate updates) (Partial.dueDate updates)
    None None (Partial.userId updates).

(** [updateTask].  The inner computation answers whether the function has
    returned from inside the fallback ([return;] after the store took the
    task handed back by [taskService]). *)
Definition updateTask (taskId : string) (updates : Partial.Task) : Async unit :=
  tryCatch
    (useTaskStore.set_error None ;;;
     returned <-
       tryCatch
         (firestoreService.updateTask taskId (backendFields updates) ;;;
          ret false)
         (fun _ =>
            tryCatch
              (updatedFromService <- taskService.updateTask taskId updates ;;
               useTaskStore.set_tasks
                 (map (fun task => if (id task =? taskId)%string
                                   then updatedFromService else task)) ;;;
               ret true)
              (fun _ => ret false)) ;;
     if returned : bool then ret tt
     else
       useTaskStore.set_tasks
         (map (fun task => if (id task =? taskId)%string
                           then spread task updates else task)))
    (fun error => useTaskStore.set_error (Some error) ;;; throw error).

Definition deleteTask (taskId : string) : Async unit :=
  tryCatch
    (useTaskStore.set_error None ;;;
     tryCatch (firestoreService_deleteTask taskId)
       (fun _ => taskService.deleteTask taskId) ;;;
     useTaskStore.set_tasks
       (filter (fun task => negb (id task =? taskId)%string)))
    (fun error => useTaskStore.set_error (Some error) ;;; throw error).

(** [syncTasks]: the exception is recorded and not thrown again. *)
Definition syncTasks : Async unit :=
  tryCatch
    (set_state (fun st => mkTaskState (tasks st) true None) ;;;
     isOnline <- syncService.checkConnectivity ;;
     if isOnline : bool then
       state <- useTaskStore.get ;;
       syncedTasks <- syncService.syncTasks (tasks state) ;;
       processedTasks <- syncService.processOfflineActions syncedTasks ;;
       set_state (fun st => mkTaskState processedTasks false (error st))
     else
       set_state (fun st => mkTaskState (tasks st) false (error st)))
    (fun e => set_state (fun st => mkTaskState (tasks st) false (Some e))).
End WithHost.
End taskStore.

(** ** [useSyncStore] ([src/store/syncStore.ts])

    The state of this store is handed to each action and the state it
    leaves is the value of the action. *)

Module syncStore.
(** [interface SyncState] *)
Record SyncState : Set := mk {
  isOnline : bool;
  pendingActions : list OfflineAction;
  isSyncing : bool
}.

Definition checkConnectivity (state : SyncState) : Async SyncState :=
  isConnected <- syncService.checkConnectivity ;;
  actions <- syncService.getOfflineActions ;;
  ret (mk isConnected actions (isSyncing state)).

Definition addOfflineAction (action : OfflineAction) (state : SyncState)
  : Async SyncState :=
  syncService.saveOfflineAction action ;;;
  actions <- syncService.getOfflineActions ;;
  ret (mk (isOnline state) actions (isSyncing state)).

Definition clearPendingActions (state : SyncState) : Async SyncState :=
  syncService.clearOfflineActions ;;;
  ret (mk (isOnline state) [] (isSyncing state)).
End syncStore.

(** ** [handleStatusChange] ([src/screens/TaskDetailScreen.tsx]) *)

Module TaskDetailScreen.
(** [type UserRole = 'admin' | 'user'] *)
Inductive UserRole : Set := admin | user.

(** [handleStatusChange], as a function of [user?.role] and of the status
    held by the screen: the status the screen holds afterwards, and whether
    the 'Permission Denied' alert was shown. *)
Definition handleStatusChange (role : option UserRole)
  (status newStatus : TaskStatus) : TaskStatus * bool :=
  match role with
  | Some user =>
      if Status.eqb status Status.not_started
         && negb (Status.eqb newStatus Status.not_started)
      then (newStatus, false)
      else if Status.eqb status Status.in_progress
              && Status.eqb newStatus Status.completed
      then (newStatus, false)
      else if Status.eqb status Status.completed
              && Status.eqb newStatus Status.completed
      then (status, false)
      else (status, true)
  | _ => (newStatus, false)
  end.

(** The order of the life of a task *)
Definition rank (s : TaskStatus) : nat :=
  match s with
  | Status.not_started => 0
  | Status.in_progress => 1
  | Status.completed => 2
  end.
End TaskDetailScreen.

(** ** Sessions of mutations *)

(** A call of the facade, as the screens issue them. *)
Inductive Mutation : Set :=
| Create (title description userId : string) (dueDate : option string)
| Update (taskId : string) (updates : Partial.Task)
| Delete (taskId : string)
| Toggle (taskId : string)
| SetStatus (taskId : string) (status : TaskStatus).

(** The call, its value dropped. *)
Definition perform {host : JSHost} (m : Mutation) : Async unit :=
  match m with
  | Create title description userId dueDate =>
      taskService.createTask title description userId dueDate ;;; ret tt
  | Update taskId updates => taskService.updateTask taskId updates ;;; ret tt
  | Delete taskId => taskService.deleteTask taskId
  | Toggle taskId => taskService.toggleTaskComplete taskId ;;; ret tt
  | SetStatus taskId status =>
      taskService.updateTaskStatus taskId status ;;; ret tt
  end.

(** The calls one after the other, a rejected call not stopping the
    next one. *)
Fixpoint session {host : JSHost} (ms : list Mutation) (w : World) : World :=
  match ms with
  | [] => w
  | m :: rest => session rest (snd (perform m w))
  end.

(** The updates leave the id of the task alone. *)
Definition keeps_id (m : Mutation) : Prop :=
  match m with
  | Update _ updates => Partial.id updates = None
  | _ => True
  end.

(** The id an action names *)
Definition named (a : OfflineAction) : string :=
  match Action.body a with
  | CREATE payload => id payload
  | UPDATE payload => id payload
  | DELETE payload_id => payload_id
  end.

Definition is_update (a : OfflineAction) : bool :=
  match Action.body a with UPDATE _ => true | _ => false end.

Definition creates (i : string) (a : OfflineAction) : bool :=
  match Action.body a with
  | CREATE payload => (id payload =? i)%string
  | _ => false
  end.

(** What an environment has in common with the one it came from *)
Definition same_environment (w w' : World) : Prop :=
  rejects w' = rejects w /\ isConnected w' = isConnected w /\
  clock w' = clock w.

(** NetInfo reports no connection at any interaction. *)
Definition offline (w : World) : Prop := forall n, connected w n = false.

(** What an action of the store leaves in memory: the tasks changed by
    [f] and no error when it fulfils, the tasks as they were and the error
    when it rejects. *)
Definition recorded (w : World) (f : list Task -> list Task)
  (r : Result unit * World) : Prop :=
  match r with
  | (Ok _, w') =>
      tasks (memory w') = f (tasks (memory w)) /\ error (memory w') = None
  | (Throw e, w') =>
      tasks (memory w') = tasks (memory w) /\ error (memory w') = Some e
  end.

(** The status the detail screen holds after the presses of the status
    buttons in [presses], one call of [handleStatusChange] for each. *)
Definition pressed (role : option TaskDetailScreen.UserRole)
  (status : TaskStatus) (presses : list TaskStatus) : TaskStatus :=
  fold_left (fun s newStatus =>
               fst (TaskDetailScreen.handleStatusChange role s newStatus))
            presses status.

(** * Proofs *)

Unset Implicit Arguments.

(** ** The tests of the repository, run on the model

    [src/__tests__/services/tasks.test.ts] and
    [src/__tests__/services/sync.test.ts], with the storage of the model in
    the place of the mocks. *)

Example test_createTask_creates :
  let r := taskService.createTask "Test Task" "Test Description" "user1"
             (Some "2024-12-31"%string) (device None None true 1704067200000) in
  exists task,
    fst r = Ok task /\
    title task = "Test Task"%string /\
    description task = "Test Description"%string /\
    userId task = "user1"%string /\ dueDate task = Some "2024-12-31"%string /\
    completed task = false /\ status task = Status.not_started /\
    snapshot (snd r) = [task] /\ pending (snd r) = [].
Proof. eexists. repeat split. Qed.

Example test_createTask_queues_when_offline :
  let r := taskService.createTask "Test Task" "Description" "user1" None
             (device None None false 1704067200000) in
  exists task action,
    fst r = Ok task /\ pending (snd r) = [action] /\
    Action.body action = CREATE task.
Proof. do 2 eexists. repeat split. Qed.

Example test_updateTask_updates :
  let existingTask :=
    sampleTask "task1" "Original Title" false Status.not_started in
  let updates :=
    Partial.with_status Status.completed
      (Partial.with_completed true
         (Partial.with_title "Updated Title" Partial.empty)) in
  let r := taskService.updateTask "task1" updates
             (device (Some [existingTask]) None true 1704067200000) in
  exists updatedTask,
    fst r = Ok updatedTask /\
    title updatedTask = "Updated Title"%string /\
    completed updatedTask = true /\ status updatedTask = Status.completed /\
    snapshot (snd r) = [updatedTask].
Proof. eexists. repeat split. Qed.

Example test_updateTask_not_found :
  fst (taskService.updateTask "nonexistent"
         (Partial.with_title "New Title" Partial.empty)
         (device (Some []) None true 1704067200000))
  = Throw TaskNotFound.
Proof. reflexivity. Qed.

Example test_deleteTask_deletes :
  let task := sampleTask "task1" "Test Task" false Status.not_started in
  let r := taskService.deleteTask "task1"
             (device (Some [task]) None true 1704067200000) in
  fst r = Ok tt /\ snapshot (snd r) = [].
Proof. split; reflexivity. Qed.

Example test_deleteTask_not_found :
  fst (taskService.deleteTask "nonexistent"
         (device (Some []) None true 1704067200000))
  = Throw TaskNotFound.
Proof. reflexivity. Qed.

Example test_toggleTaskComplete_toggles :
  let task := sampleTask "task1" "Test Task" false Status.not_started in
  let r := taskService.toggleTaskComplete "task1"
             (device (Some [task]) None true 1704067200000) in
  exists updatedTask,
    fst r = Ok updatedTask /\
    completed updatedTask = true /\ status updatedTask = Status.completed.
Proof. eexists. repeat split. Qed.

Example test_syncTasks_online :
  let tasks := [sampleTask "task1" "Test" false Status.not_started] in
  let r := syncService.syncTasks tasks (device None None true 0) in
  fst r = Ok tasks /\ snapshot (snd r) = tasks.
Proof. split; reflexivity. Qed.

Example test_syncTasks_offline :
  fst (syncService.syncTasks [] (device None None false 0))
  = Throw NoInternetConnection.
Proof. reflexivity. Qed.

Example test_processOfflineActions_create :
  let task := sampleTask "task1" "New Task" false Status.not_started in
  let log := [Action.mk "action1" (CREATE task) "2024-01-01"] in
  let r := syncService.processOfflineActions []
             (device None (Some log) true 0) in
  fst r = Ok [task] /\ pending (snd r) = [].
Proof. split; reflexivity. Qed.

Example test_processOfflineActions_update :
  let task := sampleTask "task1" "Original" false Status.not_started in
  let updated := spread task (Partial.with_title "Updated" Partial.empty) in
  let log := [Action.mk "action1" (UPDATE updated) "2024-01-01"] in
  fst (syncService.processOfflineActions [task]
         (device None (Some log) true 0))
  = Ok [updated].
Proof. reflexivity. Qed.

Example test_processOfflineActions_delete :
  let task1 := sampleTask "task1" "Task 1" false Status.not_started in
  let task2 := sampleTask "task2" "Task 2" false Status.not_started in
  let log := [Action.mk "action1" (DELETE "task1") "2024-01-01"] in
  fst (syncService.processOfflineActions [task1; task2]
         (device None (Some log) true 0))
  = Ok [task2].
Proof. reflexivity. Qed.

(** ** Arrays *)

Section ArrayFacts.
Variable A : Type.
Variable p : A -> bool.

Lemma findIndex_bounds (l : list A) :
  (-1 <= findIndex p l < Z.of_nat (List.length l))%Z.
Proof.
  induction l as [|x l IH]; simpl; [lia|].
  destruct (p x); [lia|].
  destruct (Z.eqb_spec (findIndex p l) (-1)); lia.
Qed.

Lemma findIndex_absent (l : list A) :
  findIndex p l = (-1)%Z <-> forall x, In x l -> p x = false.
Proof.
  induction l as [|x l IH]; simpl.
  - split; [intros _ y []|reflexivity].
  - destruct (p x) eqn:Hx.
    + split; [discriminate|]. intros H. rewrite (H x) in Hx by auto. discriminate.
    + pose proof (findIndex_bounds l) as Hb.
      destruct (Z.eqb_spec (findIndex p l) (-1)) as [E|E].
      * split; [|reflexivity]. intros _ y [<-|Hy]; [assumption|].
        now apply (proj1 IH E).
      * split; [lia|]. intros H. exfalso. apply E, IH. auto.
Qed.

(** A successful [findIndex] points at the first element satisfying [p]. *)
Lemma findIndex_present (l : list A) :
  findIndex p l <> (-1)%Z ->
  exists pre x post,
    l = pre ++ x :: post /\ (forall y, In y pre -> p y = false) /\
    p x = true /\ Z.to_nat (findIndex p l) = List.length pre.
Proof.
  induction l as [|x l IH]; simpl; [congruence|].
  destruct (p x) eqn:Hx.
  - intros _. exists [], x, l. repeat split; auto. intros y [].
  - pose proof (findIndex_bounds l) as Hb.
    destruct (Z.eqb_spec (findIndex p l) (-1)) as [E|E]; [congruence|].
    intros _. destruct (IH E) as (pre & y & post & -> & Hpre & Hy & Hn).
    exists (x :: pre), y, post. repeat split; auto.
    + intros z [<-|Hz]; auto.
    + simpl. lia.
Qed.

Lemma find_first (pre post : list A) (x : A) :
  (forall y, In y pre -> p y = false) -> p x = true ->
  find p (pre ++ x :: post) = Some x.
Proof.
  induction pre as [|y pre IH]; simpl; intros Hpre Hx.
  - now rewrite Hx.
  - rewrite (Hpre y) by auto. apply IH; auto.
Qed.

Lemma find_absent (l : list A) :
  (forall x, In x l -> p x = false) -> find p l = None.
Proof.
  induction l as [|y l IH]; simpl; intros H; [reflexivity|].
  rewrite (H y) by auto. apply IH. auto.
Qed.

Lemma find_split (l : list A) (x : A) :
  find p l = Some x ->
  exists pre post,
    l = pre ++ x :: post /\ (forall y, In y pre -> p y = false) /\ p x = true.
Proof.
  induction l as [|y l IH]; simpl; [discriminate|].
  destruct (p y) eqn:Hy.
  - intros [= ->]. exists [], l. repeat split; auto. intros z [].
  - intros H. destruct (IH H) as (pre & post & -> & Hpre & Hx).
    exists (y :: pre), post. repeat split; auto.
    intros z [<-|Hz]; auto.
Qed.

Lemma findIndex_first (pre post : list A) (x : A) :
  (forall y, In y pre -> p y = false) -> p x = true ->
  findIndex p (pre ++ x :: post) = Z.of_nat (List.length pre).
Proof.
  induction pre as [|y pre IH]; simpl; intros Hpre Hx.
  - now rewrite Hx.
  - rewrite (Hpre y) by auto. rewrite IH by auto.
    destruct (Z.eqb_spec (Z.of_nat (List.length pre)) (-1)); lia.
Qed.

Lemma nth_error_middle (pre post : list A) (x : A) :
  nth_error (pre ++ x :: post) (List.length pre) = Some x.
Proof. induction pre; simpl; auto. Qed.

Lemma assign_middle (pre post : list A) (x v : A) :
  assign (pre ++ x :: post) (List.length pre) v = pre ++ v :: post.
Proof. induction pre; simpl; congruence. Qed.

Lemma filter_keeps_all (l : list A) :
  (forall x, In x l -> p x = true) -> filter p l = l.
Proof.
  induction l as [|y l IH]; simpl; intros H; [reflexivity|].
  rewrite (H y) by auto. f_equal. apply IH. auto.
Qed.

Lemma filter_length_lt (l : list A) (x : A) :
  In x l -> p x = false -> (List.length (filter p l) < List.length l)%nat.
Proof.
  induction l as [|y l IH]; simpl; [intros []|].
  pose proof (filter_length_le p l) as Hle.
  intros [->|Hin] Hx.
  - rewrite Hx. lia.
  - destruct (p y); simpl; specialize (IH Hin Hx); lia.
Qed.

Lemma filter_length_eq (l : list A) :
  List.length (filter p l) = List.length l -> filter p l = l.
Proof.
  intros H. apply filter_keeps_all. intros x Hx.
  destruct (p x) eqn:Hp; [reflexivity|].
  pose proof (filter_length_lt l x Hx Hp). lia.
Qed.
End ArrayFacts.

(** ** Rules of the Hoare triples *)

Section HoareRules.
Context {A B : Type}.

Lemma hoare_ret (P : World -> Prop) (a : A) Q E :
  (forall w, P w -> Q a w) -> hoare P (ret a) Q E.
Proof. intros H w Hw. now apply H. Qed.

Lemma hoare_throw (P : World -> Prop) (e : Exn) (Q : A -> World -> Prop) E :
  (forall w, P w -> E e w) -> hoare P (throw e) Q E.
Proof. intros H w Hw. now apply H. Qed.

Lemma hoare_bind (P : World -> Prop) (m : Async A) (k : A -> Async B)
  (Q : A -> World -> Prop) (R : B -> World -> Prop) E :
  hoare P m Q E -> (forall a, hoare (Q a) (k a) R E) ->
  hoare P (bind m k) R E.
Proof.
  intros Hm Hk w Hw. unfold bind. specialize (Hm w Hw).
  destruct (m w) as [[a|e] w']; [now apply Hk|assumption].
Qed.

Lemma hoare_tryCatch (P : World -> Prop) (m : Async A) (h : Exn -> Async A)
  (Q : A -> World -> Prop) E1 E :
  hoare P m Q E1 -> (forall e, hoare (E1 e) (h e) Q E) ->
  hoare P (tryCatch m h) Q E.
Proof.
  intros Hm Hh w Hw. unfold tryCatch. specialize (Hm w Hw).
  destruct (m w) as [[a|e] w']; [assumption|now apply Hh].
Qed.

(** [catch (error) { throw error }] *)
Lemma hoare_rethrow (P : World -> Prop) (m : Async A) Q E :
  hoare P m Q E -> hoare P (tryCatch m (fun error => throw error)) Q E.
Proof.
  intros Hm. eapply hoare_tryCatch; [exact Hm|].
  intros e. apply hoare_throw. auto.
Qed.

Lemma hoare_consequence (P P' : World -> Prop) (m : Async A)
  (Q Q' : A -> World -> Prop) (E E' : Exn -> World -> Prop) :
  hoare P' m Q' E' ->
  (forall w, P w -> P' w) -> (forall a w, Q' a w -> Q a w) ->
  (forall e w, E' e w -> E e w) ->
  hoare P m Q E.
Proof.
  intros Hm HP HQ HE w Hw. specialize (Hm w (HP w Hw)).
  destruct (m w) as [[a|e] w']; auto.
Qed.

(** A fact that does not depend on the world moves out of the
    precondition. *)
Lemma hoare_pure (phi : Prop) (P : World -> Prop) (m : Async A) Q E :
  (phi -> hoare P m Q E) -> hoare (fun w => phi /\ P w) m Q E.
Proof. intros H w [Hphi Hw]. now apply H. Qed.
End HoareRules.

(** ** The stored collection stays consistent *)

Section Consistency.
Context {host : JSHost}.

(** The postcondition of a rejected promise throughout this section *)
Let E : Exn -> World -> Prop := fun _ => stored_consistent.

Lemma consistent_with_updatedAt (t : Task) (now : string) :
  consistent t -> consistent (with_updatedAt t now).
Proof. exact (fun H => H). Qed.

Lemma Forall_assign (P : Task -> Prop) (l : list Task) (n : nat) (v : Task) :
  Forall P l -> P v -> Forall P (assign l n v).
Proof.
  intros Hl Hv. revert n. induction Hl as [|x l Hx Hl IH]; intros [|n]; simpl;
    constructor; auto.
Qed.

Lemma Forall_filter (P : Task -> Prop) (f : Task -> bool) (l : list Task) :
  Forall P l -> Forall P (filter f l).
Proof.
  induction 1 as [|x l Hx Hl IH]; simpl; [constructor|].
  destruct (f x); auto.
Qed.

Ltac run_primitive :=
  intros w Hw; cbv [E storage.getTasks storage.saveTasks
    syncService.getOfflineActions syncService.clearOfflineActions
    syncService.checkConnectivity
    AsyncStorage_getItem_TASKS AsyncStorage_setItem_TASKS
    AsyncStorage_getItem_OFFLINE_ACTIONS AsyncStorage_setItem_OFFLINE_ACTIONS
    AsyncStorage_removeItem_OFFLINE_ACTIONS NetInfo_fetch Date_now
    tryCatch bind ret throw];
  try destruct (rejects w (tick w)); simpl; auto.

Lemma Date_now_keeps :
  hoare stored_consistent Date_now (fun _ => stored_consistent) E.
Proof. run_primitive. Qed.

Lemma checkConnectivity_keeps :
  hoare stored_consistent syncService.checkConnectivity
    (fun _ => stored_consistent) E.
Proof. run_primitive. Qed.

(** What [getTasks] returns is the stored collection or, when the read
    rejects, the empty array. *)
Lemma getTasks_keeps (stored : list Task) :
  hoare (fun w => stored_consistent w /\ snapshot w = stored)
    storage.getTasks
    (fun tasks w => (tasks = stored \/ tasks = []) /\ stored_consistent w)
    E.
Proof. run_primitive; intuition. Qed.

Lemma saveTasks_keeps (tasks : list Task) :
  Forall consistent tasks ->
  hoare stored_consistent (storage.saveTasks tasks)
    (fun _ => stored_consistent) E.
Proof. intros Ht. run_primitive. Qed.

Lemma getOfflineActions_keeps :
  hoare stored_consistent syncService.getOfflineActions
    (fun _ => stored_consistent) E.
Proof. run_primitive. Qed.

Lemma saveOfflineAction_keeps (action : OfflineAction) :
  hoare stored_consistent (syncService.saveOfflineAction action)
    (fun _ => stored_consistent) E.
Proof.
  apply hoare_rethrow.
  eapply hoare_bind; [apply getOfflineActions_keeps|].
  intros actions. run_primitive.
Qed.

Lemma syncTasks_keeps (tasks : list Task) :
  Forall consistent tasks ->
  hoare stored_consistent (syncService.syncTasks tasks)
    (fun _ => stored_consistent) E.
Proof.
  intros Ht. eapply hoare_bind; [apply checkConnectivity_keeps|].
  intros [|]; simpl.
  - eapply hoare_bind; [now apply saveTasks_keeps|].
    intros ?. now apply hoare_ret.
  - now apply hoare_throw.
Qed.

Lemma syncOrQueue_keeps (tasks : list Task) (mkAction : Async OfflineAction) :
  Forall consistent tasks ->
  hoare stored_consistent mkAction (fun _ => stored_consistent) E ->
  hoare stored_consistent (taskService.syncOrQueue tasks mkAction)
    (fun _ => stored_consistent) E.
Proof.
  intros Ht Hmk.
  assert (Hqueue : hoare stored_consistent
            (action <- mkAction ;; syncService.saveOfflineAction action)
            (fun _ => stored_consistent) E).
  { eapply hoare_bind; [exact Hmk|]. intros a. apply saveOfflineAction_keeps. }
  eapply hoare_bind; [apply checkConnectivity_keeps|].
  intros [|]; [|exact Hqueue].
  eapply hoare_tryCatch with (E1 := E).
  - eapply hoare_bind; [now apply syncTasks_keeps|].
    intros ?. now apply hoare_ret.
  - intros ?. exact Hqueue.
Qed.

(** The object literal of an action reads the clock once or twice. *)
Lemma mkAction1_keeps (f : Z -> OfflineAction) :
  hoare stored_consistent (a <- Date_now ;; ret (f a))
    (fun _ => stored_consistent) E.
Proof.
  eapply hoare_bind; [apply Date_now_keeps|]. intros a. now apply hoare_ret.
Qed.

Lemma mkAction2_keeps (f : Z -> Z -> OfflineAction) :
  hoare stored_consistent (a <- Date_now ;; s <- Date_now ;; ret (f a s))
    (fun _ => stored_consistent) E.
Proof.
  eapply hoare_bind; [apply Date_now_keeps|]. intros a.
  eapply hoare_bind; [apply Date_now_keeps|]. intros s. now apply hoare_ret.
Qed.

Lemma getTasks_consistent :
  hoare stored_consistent storage.getTasks
    (fun tasks w => Forall consistent tasks /\ stored_consistent w) E.
Proof.
  intros w Hw. generalize (getTasks_keeps (snapshot w) w (conj Hw eq_refl)).
  destruct (storage.getTasks w) as [[tasks|e] w']; [|auto].
  intros [[-> | ->] Hw']; split; auto.
Qed.

Lemma createTask_keeps (title description userId : string)
  (dueDate : option string) :
  hoare stored_consistent
    (taskService.createTask title description userId dueDate)
    (fun _ => stored_consistent) E.
Proof.
  apply hoare_rethrow.
  eapply hoare_bind; [apply Date_now_keeps|]. intros d.
  eapply hoare_bind; [apply Date_now_keeps|]. intros i.
  eapply hoare_bind; [apply getTasks_consistent|]. intros tasks.
  apply hoare_pure. intros Htasks.
  assert (Hall : Forall consistent (tasks ++ [mkTask (toString i) title description
            false Status.not_started (Some (toISOString d)) dueDate
            (toISOString d) (toISOString d) userId])).
  { apply Forall_app. split; [exact Htasks|].
    constructor; [reflexivity|constructor]. }
  eapply hoare_bind; [now apply saveTasks_keeps|]. intros ?.
  eapply hoare_bind.
  { apply syncOrQueue_keeps; [exact Hall|]. apply mkAction1_keeps. }
  intros ?. now apply hoare_ret.
Qed.

Lemma deleteTask_keeps (taskId : string) :
  hoare stored_consistent (taskService.deleteTask taskId)
    (fun _ => stored_consistent) E.
Proof.
  apply hoare_rethrow.
  eapply hoare_bind; [apply getTasks_consistent|]. intros tasks.
  apply hoare_pure. intros Htasks. cbv zeta.
  destruct (List.length tasks =? _)%nat; [now apply hoare_throw|].
  pose proof (Forall_filter consistent
                (fun t => negb (id t =? taskId)%string) tasks Htasks) as Hf.
  eapply hoare_bind; [now apply saveTasks_keeps|]. intros ?.
  apply syncOrQueue_keeps; [exact Hf|]. apply mkAction2_keeps.
Qed.

(** [updateTask] keeps the stored collection consistent when the record
    it writes, the stored task overlaid with the updates, is consistent. *)
Lemma updateTask_keeps (taskId : string) (updates : Partial.Task)
  (stored : list Task) :
  Forall consistent stored ->
  (forall t, find (fun t => (id t =? taskId)%string) stored = Some t ->
             consistent (spread t updates)) ->
  hoare (fun w => stored_consistent w /\ snapshot w = stored)
    (taskService.updateTask taskId updates)
    (fun _ => stored_consistent) E.
Proof.
  intros Hstored Hu. apply hoare_rethrow.
  eapply hoare_bind; [apply getTasks_keeps|]. intros tasks.
  apply hoare_pure. intros Htasks. cbv zeta.
  destruct (Z.eqb_spec (findIndex (fun t => (id t =? taskId)%string) tasks) (-1))
    as [Hi|Hi]; [now apply hoare_throw|].
  destruct (findIndex_present _ _ _ Hi) as (pre & x & post & Hsplit & Hpre & Hx & Hn).
  set (n := Z.to_nat (findIndex (fun t => (id t =? taskId)%string) tasks)) in *.
  clearbody n. subst n.
  destruct Htasks as [Htasks|Htasks]; [|now destruct pre; rewrite Htasks in Hsplit].
  subst tasks. rewrite Hsplit, nth_error_middle.
  eapply hoare_bind.
  { eapply hoare_consequence; [apply Date_now_keeps| |intros ? ? H; exact H|auto].
    intros w Hw. exact Hw. }
  intros d. cbv beta. rewrite assign_middle.
  assert (Hall : Forall consistent
            (pre ++ with_updatedAt (spread x updates) (toISOString d) :: post)).
  { rewrite Hsplit in Hstored. apply Forall_app in Hstored as [Hp Hxp].
    apply Forall_app. split; [exact Hp|].
    constructor; [|now inversion Hxp].
    apply consistent_with_updatedAt, Hu.
    rewrite Hsplit. now apply find_first. }
  eapply hoare_bind; [now apply saveTasks_keeps|]. intros ?.
  eapply hoare_bind.
  { apply syncOrQueue_keeps; [exact Hall|]. apply mkAction2_keeps. }
  intros ?. now apply hoare_ret.
Qed.

(** [getTaskById] answers with the first stored task of that id, or with
    [null]. *)
Lemma getTaskById_keeps (taskId : string) (stored : list Task) :
  hoare (fun w => stored_consistent w /\ snapshot w = stored)
    (taskService.getTaskById taskId)
    (fun task w =>
       (task = find (fun t => (id t =? taskId)%string) stored \/ task = None)
       /\ (stored_consistent w /\ snapshot w = stored))
    E.
Proof.
  intros w [Hw Hs].
  cbv [taskService.getTaskById storage.getTasks AsyncStorage_getItem_TASKS
       tryCatch bind ret].
  subst stored.
  destruct (rejects w (tick w)); simpl; [now auto|].
  split; [left; reflexivity|split; [exact Hw|reflexivity]].
Qed.

Lemma toggleTaskComplete_keeps (taskId : string) (stored : list Task) :
  Forall consistent stored ->
  hoare (fun w => stored_consistent w /\ snapshot w = stored)
    (taskService.toggleTaskComplete taskId)
    (fun _ => stored_consistent) E.
Proof.
  intros Hstored.
  eapply hoare_bind; [apply getTaskById_keeps|]. intros [task|].
  - apply hoare_pure. intros _.
    apply updateTask_keeps; [exact Hstored|].
    intros t _. unfold consistent. simpl. now destruct (completed task).
  - apply hoare_throw. now intros w (_ & Hw & _).
Qed.

Lemma updateTaskStatus_keeps (taskId : string) (status : TaskStatus)
  (stored : list Task) :
  Forall consistent stored ->
  hoare (fun w => stored_consistent w /\ snapshot w = stored)
    (taskService.updateTaskStatus taskId status)
    (fun _ => stored_consistent) E.
Proof.
  intros Hstored. apply updateTask_keeps; [exact Hstored|].
  intros t _. reflexivity.
Qed.
End Consistency.

(** C1, as amended: for every mutation performed through [taskService]
    ([createTask], [deleteTask], [toggleTaskComplete], [updateTaskStatus]),
    whatever the environment answers and whether the call fulfils or
    rejects, the stored collection satisfies
    [completed == (status == completed)] for every task after the call,
    provided it did before; [updateTask] keeps it under the further
    condition that the record it writes, the stored task of that id overlaid
    with the updates, satisfies it. *)
Theorem taskService_keeps_consistency {host : JSHost} (w : World)
  (Hw : stored_consistent w) :
  (forall title description userId dueDate,
     stored_consistent
       (snd (taskService.createTask title description userId dueDate w))) /\
  (forall taskId, stored_consistent (snd (taskService.deleteTask taskId w))) /\
  (forall taskId,
     stored_consistent (snd (taskService.toggleTaskComplete taskId w))) /\
  (forall taskId status,
     stored_consistent (snd (taskService.updateTaskStatus taskId status w))) /\
  (forall taskId updates,
     (forall t, find (fun t => (id t =? taskId)%string) (snapshot w) = Some t ->
                consistent (spread t updates)) ->
     stored_consistent (snd (taskService.updateTask taskId updates w))).
Proof.
  assert (Hend : forall (A : Type) (m : Async A),
            hoare (fun w' => stored_consistent w' /\ snapshot w' = snapshot w) m
              (fun _ => stored_consistent) (fun _ => stored_consistent) ->
            stored_consistent (snd (m w))).
  { intros A m Hm. specialize (Hm w (conj Hw eq_refl)).
    now destruct (m w) as [[a|e] w']. }
  assert (Hweak : forall (A : Type) (m : Async A),
            hoare stored_consistent m
              (fun _ => stored_consistent) (fun _ => stored_consistent) ->
            stored_consistent (snd (m w))).
  { intros A m Hm. specialize (Hm w Hw). now destruct (m w) as [[a|e] w']. }
  repeat split; intros.
  - apply Hweak, createTask_keeps.
  - apply Hweak, deleteTask_keeps.
  - apply Hend, toggleTaskComplete_keeps, Hw.
  - apply Hend, updateTaskStatus_keeps, Hw.
  - apply Hend, updateTask_keeps; [exact Hw|assumption].
Qed.

(** The stored collection of the examples: one task, not started. *)
Lemma sample_stored_consistent :
  stored_consistent
    (device (Some [sampleTask "t1" "A" false Status.not_started]) None false
            1704067200000).
Proof. repeat constructor. Qed.

Lemma taskService_keeps_consistency_witness :
  let w := device (Some [sampleTask "t1" "A" false Status.not_started]) None
                  false 1704067200000 in
  stored_consistent w /\
  stored_consistent (snd (taskService.toggleTaskComplete "t1" w)).
Proof.
  intros w.
  assert (Hw : stored_consistent w) by (repeat constructor).
  split; [exact Hw|].
  apply (proj1 (proj2 (proj2 (taskService_keeps_consistency w Hw)))).
Defined.

(** C1, as stated, fails on [updateTask]: it writes whatever the updates
    say, so an update of [completed] alone leaves a stored task that is
    completed and not started. *)
Lemma updateTask_breaks_consistency :
  let w := device (Some [sampleTask "t1" "A" false Status.not_started]) None
                  false 1704067200000 in
  let updates := Partial.with_completed true Partial.empty in
  stored_consistent w /\
  snapshot (snd (taskService.updateTask "t1" updates w)) =
    [ mkTask "t1" "A" "Description" true Status.not_started
             (Some "1704067200000"%string) None "1704067200000"
             "1704067200001" "user1" ] /\
  ~ stored_consistent (snd (taskService.updateTask "t1" updates w)).
Proof.
  intros w updates. split; [repeat constructor|]. split; [reflexivity|].
  intros H. unfold stored_consistent in H.
  change (snapshot (snd (taskService.updateTask "t1" updates w)))
    with [ mkTask "t1" "A" "Description" true Status.not_started
             (Some "1704067200000"%string) None "1704067200000"
             "1704067200001" "user1" ] in H.
  inversion H as [|? ? Hc _]. discriminate Hc.
Qed.

(** The wrappers of the store are outside C1 as amended.  After
    [useTaskStore.toggleTaskComplete] the task held by the store has its
    [completed] flag flipped and its [status] as before, when the backend
    accepts the update and when it rejects it and the call falls back on
    [taskService] (which writes both fields to the storage). *)

Example useTaskStore_toggle_backend_path :
  let r := useTaskStore.toggleTaskComplete "t1" (storeWorld false) in
  fst r = Ok tt /\
  map (fun t => (completed t, status t)) (tasks (memory (snd r))) =
    [(true, Status.not_started)] /\
  map (fun t => (completed t, status t)) (snapshot (snd r)) =
    [(false, Status.not_started)].
Proof. repeat split. Qed.

Example useTaskStore_toggle_fallback_path :
  let r := useTaskStore.toggleTaskComplete "t1" (storeWorld true) in
  fst r = Ok tt /\
  map (fun t => (completed t, status t)) (tasks (memory (snd r))) =
    [(true, Status.not_started)] /\
  map (fun t => (completed t, status t)) (snapshot (snd r)) =
    [(true, Status.completed)].
Proof. repeat split. Qed.

Example useTaskStore_updateTaskStatus_backend_path :
  let r := useTaskStore.updateTaskStatus "t1" Status.completed (storeWorld false) in
  fst r = Ok tt /\
  map (fun t => (completed t, status t)) (tasks (memory (snd r))) =
    [(false, Status.completed)].
Proof. repeat split. Qed.

(** ** Unknown identifiers *)

Section NotFound.
Context {host : JSHost}.
Variable w : World.
Variable taskId : string.
Hypothesis unknown : forall t, In t (snapshot w) -> id t <> taskId.

Let unknown_eqb : forall t, In t (snapshot w) -> (id t =? taskId)%string = false.
Proof. intros t Ht. apply String.eqb_neq. now apply unknown. Qed.

(** What [getTasks] hands back has no task of that id either. *)
Lemma getTasks_unknown :
  exists tasks,
    storage.getTasks w = (Ok tasks, emit (GetItem TASKS) w) /\
    forall t, In t tasks -> (id t =? taskId)%string = false.
Proof.
  cbv [storage.getTasks AsyncStorage_getItem_TASKS tryCatch bind ret].
  destruct (rejects w (tick w)); simpl.
  - exists []. split; [reflexivity|intros t []].
  - exists (snapshot w). split; [reflexivity|exact unknown_eqb].
Qed.

Lemma updateTask_unknown (updates : Partial.Task) :
  taskService.updateTask taskId updates w
  = (Throw TaskNotFound, emit (GetItem TASKS) w).
Proof.
  destruct getTasks_unknown as (tasks & Hget & Hnone).
  unfold taskService.updateTask, tryCatch, bind. rewrite Hget.
  rewrite (proj2 (findIndex_absent _ _ tasks) Hnone). reflexivity.
Qed.

Lemma deleteTask_unknown :
  taskService.deleteTask taskId w
  = (Throw TaskNotFound, emit (GetItem TASKS) w).
Proof.
  destruct getTasks_unknown as (tasks & Hget & Hnone).
  unfold taskService.deleteTask, tryCatch, bind. rewrite Hget.
  rewrite filter_keeps_all, Nat.eqb_refl; [reflexivity|].
  intros t Ht. now rewrite (Hnone t Ht).
Qed.

Lemma toggleTaskComplete_unknown :
  taskService.toggleTaskComplete taskId w
  = (Throw TaskNotFound, emit (GetItem TASKS) w).
Proof.
  destruct getTasks_unknown as (tasks & Hget & Hnone).
  unfold taskService.toggleTaskComplete, taskService.getTaskById, tryCatch, bind.
  rewrite Hget. unfold ret. now rewrite find_absent.
Qed.
End NotFound.

(** C4: for every stored collection and every id that does not occur in
    it, [updateTask], [deleteTask] and [toggleTaskComplete] reject with
    'Task not found' before any write to the storage is attempted: the
    stored tasks and the offline action log are unchanged and the only
    interaction is the read of the stored tasks. *)
Theorem unknown_id_fails_before_writing {host : JSHost} (w : World)
  (taskId : string) (updates : Partial.Task)
  (unknown : forall t, In t (snapshot w) -> id t <> taskId) :
  not_found_before_writing (taskService.updateTask taskId updates) w /\
  not_found_before_writing (taskService.deleteTask taskId) w /\
  not_found_before_writing (taskService.toggleTaskComplete taskId) w.
Proof.
  repeat split; exists (emit (GetItem TASKS) w); repeat split.
  - now apply updateTask_unknown.
  - now apply deleteTask_unknown.
  - now apply toggleTaskComplete_unknown.
Qed.

Lemma unknown_id_fails_before_writing_witness :
  let w := device (Some [sampleTask "t1" "A" false Status.not_started])
                  (Some []) false 1704067200000 in
  (forall t, In t (snapshot w) -> id t <> "nonexistent"%string) /\
  not_found_before_writing
    (taskService.updateTask "nonexistent"
       (Partial.with_title "New Title" Partial.empty)) w.
Proof.
  intros w.
  assert (H : forall t, In t (snapshot w) -> id t <> "nonexistent"%string).
  { intros t [<-|[]]. discriminate. }
  split; [exact H|].
  apply (proj1 (unknown_id_fails_before_writing w "nonexistent" _ H)).
Defined.

(** ** Running the services on a reliable storage *)


Lemma tick_emit (e : Event) (w : World) : tick (emit e w) = S (tick w).
Proof. unfold tick, emit. simpl. rewrite length_app. simpl. lia. Qed.

Lemma tick_set_tasksItem (v : option (list Task)) (w : World) :
  tick (set_tasksItem v w) = tick w.
Proof. reflexivity. Qed.

Lemma tick_set_actionsItem (v : option (list OfflineAction)) (w : World) :
  tick (set_actionsItem v w) = tick w.
Proof. reflexivity. Qed.

Lemma extends_frame (w w' : World) :
  extends w w' ->
  memory w' = memory w /\ tasksItem w' = tasksItem w /\
  actionsItem w' = actionsItem w /\ rejects w' = rejects w /\
  isConnected w' = isConnected w /\ clock w' = clock w.
Proof. induction 1; simpl; auto 10. Qed.

Lemma extends_reliable (w w' : World) :
  extends w w' -> reliable w -> reliable w'.
Proof.
  intros Hext Hw n. destruct (extends_frame _ _ Hext) as (_ & _ & _ & -> & _).
  apply Hw.
Qed.

Lemma extends_snapshot (w w' : World) : extends w w' -> snapshot w' = snapshot w.
Proof.
  intros Hext. unfold snapshot.
  now destruct (extends_frame _ _ Hext) as (_ & -> & _).
Qed.

Lemma extends_pending (w w' : World) : extends w w' -> pending w' = pending w.
Proof.
  intros Hext. unfold pending.
  now destruct (extends_frame _ _ Hext) as (_ & _ & -> & _).
Qed.

Section Reliable.
Context {host : JSHost}.

Lemma getTasks_run (w : World) :
  reliable w ->
  storage.getTasks w = (Ok (snapshot w), emit (GetItem TASKS) w).
Proof.
  intros Hw.
  cbv [storage.getTasks AsyncStorage_getItem_TASKS tryCatch bind ret].
  now rewrite Hw.
Qed.

Lemma saveTasks_run (tasks : list Task) (w : World) :
  reliable w ->
  storage.saveTasks tasks w
  = (Ok tt, emit (SetItem TASKS) (set_tasksItem (Some tasks) w)).
Proof.
  intros Hw. cbv [storage.saveTasks AsyncStorage_setItem_TASKS tryCatch].
  now rewrite Hw.
Qed.

Lemma getOfflineActions_run (w : World) :
  reliable w ->
  syncService.getOfflineActions w
  = (Ok (pending w), emit (GetItem OFFLINE_ACTIONS) w).
Proof.
  intros Hw.
  cbv [syncService.getOfflineActions AsyncStorage_getItem_OFFLINE_ACTIONS
       tryCatch bind ret].
  now rewrite Hw.
Qed.

Lemma saveOfflineAction_run (action : OfflineAction) (w : World) :
  reliable w ->
  syncService.saveOfflineAction action w
  = (Ok tt, emit (SetItem OFFLINE_ACTIONS)
              (set_actionsItem (Some (pending w ++ [action]))
                 (emit (GetItem OFFLINE_ACTIONS) w))).
Proof.
  intros Hw. unfold syncService.saveOfflineAction, tryCatch, bind.
  rewrite getOfflineActions_run by assumption.
  unfold AsyncStorage_setItem_OFFLINE_ACTIONS. simpl. now rewrite Hw.
Qed.

(** The outcome of the tail of a mutation, once [tasks] is stored: the
    call fulfils, the stored tasks stay [tasks], and the action log
    receives the action built by [mkAction] when the probe says offline
    (and, when it says online, either that action or nothing). *)
Lemma syncOrQueue_run (tasks : list Task) (mkAction : Async OfflineAction)
  (Q : OfflineAction -> Prop) (w : World) :
  reliable w -> snapshot w = tasks ->
  (forall w0, exists a w1, mkAction w0 = (Ok a, w1) /\ extends w0 w1 /\ Q a) ->
  exists w',
    taskService.syncOrQueue tasks mkAction w = (Ok tt, w') /\
    reliable w' /\ snapshot w' = tasks /\
    ((exists a, Q a /\ pending w' = pending w ++ [a]) \/
     (connected w (tick w) = true /\ pending w' = pending w)).
Proof.
  intros Hw Hs Hmk.
  assert (Hqueue : forall w0, extends w w0 ->
            exists w',
              (action <- mkAction ;; syncService.saveOfflineAction action) w0
              = (Ok tt, w') /\
              reliable w' /\ snapshot w' = tasks /\
              exists a, Q a /\ pending w' = pending w ++ [a]).
  { intros w0 Hw0. destruct (Hmk w0) as (a & w1 & Hrun & Hext & Ha).
    assert (Hw1 : extends w w1).
    { clear - Hw0 Hext. induction Hext; [assumption|now constructor]. }
    unfold bind. rewrite Hrun.
    rewrite saveOfflineAction_run by (eapply extends_reliable; eassumption).
    eexists. split; [reflexivity|]. repeat split.
    - intros n. simpl. apply (extends_reliable _ _ Hw1 Hw).
    - simpl. rewrite <- Hs. apply (extends_snapshot _ _ Hw1).
    - exists a. split; [exact Ha|]. simpl.
      now rewrite (extends_pending _ _ Hw1). }
  unfold taskService.syncOrQueue, bind at 1, syncService.checkConnectivity,
    bind at 1, NetInfo_fetch, ret.
  fold (connected w (tick w)).
  destruct (connected w (tick w)) eqn:Hc.
  - unfold tryCatch, bind at 1, syncService.syncTasks, bind at 1,
      syncService.checkConnectivity, bind at 1, NetInfo_fetch, ret.
    destruct (match isConnected _ _ with Some b => b | None => false end); simpl.
    + unfold bind. rewrite saveTasks_run by (intros n; apply Hw).
      eexists. split; [reflexivity|]. repeat split.
      * intros n. apply Hw.
      * right. split; reflexivity.
    + unfold throw.
      destruct (Hqueue (emit NetInfoFetch (emit NetInfoFetch w)))
        as (w' & Hrun & Hrel & Hsnap & Hpend); [repeat constructor|].
      exists w'. repeat split; auto.
  - destruct (Hqueue (emit NetInfoFetch w))
      as (w' & Hrun & Hrel & Hsnap & Hpend); [repeat constructor|].
    exists w'. repeat split; auto.
Qed.
End Reliable.

Section Mutations.
Context {host : JSHost}.


Lemma createTask_run (title description userId : string)
  (dueDate : option string) (w : World) :
  reliable w ->
  let newTask := createdTask title description userId dueDate w in
  exists w',
    taskService.createTask title description userId dueDate w = (Ok newTask, w') /\
    reliable w' /\ snapshot w' = snapshot w ++ [newTask] /\
    ((exists a, Action.body a = CREATE newTask /\ pending w' = pending w ++ [a]) \/
     (connected w (4 + tick w) = true /\ pending w' = pending w)).
Proof.
  intros Hw newTask.
  cbv [taskService.createTask tryCatch bind Date_now].
  rewrite getTasks_run by (intros n; apply Hw).
  rewrite saveTasks_run by (intros n; apply Hw).
  rewrite !tick_emit.
  match goal with |- context [taskService.syncOrQueue ?t ?mk ?W] =>
    destruct (syncOrQueue_run t mk (fun a => Action.body a = CREATE newTask) W)
      as (w' & Hrun & Hrel & Hsnap & Hpend)
  end.
  - intros n. apply Hw.
  - reflexivity.
  - intros w0. do 2 eexists. split; [reflexivity|]. split; [|reflexivity].
    repeat constructor.
  - rewrite Hrun. exists w'. split; [reflexivity|]. split; [exact Hrel|].
    split; [exact Hsnap|].
    rewrite ?tick_emit, ?tick_set_tasksItem, ?tick_emit in Hpend. exact Hpend.
Qed.

Lemma updateTask_run (taskId : string) (updates : Partial.Task) (w : World)
  (pre post : list Task) (x : Task) :
  reliable w ->
  snapshot w = pre ++ x :: post ->
  (forall y, In y pre -> (id y =? taskId)%string = false) ->
  (id x =? taskId)%string = true ->
  let updatedTask :=
    with_updatedAt (spread x updates) (toISOString (clock w (1 + tick w))) in
  exists w',
    taskService.updateTask taskId updates w = (Ok updatedTask, w') /\
    reliable w' /\ snapshot w' = pre ++ updatedTask :: post /\
    ((exists a, Action.body a = UPDATE updatedTask /\
                pending w' = pending w ++ [a]) \/
     (connected w (3 + tick w) = true /\ pending w' = pending w)).
Proof.
  intros Hw Hs Hpre Hx updatedTask.
  unfold taskService.updateTask, tryCatch, bind at 1.
  rewrite getTasks_run by assumption. rewrite Hs.
  rewrite (findIndex_first _ (fun t => (id t =? taskId)%string) pre post x Hpre Hx).
  replace (Z.of_nat (List.length pre) =? -1)%Z with false
    by (symmetry; apply Z.eqb_neq; lia).
  rewrite Nat2Z.id, nth_error_middle.
  cbv [bind Date_now]. rewrite assign_middle.
  rewrite saveTasks_run by (intros n; apply Hw).
  rewrite !tick_emit.
  match goal with |- context [taskService.syncOrQueue ?t ?mk ?W] =>
    destruct (syncOrQueue_run t mk (fun a => Action.body a = UPDATE updatedTask) W)
      as (w' & Hrun & Hrel & Hsnap & Hpend)
  end.
  - intros n. apply Hw.
  - reflexivity.
  - intros w0. do 2 eexists. split; [reflexivity|]. split; [|reflexivity].
    repeat constructor.
  - rewrite Hrun. exists w'. split; [reflexivity|]. split; [exact Hrel|].
    split; [exact Hsnap|].
    rewrite ?tick_emit, ?tick_set_tasksItem, ?tick_emit in Hpend. exact Hpend.
Qed.

Lemma deleteTask_run (taskId : string) (w : World) (x : Task) :
  reliable w -> In x (snapshot w) -> id x = taskId ->
  exists w',
    taskService.deleteTask taskId w = (Ok tt, w') /\
    reliable w' /\
    snapshot w' = filter (fun t => negb (id t =? taskId)%string) (snapshot w) /\
    ((exists a, Action.body a = DELETE taskId /\
                pending w' = pending w ++ [a]) \/
     (connected w (2 + tick w) = true /\ pending w' = pending w)).
Proof.
  intros Hw Hin Hid.
  unfold taskService.deleteTask, tryCatch, bind at 1.
  rewrite getTasks_run by assumption.
  assert (Hlt : (List.length (snapshot w) =?
                 List.length (filter (fun t => negb (id t =? taskId)%string)
                                (snapshot w)))%nat = false).
  { apply Nat.eqb_neq.
    pose proof (filter_length_lt _ (fun t => negb (id t =? taskId)%string)
                  (snapshot w) x Hin) as Hlt.
    cbv beta in Hlt. rewrite Hid, String.eqb_refl in Hlt.
    specialize (Hlt eq_refl). lia. }
  rewrite Hlt. unfold bind at 1.
  rewrite saveTasks_run by (intros n; apply Hw).
  match goal with |- context [taskService.syncOrQueue ?t ?mk ?W] =>
    destruct (syncOrQueue_run t mk (fun a => Action.body a = DELETE taskId) W)
      as (w' & Hrun & Hrel & Hsnap & Hpend)
  end.
  - intros n. apply Hw.
  - reflexivity.
  - intros w0. do 2 eexists. split; [reflexivity|]. split; [|reflexivity].
    repeat constructor.
  - rewrite Hrun. exists w'. split; [reflexivity|]. split; [exact Hrel|].
    split; [exact Hsnap|].
    rewrite ?tick_emit, ?tick_set_tasksItem, ?tick_emit in Hpend. exact Hpend.
Qed.


Lemma toggleTaskComplete_run (taskId : string) (w : World)
  (pre post : list Task) (x : Task) :
  reliable w ->
  snapshot w = pre ++ x :: post ->
  (forall y, In y pre -> (id y =? taskId)%string = false) ->
  (id x =? taskId)%string = true ->
  let updatedTask :=
    with_updatedAt (spread x (toggled x)) (toISOString (clock w (2 + tick w))) in
  exists w',
    taskService.toggleTaskComplete taskId w = (Ok updatedTask, w') /\
    reliable w' /\ snapshot w' = pre ++ updatedTask :: post.
Proof.
  intros Hw Hs Hpre Hx updatedTask.
  unfold taskService.toggleTaskComplete, bind, taskService.getTaskById,
    tryCatch, bind.
  rewrite getTasks_run by assumption. unfold ret.
  rewrite Hs, (find_first _ _ pre post x Hpre Hx).
  destruct (updateTask_run taskId (toggled x) (emit (GetItem TASKS) w)
              pre post x) as (w' & Hrun & Hrel & Hsnap & _); auto.
  rewrite tick_emit in Hrun, Hsnap.
  exists w'. split; [exact Hrun|]. split; [exact Hrel|exact Hsnap].
Qed.
End Mutations.

(** ** [toggleTaskComplete] *)

Section Toggle.
Context {host : JSHost}.

Lemma spread_toggled (x : Task) (now : string) :
  let t := with_updatedAt (spread x (toggled x)) now in
  id t = id x /\ completed t = negb (completed x) /\
  status t = (if completed x then Status.not_started else Status.completed).
Proof. repeat split. Qed.

(** Whatever the environment does, a task handed back by [updateTask]
    carries the status and the flag of the updates when they set them. *)
Lemma updateTask_returns (taskId : string) (updates : Partial.Task)
  (c : bool) (s : TaskStatus) :
  Partial.completed updates = Some c -> Partial.status updates = Some s ->
  hoare (fun _ => True) (taskService.updateTask taskId updates)
    (fun t _ => completed t = c /\ status t = s) (fun _ _ => True).
Proof.
  intros Hc Hs. apply hoare_rethrow.
  eapply hoare_bind with (Q := fun _ _ => True).
  { intros w _. now destruct (storage.getTasks w) as [[?|?] ?]. }
  intros tasks. cbv zeta.
  destruct (_ =? -1)%Z; [now apply hoare_throw|].
  destruct (nth_error tasks _) as [found|]; [|now apply hoare_throw].
  eapply hoare_bind with (Q := fun _ _ => True).
  { intros w _. now destruct (Date_now w) as [[?|?] ?]. }
  intros d.
  eapply hoare_bind with (Q := fun _ _ => True).
  { intros w _. now destruct (storage.saveTasks _ w) as [[?|?] ?]. }
  intros ?.
  eapply hoare_bind with (Q := fun _ _ => True).
  { intros w _. now destruct (taskService.syncOrQueue _ _ w) as [[?|?] ?]. }
  intros ?. apply hoare_ret. intros w _. simpl. rewrite Hc, Hs. auto.
Qed.

Lemma toggleTaskComplete_returns (taskId : string) :
  hoare (fun _ => True) (taskService.toggleTaskComplete taskId)
    (fun t _ => (completed t = true /\ status t = Status.completed) \/
                (completed t = false /\ status t = Status.not_started))
    (fun _ _ => True).
Proof.
  eapply hoare_bind with (Q := fun _ _ => True).
  { intros w _. now destruct (taskService.getTaskById taskId w) as [[?|?] ?]. }
  intros [task|]; [|now apply hoare_throw].
  eapply hoare_consequence.
  - apply (updateTask_returns taskId _ (negb (completed task))
             (if completed task then Status.not_started else Status.completed));
      reflexivity.
  - auto.
  - intros t w [-> ->]. destruct (completed task); auto.
  - auto.
Qed.
End Toggle.

(** C5: for a task present in the stored collection (the one its id finds),
    toggling twice brings [completed] back to its original value, and after
    each toggle the status is 'completed' exactly when [completed] is true,
    the status moving between 'completed' and 'not_started' only. *)
Theorem toggle_twice_restores_completed {host : JSHost} (w : World)
  (taskId : string) (task : Task) :
  reliable w ->
  find (fun t => (id t =? taskId)%string) (snapshot w) = Some task ->
  exists t1 w1 t2 w2,
    taskService.toggleTaskComplete taskId w = (Ok t1, w1) /\
    taskService.toggleTaskComplete taskId w1 = (Ok t2, w2) /\
    find (fun t => (id t =? taskId)%string) (snapshot w1) = Some t1 /\
    find (fun t => (id t =? taskId)%string) (snapshot w2) = Some t2 /\
    completed t1 = negb (completed task) /\
    completed t2 = completed task /\
    (status t1 = Status.completed <-> completed t1 = true) /\
    (status t2 = Status.completed <-> completed t2 = true) /\
    status t1 = (if completed t1 then Status.completed else Status.not_started) /\
    status t2 = (if completed t2 then Status.completed else Status.not_started).
Proof.
  intros Hw Hfind.
  destruct (find_split _ _ _ _ Hfind) as (pre & post & Hs & Hpre & Hx).
  destruct (toggleTaskComplete_run taskId w pre post task Hw Hs Hpre Hx)
    as (w1 & Hrun1 & Hw1 & Hs1).
  set (t1 := with_updatedAt (spread task (toggled task))
               (toISOString (clock w (2 + tick w)))) in *.
  assert (Hx1 : (id t1 =? taskId)%string = true) by exact Hx.
  destruct (toggleTaskComplete_run taskId w1 pre post t1 Hw1 Hs1 Hpre Hx1)
    as (w2 & Hrun2 & Hw2 & Hs2).
  set (t2 := with_updatedAt (spread t1 (toggled t1))
               (toISOString (clock w1 (2 + tick w1)))) in *.
  exists t1, w1, t2, w2.
  split; [exact Hrun1|]. split; [exact Hrun2|].
  split; [rewrite Hs1; now apply find_first|].
  split; [rewrite Hs2; now apply find_first|].
  subst t1 t2. simpl. destruct (completed task); simpl; repeat split;
    intros; try reflexivity; try discriminate.
Qed.

Lemma toggle_twice_restores_completed_witness :
  let w := device (Some [sampleTask "t1" "A" false Status.in_progress]) None
                  false 1704067200000 in
  let task := sampleTask "t1" "A" false Status.in_progress in
  reliable w /\
  find (fun t => (id t =? "t1")%string) (snapshot w) = Some task /\
  exists t1 w1 t2 w2,
    taskService.toggleTaskComplete "t1" w = (Ok t1, w1) /\
    taskService.toggleTaskComplete "t1" w1 = (Ok t2, w2) /\
    completed t1 = true /\ completed t2 = false.
Proof.
  intros w task.
  assert (Hw : reliable w) by (intros n; reflexivity).
  assert (Hf : find (fun t => (id t =? "t1")%string) (snapshot w) = Some task)
    by reflexivity.
  split; [exact Hw|]. split; [exact Hf|].
  destruct (toggle_twice_restores_completed w "t1" task Hw Hf)
    as (t1 & w1 & t2 & w2 & H1 & H2 & _ & _ & Hc1 & Hc2 & _).
  exists t1, w1, t2, w2. repeat split; assumption.
Defined.



(** ** [deleteTask] *)

(** C6, as amended: when a stored task has the given id, [deleteTask]
    removes from the stored snapshot every task of that id, exactly one when
    no other stored task shares the id, and leaves all other tasks
    unchanged, in their original relative order. *)
Theorem deleteTask_removes_matching {host : JSHost} (w : World)
  (taskId : string) (x : Task) :
  reliable w -> In x (snapshot w) -> id x = taskId ->
  exists w',
    taskService.deleteTask taskId w = (Ok tt, w') /\
    snapshot w' = filter (fun t => negb (id t =? taskId)%string) (snapshot w) /\
    (forall t, In t (snapshot w') <-> In t (snapshot w) /\ id t <> taskId) /\
    (forall pre post,
       snapshot w = pre ++ x :: post ->
       (forall y, In y (pre ++ post) -> id y <> taskId) ->
       snapshot w' = pre ++ post).
Proof.
  intros Hw Hin Hid.
  destruct (deleteTask_run taskId w x Hw Hin Hid) as (w' & Hrun & _ & Hs & _).
  exists w'. split; [exact Hrun|]. split; [exact Hs|]. split.
  - intros t. rewrite Hs, filter_In, negb_true_iff, String.eqb_neq. reflexivity.
  - intros pre post Hsplit Hother. rewrite Hs, Hsplit, filter_app. simpl.
    rewrite Hid, String.eqb_refl. simpl. rewrite <- filter_app.
    apply filter_keeps_all. intros y Hy.
    apply negb_true_iff, String.eqb_neq. now apply Hother.
Qed.

Lemma deleteTask_removes_matching_witness :
  let t1 := sampleTask "task1" "Task 1" false Status.not_started in
  let t2 := sampleTask "task2" "Task 2" false Status.not_started in
  let w := device (Some [t1; t2]) None true 1704067200000 in
  reliable w /\ In t1 (snapshot w) /\
  exists w', taskService.deleteTask "task1" w = (Ok tt, w') /\ snapshot w' = [t2].
Proof.
  intros t1 t2 w.
  assert (Hw : reliable w) by (intros n; reflexivity).
  assert (Hin : In t1 (snapshot w)) by (left; reflexivity).
  split; [exact Hw|]. split; [exact Hin|].
  destruct (deleteTask_removes_matching w "task1" t1 Hw Hin eq_refl)
    as (w' & Hrun & Hs & _).
  exists w'. split; [exact Hrun|]. rewrite Hs. reflexivity.
Defined.

(** C6, as stated, fails when two stored tasks share the id: both are
    removed. *)
Lemma deleteTask_removes_duplicates :
  let a := sampleTask "t1" "A" false Status.not_started in
  let b := sampleTask "t1" "B" false Status.not_started in
  let w := device (Some [a; b]) None true 1704067200000 in
  let r := taskService.deleteTask "t1" w in
  In a (snapshot w) /\ fst r = Ok tt /\ snapshot (snd r) = [] /\
  S (List.length (snapshot (snd r))) <> List.length (snapshot w).
Proof. repeat split; [left; reflexivity|discriminate]. Qed.

(** ** [createTask] *)

Lemma parse_millis_toString (n : Z) : parse_millis (toString n) = Some n.
Proof.
  unfold parse_millis, toString. rewrite NilZero.isi.
  - now rewrite DecimalZ.of_to.
  - destruct n; simpl; try discriminate.
    intros [= H]. now apply DecimalPos.Unsigned.to_uint_nonnil in H.
  - destruct n; simpl; try discriminate.
    intros [= H]. now apply DecimalPos.Unsigned.to_uint_nonnil in H.
Qed.

Lemma toString_inj (n m : Z) : toString n = toString m -> n = m.
Proof.
  intros H. apply (f_equal parse_millis) in H.
  rewrite !parse_millis_toString in H. congruence.
Qed.

(** C7, as amended: on a reliable storage [createTask] fulfils with a task
    that is not completed and not started, whose [assignedDate] is its
    [createdAt], and whose id is the decimal rendering of the clock at the
    second reading of the call; the task is appended to the end of the
    stored snapshot.  The id is fresh when every stored id renders an
    earlier clock reading. *)
Theorem createTask_returns_new_task {host : JSHost} (w : World)
  (title0 description0 userId0 : string) (dueDate0 : option string) :
  reliable w ->
  exists t w',
    taskService.createTask title0 description0 userId0 dueDate0 w = (Ok t, w') /\
    completed t = false /\ status t = Status.not_started /\
    assignedDate t = Some (createdAt t) /\
    id t = toString (clock w (1 + tick w)) /\
    title t = title0 /\ description t = description0 /\
    userId t = userId0 /\ dueDate t = dueDate0 /\
    snapshot w' = snapshot w ++ [t] /\
    ((forall x, In x (snapshot w) ->
        exists n, id x = toString n /\ (n < clock w (1 + tick w))%Z) ->
     ~ In (id t) (map id (snapshot w))).
Proof.
  intros Hw.
  destruct (createTask_run title0 description0 userId0 dueDate0 w Hw)
    as (w' & Hrun & _ & Hs & _).
  exists (createdTask title0 description0 userId0 dueDate0 w), w'.
  split; [exact Hrun|]. repeat split; try exact Hs.
  intros Hold Hin. apply in_map_iff in Hin as (x & Hx & Hin).
  destruct (Hold x Hin) as (n & Hn & Hlt).
  simpl in Hx, Hlt. rewrite Hn in Hx. apply toString_inj in Hx. lia.
Qed.

Lemma createTask_returns_new_task_witness :
  let w := device (Some [sampleTask "1704067200000" "A" false Status.not_started])
                  None true 1704067260000 in
  reliable w /\
  exists t w',
    taskService.createTask "Test Task" "Test Description" "user1"
      (Some "2024-12-31"%string) w = (Ok t, w') /\
    completed t = false /\ status t = Status.not_started /\
    snapshot w' = snapshot w ++ [t].
Proof.
  intros w.
  assert (Hw : reliable w) by (intros n; reflexivity).
  split; [exact Hw|].
  destruct (createTask_returns_new_task w "Test Task" "Test Description" "user1"
              (Some "2024-12-31"%string) Hw)
    as (t & w' & Hrun & Hc & Hst & _ & _ & _ & _ & _ & _ & Hs & _).
  exists t, w'. repeat split; assumption.
Defined.

(** C7, as stated, fails on freshness: the id is the clock reading, and a
    stored task may carry that reading already. *)
Lemma createTask_id_not_fresh :
  let w := device (Some [sampleTask "1704067200001" "A" false Status.not_started])
                  None true 1704067200000 in
  let r := taskService.createTask "B" "Description" "user1" None w in
  exists t,
    fst r = Ok t /\ id t = "1704067200001"%string /\
    In (id t) (map id (snapshot w)) /\
    map id (snapshot (snd r)) = ["1704067200001"; "1704067200001"]%string.
Proof.
  eexists. split; [reflexivity|]. split; [reflexivity|].
  split; [left; reflexivity|reflexivity].
Qed.

(** ** Mutations while offline *)

(** C8, as amended: when the connectivity probe of the call answers false
    and AsyncStorage accepts the calls of the mutation, [createTask], and
    [updateTask] and [deleteTask] on an id that finds its task, fulfil,
    store the changed collection (the new task appended, the found task
    replaced in place by the task handed back, the tasks of that id
    removed) and append exactly one action to the offline action log:
    CREATE and UPDATE carrying the full task the call hands back, DELETE
    carrying the id.  The probe is the fifth interaction of [createTask],
    the fourth of [updateTask] and the third of [deleteTask]. *)
Theorem offline_mutation_queues_one_action {host : JSHost} (w : World) :
  reliable w ->
  (forall title description userId dueDate,
     connected w (4 + tick w) = false ->
     exists t w' a,
       taskService.createTask title description userId dueDate w = (Ok t, w') /\
       snapshot w' = snapshot w ++ [t] /\
       pending w' = pending w ++ [a] /\ Action.body a = CREATE t) /\
  (forall taskId updates task,
     find (fun t => (id t =? taskId)%string) (snapshot w) = Some task ->
     connected w (3 + tick w) = false ->
     exists t w' a pre post,
       taskService.updateTask taskId updates w = (Ok t, w') /\
       snapshot w = pre ++ task :: post /\
       snapshot w' = pre ++ t :: post /\
       pending w' = pending w ++ [a] /\ Action.body a = UPDATE t) /\
  (forall taskId task,
     In task (snapshot w) -> id task = taskId ->
     connected w (2 + tick w) = false ->
     exists w' a,
       taskService.deleteTask taskId w = (Ok tt, w') /\
       snapshot w'
       = filter (fun t => negb (id t =? taskId)%string) (snapshot w) /\
       pending w' = pending w ++ [a] /\ Action.body a = DELETE taskId).
Proof.
  intros Hw. repeat split.
  - intros title0 description0 userId0 dueDate0 Hoff.
    destruct (createTask_run title0 description0 userId0 dueDate0 w Hw)
      as (w' & Hrun & _ & Hs & [(a & Ha & Hp)|[Hon _]]); [|congruence].
    now exists (createdTask title0 description0 userId0 dueDate0 w), w', a.
  - intros taskId updates task Hfind Hoff.
    destruct (find_split _ _ _ _ Hfind) as (pre & post & Hs & Hpre & Hx).
    destruct (updateTask_run taskId updates w pre post task Hw Hs Hpre Hx)
      as (w' & Hrun & _ & Hs' & [(a & Ha & Hp)|[Hon _]]); [|congruence].
    exists (with_updatedAt (spread task updates)
              (toISOString (clock w (1 + tick w)))), w', a, pre, post.
    auto 6.
  - intros taskId task Hin Hid Hoff.
    destruct (deleteTask_run taskId w task Hw Hin Hid)
      as (w' & Hrun & _ & Hs & [(a & Ha & Hp)|[Hon _]]); [|congruence].
    now exists w', a.
Qed.

Lemma offline_mutation_queues_one_action_witness :
  let w := device None None false 1704067200000 in
  reliable w /\ connected w (4 + tick w) = false /\
  exists t w' a,
    taskService.createTask "Test Task" "Description" "user1" None w = (Ok t, w') /\
    snapshot w' = snapshot w ++ [t] /\
    pending w' = pending w ++ [a] /\ Action.body a = CREATE t.
Proof.
  intros w.
  assert (Hw : reliable w) by (intros n; reflexivity).
  split; [exact Hw|]. split; [reflexivity|].
  apply (proj1 (offline_mutation_queues_one_action w Hw)). reflexivity.
Defined.

(** C8, as stated, fails when AsyncStorage rejects a call on the log, the
    probe answering false.  A rejected write of the log, the eighth
    interaction of [createTask], is thrown to the caller after the task
    has been stored, and no action is appended.  A rejected read of the
    log, the seventh interaction, lets the call fulfil with the log
    replaced by the new action alone. *)
Lemma offline_createTask_fails_on_rejected_log_call :
  let a0 := Action.mk "a0" (DELETE "t0") "2024-01-01T00:00:00.000Z" in
  let offline rejected :=
    mkWorld (mkTaskState [] false None) None (Some [a0]) []
      (fun n => (n =? rejected)%nat) (fun _ => Some false)
      (fun n => (1704067200000 + Z.of_nat n)%Z) in
  let r := taskService.createTask "B" "Description" "user1" None (offline 7%nat) in
  let r' := taskService.createTask "B" "Description" "user1" None (offline 6%nat) in
  connected (offline 7%nat) 4 = false /\
  fst r = Throw Rejected /\ map title (snapshot (snd r)) = ["B"%string] /\
  pending (snd r) = [a0] /\
  (exists t a, fst r' = Ok t /\ pending (snd r') = [a] /\
               Action.body a = CREATE t /\ pending (snd r') <> [a0; a]).
Proof.
  repeat split.
  eexists _, _. repeat split. discriminate.
Qed.

(** ** Replay of the offline action log *)

Lemma replay_app (tasks : list Task) (log1 log2 : list OfflineAction) :
  syncService.replay tasks (log1 ++ log2)
  = syncService.replay (syncService.replay tasks log1) log2.
Proof.
  revert tasks. induction log1 as [|a log1 IH]; intros tasks; simpl; auto.
Qed.

Lemma replay_last (tasks : list Task) (log : list OfflineAction)
  (a : OfflineAction) :
  syncService.replay tasks (log ++ [a])
  = syncService.applyAction (syncService.replay tasks log) a.
Proof. now rewrite replay_app. Qed.

Lemma applyAction_update_hit (pre post : list Task) (x t : Task)
  (a : OfflineAction) :
  Action.body a = UPDATE t ->
  (forall y, In y pre -> id y <> id t) -> id x = id t ->
  syncService.applyAction (pre ++ x :: post) a = pre ++ t :: post.
Proof.
  intros Ha Hpre Hx. unfold syncService.applyAction. rewrite Ha.
  rewrite (findIndex_first _ (fun u => (id u =? id t)%string) pre post x).
  - replace (Z.of_nat (List.length pre) =? -1)%Z with false
      by (symmetry; apply Z.eqb_neq; lia).
    simpl. now rewrite Nat2Z.id, assign_middle.
  - intros y Hy. apply String.eqb_neq. now apply Hpre.
  - now apply String.eqb_eq.
Qed.

Lemma applyAction_update_miss (cur : list Task) (t : Task) (a : OfflineAction) :
  Action.body a = UPDATE t ->
  (forall y, In y cur -> id y <> id t) ->
  syncService.applyAction cur a = cur.
Proof.
  intros Ha Hnone. unfold syncService.applyAction. rewrite Ha.
  rewrite (proj2 (findIndex_absent _ (fun u => (id u =? id t)%string) cur)).
  - reflexivity.
  - intros y Hy. apply String.eqb_neq. now apply Hnone.
Qed.

(** What [processOfflineActions] does, whatever the storage answers: it
    reads the log (an unreadable log counts as empty), replays it, asks for
    the removal of the log and fulfils with the replayed collection. *)
Lemma processOfflineActions_run (tasks : list Task) (w : World) :
  syncService.processOfflineActions tasks w
  = (Ok (syncService.replay tasks
           (if rejects w (tick w) then [] else pending w)),
     emit (RemoveItem OFFLINE_ACTIONS)
       (if rejects w (1 + tick w)
        then emit (GetItem OFFLINE_ACTIONS) w
        else set_actionsItem None (emit (GetItem OFFLINE_ACTIONS) w))).
Proof.
  cbv [syncService.processOfflineActions syncService.getOfflineActions
       syncService.clearOfflineActions AsyncStorage_getItem_OFFLINE_ACTIONS
       AsyncStorage_removeItem_OFFLINE_ACTIONS tryCatch bind ret].
  destruct (rejects w (tick w)); cbv beta iota; rewrite tick_emit;
    change (rejects (emit (GetItem OFFLINE_ACTIONS) w)) with (rejects w);
    change (1 + tick w) with (S (tick w));
    destruct (rejects w (S (tick w))); reflexivity.
Qed.


(** C2: [processOfflineActions] folds the persisted log into the given
    snapshot in append order.  CREATE appends its task at the end, whether
    or not the id is already there; UPDATE replaces the first task of the
    payload's id and is dropped when there is none; DELETE removes the tasks
    of the payload's id and changes nothing when there is none.  Replaying
    CREATE(t1), UPDATE(t1 with title "X"), DELETE(t1) from the empty
    snapshot gives the empty collection. *)
Theorem replay_folds_in_append_order :
  (forall tasks w,
     rejects w (tick w) = false ->
     fst (syncService.processOfflineActions tasks w)
     = Ok (syncService.replay tasks (pending w))) /\
  (forall tasks log1 log2,
     syncService.replay tasks (log1 ++ log2)
     = syncService.replay (syncService.replay tasks log1) log2) /\
  (forall tasks log a t,
     Action.body a = CREATE t ->
     syncService.replay tasks (log ++ [a]) = syncService.replay tasks log ++ [t]) /\
  (forall tasks log a t pre x post,
     Action.body a = UPDATE t ->
     syncService.replay tasks log = pre ++ x :: post ->
     (forall y, In y pre -> id y <> id t) -> id x = id t ->
     syncService.replay tasks (log ++ [a]) = pre ++ t :: post) /\
  (forall tasks log a t,
     Action.body a = UPDATE t ->
     (forall y, In y (syncService.replay tasks log) -> id y <> id t) ->
     syncService.replay tasks (log ++ [a]) = syncService.replay tasks log) /\
  (forall tasks log a i,
     Action.body a = DELETE i ->
     (forall t, In t (syncService.replay tasks (log ++ [a])) <->
                In t (syncService.replay tasks log) /\ id t <> i) /\
     syncService.replay tasks (log ++ [a])
     = filter (fun t => negb (id t =? i)%string) (syncService.replay tasks log)) /\
  (forall tasks log a i,
     Action.body a = DELETE i ->
     (forall y, In y (syncService.replay tasks log) -> id y <> i) ->
     syncService.replay tasks (log ++ [a]) = syncService.replay tasks log) /\
  (forall t1 i1 i2 i3 ts1 ts2 ts3,
     syncService.replay [] (netZeroLog t1 i1 i2 i3 ts1 ts2 ts3) = []).
Proof.
  repeat apply conj.
  - intros tasks w Hread. rewrite processOfflineActions_run, Hread. reflexivity.
  - exact replay_app.
  - intros tasks log a t Ha. rewrite replay_last.
    unfold syncService.applyAction. now rewrite Ha.
  - intros tasks log a t pre x post Ha Hcur Hpre Hx.
    rewrite replay_last, Hcur. now apply applyAction_update_hit.
  - intros tasks log a t Ha Hnone. rewrite replay_last.
    now apply applyAction_update_miss with (t := t).
  - intros tasks log a i Ha.
    assert (Heq : syncService.replay tasks (log ++ [a])
                  = filter (fun t => negb (id t =? i)%string)
                      (syncService.replay tasks log)).
    { rewrite replay_last. unfold syncService.applyAction. now rewrite Ha. }
    split; [|exact Heq].
    intros t. rewrite Heq, filter_In, negb_true_iff, String.eqb_neq. reflexivity.
  - intros tasks log a i Ha Hnone. rewrite replay_last.
    unfold syncService.applyAction. rewrite Ha.
    apply filter_keeps_all. intros y Hy.
    apply negb_true_iff, String.eqb_neq. now apply Hnone.
  - intros t1 i1 i2 i3 ts1 ts2 ts3. simpl.
    unfold syncService.applyAction at 2. simpl.
    rewrite String.eqb_refl. simpl.
    unfold syncService.applyAction. simpl. now rewrite String.eqb_refl.
Qed.

Lemma replay_folds_in_append_order_witness :
  let t1 := sampleTask "t1" "A" false Status.not_started in
  let log := netZeroLog t1 "a1" "a2" "a3" "1" "2" "3" in
  let w := device None (Some log) true 1704067200000 in
  rejects w (tick w) = false /\
  fst (syncService.processOfflineActions [] w) = Ok [].
Proof.
  intros t1 log w. split; [reflexivity|].
  rewrite (proj1 replay_folds_in_append_order [] w eq_refl).
  reflexivity.
Defined.

(** C3, as amended: [processOfflineActions] fulfils in every environment,
    whatever the snapshot and the log were and whatever the replay did with
    them, and keeps no record of what it applied.  When AsyncStorage
    accepts the removal, which is the second interaction of the call, the
    persisted offline action log is gone afterwards.  When AsyncStorage
    rejects the removal, [clearOfflineActions] swallows the rejection and
    the persisted log is as it was. *)
Theorem processOfflineActions_clears_log (tasks : list Task) (w : World) :
  exists result w',
    syncService.processOfflineActions tasks w = (Ok result, w') /\
    tasksItem w' = tasksItem w /\
    trace w' = trace w ++ [GetItem OFFLINE_ACTIONS; RemoveItem OFFLINE_ACTIONS] /\
    (rejects w (1 + tick w) = false ->
     actionsItem w' = None /\ pending w' = []) /\
    (rejects w (1 + tick w) = true -> actionsItem w' = actionsItem w).
Proof.
  rewrite processOfflineActions_run.
  do 2 eexists. split; [reflexivity|].
  destruct (rejects w (1 + tick w)); simpl; rewrite <- app_assoc;
    repeat split; discriminate.
Qed.

Lemma processOfflineActions_clears_log_witness :
  let t1 := sampleTask "task1" "New Task" false Status.not_started in
  let w := device None (Some [Action.mk "action1" (CREATE t1) "2024-01-01"])
                  true 1704067200000 in
  rejects w (1 + tick w) = false /\
  exists w',
    syncService.processOfflineActions [] w = (Ok [t1], w') /\ pending w' = [].
Proof.
  intros t1 w. split; [reflexivity|].
  destruct (processOfflineActions_clears_log [] w)
    as (result & w' & Hrun & _ & _ & Hcleared & _).
  destruct (Hcleared eq_refl) as (_ & Hp).
  exists w'. split; [|exact Hp].
  rewrite Hrun. f_equal. f_equal.
  apply (f_equal fst) in Hrun. simpl in Hrun. now injection Hrun as <-.
Defined.

(** C3, as stated, fails when AsyncStorage rejects the removal: the call
    returns the replayed tasks and the log is still persisted. *)
Lemma processOfflineActions_keeps_log_when_removal_rejected :
  let t1 := sampleTask "task1" "New Task" false Status.not_started in
  let a := Action.mk "action1" (CREATE t1) "2024-01-01" in
  let w := mkWorld (mkTaskState [] false None) None (Some [a]) []
             (fun n => (n =? 1)%nat) (fun _ => Some true)
             (fun n => Z.of_nat n) in
  let r := syncService.processOfflineActions [] w in
  fst r = Ok [t1] /\ pending (snd r) = [a] /\ pending (snd r) <> [].
Proof. repeat split. discriminate. Qed.

(** ** Sorting *)

Section SortFacts.
Variable A : Type.
Variable comparefn : A -> A -> option Z.


Lemma insert_perm (x : A) (l : list A) :
  Permutation (insert comparefn x l) (x :: l).
Proof.
  induction l as [|y l IH]; simpl; [reflexivity|].
  destruct (sortCompare comparefn x y <=? 0)%Z; [reflexivity|].
  rewrite IH. apply perm_swap.
Qed.

Lemma Array_sort_perm (l : list A) : Permutation (Array_sort comparefn l) l.
Proof.
  induction l as [|x l IH]; simpl; [reflexivity|].
  rewrite insert_perm. now constructor.
Qed.

Lemma Array_sort_In (l : list A) (x : A) :
  In x (Array_sort comparefn l) <-> In x l.
Proof.
  split; apply Permutation_in;
    [apply Array_sort_perm|symmetry; apply Array_sort_perm].
Qed.

Lemma consistent_on_incl (l l' : list A) :
  (forall x, In x l' -> In x l) ->
  consistent_on comparefn l -> consistent_on comparefn l'.
Proof. intros Hincl [Htot Htrans]. split; eauto 10. Qed.

Lemma insert_sorted (x : A) (l : list A) :
  consistent_on comparefn (x :: l) ->
  StronglySorted (before comparefn) l ->
  StronglySorted (before comparefn) (insert comparefn x l).
Proof.
  intros Hc Hl. induction Hl as [|y l Hl IH Hy]; simpl.
  - repeat constructor.
  - destruct Hc as [Htot Htrans].
    destruct (Z.leb_spec (sortCompare comparefn x y) 0) as [Hxy|Hxy].
    + constructor; [now constructor|].
      constructor; [exact Hxy|].
      rewrite Forall_forall in Hy |- *. intros z Hz.
      apply (Htrans x y z); simpl; auto.
    + assert (Hyx : before comparefn y x).
      { destruct (Htot x y) as [H|H]; simpl; auto. unfold before in H. lia. }
      constructor.
      * apply IH. apply (consistent_on_incl (x :: y :: l)).
        -- intros z [->|Hz]; simpl; auto.
        -- now split.
      * rewrite Forall_forall in Hy |- *. intros z Hz.
        apply (Permutation_in _ (insert_perm x l)) in Hz as [<-|Hz]; auto.
Qed.

Lemma Array_sort_sorted (l : list A) :
  consistent_on comparefn l ->
  StronglySorted (before comparefn) (Array_sort comparefn l).
Proof.
  induction l as [|x l IH]; intros Hc; simpl; [constructor|].
  apply insert_sorted.
  - apply (consistent_on_incl (x :: l)); [|exact Hc].
    intros z [->|Hz]; simpl; auto. right. now apply Array_sort_In.
  - apply IH. apply (consistent_on_incl (x :: l)); [|exact Hc].
    intros z Hz. now right.
Qed.

(** A consistent comparator orders the elements: greater one way is less
    the other way, so any two elements compare one way or the other, and
    the comparison is transitive. *)
Lemma consistent_comparator_on (l : list A) :
  consistent_comparator comparefn l -> consistent_on comparefn l.
Proof.
  intros (_ & Hrefl & Hsym & Htr0 & Htrlt & Htrgt).
  assert (Hanti : forall a b, In a l -> In b l ->
            (sortCompare comparefn a b > 0)%Z ->
            (sortCompare comparefn b a < 0)%Z).
  { intros a b Ha Hb Hab.
    destruct (Z.lt_total (sortCompare comparefn b a) 0) as [H|[H|H]];
      [exact H| |].
    - apply (Hsym b a Hb Ha) in H. lia.
    - pose proof (Htrgt a b a Ha Hb Ha Hab ltac:(lia)) as Haa.
      rewrite (Hrefl a Ha) in Haa. lia. }
  split.
  - intros a b Ha Hb. unfold before.
    destruct (Z.le_gt_cases (sortCompare comparefn a b) 0) as [H|H]; [now left|].
    right. pose proof (Hanti a b Ha Hb ltac:(lia)). lia.
  - intros a b c Ha Hb Hc. unfold before. intros Hab Hbc.
    destruct (Z.le_gt_cases (sortCompare comparefn a c) 0) as [H|H]; [exact H|].
    pose proof (Hanti a c Ha Hc ltac:(lia)) as Hca.
    destruct (Z.lt_total (sortCompare comparefn a b) 0) as [Hlt|[Heq|Hgt]];
      [| |lia];
      (destruct (Z.lt_total (sortCompare comparefn b c) 0) as [Hlt'|[Heq'|Hgt']];
       [| |lia]).
    + pose proof (Htrlt a b c Ha Hb Hc Hlt Hlt'). lia.
    + pose proof (Htrlt c a b Hc Ha Hb Hca Hlt) as Hcb.
      apply (Hsym b c Hb Hc) in Heq'. lia.
    + pose proof (Htrlt b c a Hb Hc Ha Hlt' Hca) as Hba.
      apply (Hsym a b Ha Hb) in Heq. lia.
    + pose proof (Htr0 a b c Ha Hb Hc Heq Heq'). lia.
Qed.

(** The elements after an element of a sorted list *)
Lemma StronglySorted_after (R : A -> A -> Prop) (l1 l2 : list A) (a : A) :
  StronglySorted R (l1 ++ a :: l2) -> Forall (R a) l2.
Proof.
  induction l1 as [|y l1 IH]; simpl; intros H;
    apply StronglySorted_inv in H as [Hl Hall]; [exact Hall|now apply IH].
Qed.
End SortFacts.

(** The engine that sorts by insertion does what ECMAScript requires. *)
Lemma insertionEngine_conforming : conforming insertionEngine.
Proof.
  intros A comparefn l. split.
  - apply Array_sort_perm.
  - intros Hc. apply Array_sort_sorted. now apply consistent_comparator_on.
Qed.

(** ** [filterTasks] *)

Lemma deref_alloc_old (h : Heap) (a : list Task) (r : Ref) :
  (r < List.length h)%nat -> deref (snd (alloc a h)) r = deref h r.
Proof. intros Hr. unfold deref, alloc. simpl. now rewrite app_nth1. Qed.

Lemma deref_alloc_new (h : Heap) (a : list Task) :
  deref (snd (alloc a h)) (fst (alloc a h)) = a.
Proof.
  unfold deref, alloc. simpl. rewrite app_nth2 by lia.
  now rewrite Nat.sub_diag.
Qed.

Lemma deref_overwrite_same (h : Heap) (a : list Task) (r : Ref) :
  (r < List.length h)%nat -> deref (overwrite r a h) r = a.
Proof.
  unfold deref, overwrite. revert r.
  induction h as [|x h IH]; intros [|r] Hr; simpl in *; try lia; auto.
  apply IH. lia.
Qed.

Lemma deref_overwrite_other (h : Heap) (a : list Task) (r r0 : Ref) :
  r0 <> r -> deref (overwrite r a h) r0 = deref h r0.
Proof.
  unfold deref, overwrite. revert r r0.
  induction h as [|x h IH]; intros [|r] [|r0] Hne; simpl; auto; try congruence.
Qed.

Lemma filter_filter (f g : Task -> bool) (l : list Task) :
  filter g (filter f l) = filter (fun t => f t && g t) l.
Proof.
  induction l as [|x l IH]; simpl; [reflexivity|].
  destruct (f x); simpl; [destruct (g x)|]; now rewrite ?IH.
Qed.

Lemma Status_eqb_eq (a b : TaskStatus) : Status.eqb a b = true <-> a = b.
Proof. destruct a, b; simpl; split; congruence. Qed.

Section FilterTasks.
Context {host : JSHost} {engine : JSEngine}.



Lemma holds_copy_first (h0 : Heap) (content : list Task) :
  holds_copy h0 (alloc content h0) content.
Proof.
  split; [|split].
  - unfold alloc. simpl. rewrite length_app. simpl. lia.
  - apply deref_alloc_new.
  - intros r0 Hr0. now apply deref_alloc_old.
Qed.

Lemma holds_copy_next (h0 : Heap) (st : Ref * Heap) (old content : list Task) :
  holds_copy h0 st old -> holds_copy h0 (alloc content (snd st)) content.
Proof.
  intros (Hr & _ & Hframe). split; [|split].
  - unfold alloc. simpl. rewrite length_app. simpl. lia.
  - apply deref_alloc_new.
  - intros r0 Hr0. rewrite deref_alloc_old by lia. now apply Hframe.
Qed.

(** The array handed back is new, it holds what the sort of the engine
    leaves of the selected tasks, and no array of the heap the call started
    from has changed. *)
Lemma filterTasks_run (h : Heap) (state_tasks : Ref) (searchQuery : string)
  (sortBy : SortBy.t) (filterByStatus : option TaskStatus) :
  let r := useTaskStore.filterTasks state_tasks searchQuery sortBy
             filterByStatus h in
  (List.length h <= fst r)%nat /\
  deref (snd r) (fst r)
  = Array_prototype_sort (useTaskStore.comparefn sortBy)
      (selected searchQuery filterByStatus (deref h state_tasks)) /\
  (forall r0, (r0 < List.length h)%nat -> deref (snd r) r0 = deref h r0).
Proof.
  unfold useTaskStore.filterTasks, selected.
  set (snap := deref h state_tasks).
  set (searched := if truthy (trim searchQuery)
                   then filter (useTaskStore.matchesQuery
                                  (toLowerCase searchQuery)) snap
                   else snap).
  pose proof (holds_copy_first h snap) as I1.
  destruct (alloc snap h) as [f1 h1].
  match goal with |- context [if truthy (trim searchQuery) then ?a else ?b] =>
    assert (I2 : holds_copy h (if truthy (trim searchQuery) then a else b) searched);
    [|destruct (if truthy (trim searchQuery) then a else b) as [f2 h2]]
  end.
  { unfold searched. destruct (truthy (trim searchQuery)); [|exact I1].
    pose proof I1 as (_ & Hc1 & _). simpl in Hc1. rewrite Hc1.
    exact (holds_copy_next h (f1, h1) snap _ I1). }
  match goal with
  | |- context [match filterByStatus with Some s => @?a s | None => ?b end] =>
    assert (I3 : holds_copy h
              (match filterByStatus with Some s => a s | None => b end)
              (match filterByStatus with
               | Some s => filter (useTaskStore.hasStatus s) searched
               | None => searched
               end));
    [|destruct (match filterByStatus with Some s => a s | None => b end) as [f3 h3]]
  end.
  { destruct filterByStatus as [s|]; [|exact I2].
    pose proof I2 as (_ & Hc2 & _). simpl in Hc2. rewrite Hc2.
    exact (holds_copy_next h (f2, h2) searched _ I2). }
  destruct I3 as (Hr & Hc & Hframe). simpl in *. split; [lia|]. split.
  - rewrite deref_overwrite_same by lia. now rewrite Hc.
  - intros r0 Hr0. rewrite deref_overwrite_other by lia. now apply Hframe.
Qed.
End FilterTasks.

Section FilterTasksSorted.
Context {host : JSHost}.

(** The comparators of the two dates are consistent on tasks whose dates
    parse. *)
Lemma assignedDate_consistent (l : list Task) :
  dates_parse SortBy.assignedDate l ->
  consistent_comparator (useTaskStore.comparefn SortBy.assignedDate) l.
Proof.
  intros Hvalid.
  assert (Hc : forall a b, In a l -> In b l ->
            exists x y, useTaskStore.assignedTime a = Some x /\
                        useTaskStore.assignedTime b = Some y /\
                        useTaskStore.comparefn SortBy.assignedDate a b
                        = Some (x - y)%Z).
  { intros a b Ha Hb. pose proof (Hvalid a Ha). pose proof (Hvalid b Hb).
    unfold useTaskStore.comparefn.
    destruct (useTaskStore.assignedTime a) as [x|]; [|congruence].
    destruct (useTaskStore.assignedTime b) as [y|]; [|congruence].
    now exists x, y. }
  unfold consistent_comparator, sortCompare. repeat apply conj.
  - intros a b Ha Hb. destruct (Hc a b Ha Hb) as (x & y & _ & _ & ->).
    discriminate.
  - intros a Ha. destruct (Hc a a Ha Ha) as (x & y & Hx & Hy & ->).
    assert (x = y) by congruence. lia.
  - intros a b Ha Hb.
    destruct (Hc a b Ha Hb) as (x & y & Hx & Hy & ->).
    destruct (Hc b a Hb Ha) as (y' & x' & Hy' & Hx' & ->).
    assert (x' = x /\ y' = y) as [-> ->] by (split; congruence). lia.
  - intros a b c Ha Hb Hc'.
    destruct (Hc a b Ha Hb) as (x & y & Hx & Hy & ->).
    destruct (Hc b c Hb Hc') as (y' & z & Hy' & Hz & ->).
    destruct (Hc a c Ha Hc') as (x' & z' & Hx' & Hz' & ->).
    assert (x' = x /\ y' = y /\ z' = z) as (-> & -> & ->)
      by (repeat split; congruence).
    lia.
  - intros a b c Ha Hb Hc'.
    destruct (Hc a b Ha Hb) as (x & y & Hx & Hy & ->).
    destruct (Hc b c Hb Hc') as (y' & z & Hy' & Hz & ->).
    destruct (Hc a c Ha Hc') as (x' & z' & Hx' & Hz' & ->).
    assert (x' = x /\ y' = y /\ z' = z) as (-> & -> & ->)
      by (repeat split; congruence).
    lia.
  - intros a b c Ha Hb Hc'.
    destruct (Hc a b Ha Hb) as (x & y & Hx & Hy & ->).
    destruct (Hc b c Hb Hc') as (y' & z & Hy' & Hz & ->).
    destruct (Hc a c Ha Hc') as (x' & z' & Hx' & Hz' & ->).
    assert (x' = x /\ y' = y /\ z' = z) as (-> & -> & ->)
      by (repeat split; congruence).
    lia.
Qed.

Lemma dueDate_consistent (l : list Task) :
  dates_parse SortBy.dueDate l ->
  consistent_comparator (useTaskStore.comparefn SortBy.dueDate) l.
Proof.
  intros Hvalid.
  assert (Hd : forall t, In t l ->
            truthy_opt (dueDate t) = false \/
            (truthy_opt (dueDate t) = true /\
             exists x, useTaskStore.dueTime t = Some x)).
  { intros t Ht. pose proof (Hvalid t Ht) as V.
    destruct (truthy_opt (dueDate t)); [right|now left].
    split; [reflexivity|].
    destruct (useTaskStore.dueTime t) as [x|]; [now exists x|].
    now destruct (V eq_refl). }
  unfold consistent_comparator, sortCompare, useTaskStore.comparefn.
  repeat apply conj.
  - intros a b Ha Hb.
    destruct (Hd a Ha) as [->|(-> & x & ->)], (Hd b Hb) as [->|(-> & y & ->)];
      simpl; discriminate.
  - intros a Ha.
    destruct (Hd a Ha) as [->|(-> & x & ->)]; simpl; lia.
  - intros a b Ha Hb.
    destruct (Hd a Ha) as [->|(-> & x & ->)], (Hd b Hb) as [->|(-> & y & ->)];
      simpl; lia.
  - intros a b c Ha Hb Hc.
    destruct (Hd a Ha) as [->|(-> & x & ->)], (Hd b Hb) as [->|(-> & y & ->)],
      (Hd c Hc) as [->|(-> & z & ->)]; simpl; lia.
  - intros a b c Ha Hb Hc.
    destruct (Hd a Ha) as [->|(-> & x & ->)], (Hd b Hb) as [->|(-> & y & ->)],
      (Hd c Hc) as [->|(-> & z & ->)]; simpl; lia.
  - intros a b c Ha Hb Hc.
    destruct (Hd a Ha) as [->|(-> & x & ->)], (Hd b Hb) as [->|(-> & y & ->)],
      (Hd c Hc) as [->|(-> & z & ->)]; simpl; lia.
Qed.

Lemma dates_parse_consistent (sortBy : SortBy.t) (l : list Task) :
  sortBy <> SortBy.title -> dates_parse sortBy l ->
  consistent_comparator (useTaskStore.comparefn sortBy) l.
Proof.
  destruct sortBy; intros Hkey Hvalid.
  - now apply assignedDate_consistent.
  - now apply dueDate_consistent.
  - now destruct Hkey.
Qed.

(** The comparator of ['title'] is consistent on tasks when
    [localeCompare] is on their titles. *)
Lemma title_consistent (l : list Task) :
  consistent_comparator (fun a b => Some (localeCompare a b)) (map title l) ->
  consistent_comparator (useTaskStore.comparefn SortBy.title) l.
Proof.
  intros (Hnan & Hrefl & Hsym & Htr0 & Htrlt & Htrgt).
  unfold consistent_comparator, sortCompare, useTaskStore.comparefn in *.
  repeat apply conj.
  - intros a b _ _. discriminate.
  - intros a Ha. apply Hrefl. now apply in_map.
  - intros a b Ha Hb. apply Hsym; now apply in_map.
  - intros a b c Ha Hb Hc. apply Htr0; now apply in_map.
  - intros a b c Ha Hb Hc. apply Htrlt; now apply in_map.
  - intros a b c Ha Hb Hc. apply Htrgt; now apply in_map.
Qed.

(** A task without a due date may stand before another task only if that
    one has no due date either. *)
Lemma undated_after (a b : Task) :
  truthy_opt (dueDate a) = false ->
  before (useTaskStore.comparefn SortBy.dueDate) a b ->
  truthy_opt (dueDate b) = false.
Proof.
  unfold before, sortCompare, useTaskStore.comparefn. intros ->.
  destruct (truthy_opt (dueDate b)); simpl; [lia|reflexivity].
Qed.
End FilterTasksSorted.




(** Sorted by due date on the engine that sorts by insertion, the two tasks
    without a due date come last; a blank query selects every task. *)
Example filterTasks_by_dueDate :
  let r := useTaskStore.filterTasks 0 "  " SortBy.dueDate None sampleHeap in
  map id (deref (snd r) (fst r)) = ["3"; "2"; "1"; "4"]%string /\
  deref (snd r) 0 = deref sampleHeap 0.
Proof. split; reflexivity. Qed.

(** * More of the services *)

(** ** What the storage functions do in every environment *)

Lemma getTasks_exact (w : World) :
  storage.getTasks w
  = (Ok (if rejects w (tick w) then [] else snapshot w),
     emit (GetItem TASKS) w).
Proof.
  cbv [storage.getTasks AsyncStorage_getItem_TASKS tryCatch bind ret].
  destruct (rejects w (tick w)); reflexivity.
Qed.

Lemma saveTasks_exact (l : list Task) (w : World) :
  storage.saveTasks l w
  = if rejects w (tick w)
    then (Throw Rejected, emit (SetItem TASKS) w)
    else (Ok tt, emit (SetItem TASKS) (set_tasksItem (Some l) w)).
Proof.
  cbv [storage.saveTasks AsyncStorage_setItem_TASKS tryCatch throw].
  destruct (rejects w (tick w)); reflexivity.
Qed.

Lemma getOfflineActions_exact (w : World) :
  syncService.getOfflineActions w
  = (Ok (if rejects w (tick w) then [] else pending w),
     emit (GetItem OFFLINE_ACTIONS) w).
Proof.
  cbv [syncService.getOfflineActions AsyncStorage_getItem_OFFLINE_ACTIONS
       tryCatch bind ret].
  destruct (rejects w (tick w)); reflexivity.
Qed.

Lemma saveOfflineAction_exact (action : OfflineAction) (w : World) :
  syncService.saveOfflineAction action w
  = if rejects w (1 + tick w)
    then (Throw Rejected,
          emit (SetItem OFFLINE_ACTIONS) (emit (GetItem OFFLINE_ACTIONS) w))
    else (Ok tt,
          emit (SetItem OFFLINE_ACTIONS)
            (set_actionsItem
               (Some ((if rejects w (tick w) then [] else pending w) ++ [action]))
               (emit (GetItem OFFLINE_ACTIONS) w))).
Proof.
  unfold syncService.saveOfflineAction, tryCatch, bind.
  rewrite getOfflineActions_exact.
  unfold AsyncStorage_setItem_OFFLINE_ACTIONS, throw. rewrite tick_emit.
  change (rejects (emit (GetItem OFFLINE_ACTIONS) w)) with (rejects w).
  change (1 + tick w) with (S (tick w)).
  destruct (rejects w (S (tick w))); reflexivity.
Qed.

Lemma clearOfflineActions_exact (w : World) :
  syncService.clearOfflineActions w
  = (Ok tt,
     emit (RemoveItem OFFLINE_ACTIONS)
       (if rejects w (tick w) then w else set_actionsItem None w)).
Proof.
  cbv [syncService.clearOfflineActions AsyncStorage_removeItem_OFFLINE_ACTIONS
       tryCatch ret].
  destruct (rejects w (tick w)); reflexivity.
Qed.

Lemma removeOfflineAction_exact (actionId : string) (w : World) :
  syncService.removeOfflineAction actionId w
  = (Ok tt,
     emit (SetItem OFFLINE_ACTIONS)
       (if rejects w (1 + tick w)
        then emit (GetItem OFFLINE_ACTIONS) w
        else set_actionsItem
               (Some (filter (fun a => negb (Action.id a =? actionId)%string)
                        (if rejects w (tick w) then [] else pending w)))
               (emit (GetItem OFFLINE_ACTIONS) w))).
Proof.
  unfold syncService.removeOfflineAction, tryCatch, bind.
  rewrite getOfflineActions_exact.
  unfold AsyncStorage_setItem_OFFLINE_ACTIONS, ret. rewrite tick_emit.
  change (rejects (emit (GetItem OFFLINE_ACTIONS) w)) with (rejects w).
  change (1 + tick w) with (S (tick w)).
  destruct (rejects w (S (tick w))); reflexivity.
Qed.

Lemma checkConnectivity_exact (w : World) :
  syncService.checkConnectivity w
  = (Ok (connected w (tick w)), emit NetInfoFetch w).
Proof. reflexivity. Qed.

Lemma syncTasks_exact (l : list Task) (w : World) :
  syncService.syncTasks l w
  = if connected w (tick w)
    then if rejects w (1 + tick w)
         then (Throw Rejected, emit (SetItem TASKS) (emit NetInfoFetch w))
         else (Ok l, emit (SetItem TASKS)
                       (set_tasksItem (Some l) (emit NetInfoFetch w)))
    else (Throw NoInternetConnection, emit NetInfoFetch w).
Proof.
  unfold syncService.syncTasks, bind at 1. rewrite checkConnectivity_exact.
  destruct (connected w (tick w)); simpl; [|reflexivity].
  unfold bind. rewrite saveTasks_exact, tick_emit.
  change (rejects (emit NetInfoFetch w)) with (rejects w).
  destruct (rejects w (S (tick w))); reflexivity.
Qed.

Lemma getTaskById_exact {host : JSHost} (taskId : string) (w : World) :
  taskService.getTaskById taskId w
  = (Ok (if rejects w (tick w) then None
         else find (fun task => (id task =? taskId)%string) (snapshot w)),
     emit (GetItem TASKS) w).
Proof.
  unfold taskService.getTaskById, tryCatch, bind.
  rewrite getTasks_exact. unfold ret.
  now destruct (rejects w (tick w)).
Qed.

(** X1: the read functions of [taskService] fulfil in every environment and
    write nothing.  When the storage rejects the read they answer the empty
    array, or [null] for [getTaskById]; otherwise [getAllTasks] answers the
    stored tasks, [getTasksByUserId] those of the user, in stored order, and
    [getTaskById] the first stored task of that id. *)
Theorem taskService_reads_never_reject {host : JSHost} (w : World)
  (uid taskId : string) :
  taskService.getAllTasks w
  = (Ok (if rejects w (tick w) then [] else snapshot w),
     emit (GetItem TASKS) w) /\
  taskService.getTasksByUserId uid w
  = (Ok (if rejects w (tick w) then []
         else filter (fun task => (userId task =? uid)%string) (snapshot w)),
     emit (GetItem TASKS) w) /\
  taskService.getTaskById taskId w
  = (Ok (if rejects w (tick w) then None
         else find (fun task => (id task =? taskId)%string) (snapshot w)),
     emit (GetItem TASKS) w).
Proof.
  unfold taskService.getAllTasks, taskService.getTasksByUserId,
    taskService.getTaskById, tryCatch, bind.
  rewrite getTasks_exact. unfold ret.
  destruct (rejects w (tick w)); repeat split.
Qed.

(** X2: what [saveTasks] stored is what [getTasks] reads back, when the
    storage accepts the read; a rejected [saveTasks] rejects in turn and
    leaves the stored tasks as they were. *)
Theorem saveTasks_getTasks_round_trip (l : list Task) (w : World) :
  (forall w1,
     storage.saveTasks l w = (Ok tt, w1) ->
     rejects w1 (tick w1) = false ->
     fst (storage.getTasks w1) = Ok l) /\
  (forall e w1,
     storage.saveTasks l w = (Throw e, w1) ->
     e = Rejected /\ tasksItem w1 = tasksItem w /\ actionsItem w1 = actionsItem w).
Proof.
  rewrite saveTasks_exact. split.
  - intros w1 Hsave Hread. rewrite getTasks_exact, Hread.
    destruct (rejects w (tick w)); [discriminate|].
    now injection Hsave as <-.
  - intros e w1 Hsave.
    destruct (rejects w (tick w)); [|discriminate].
    now injection Hsave as <- <-.
Qed.

Lemma saveTasks_getTasks_round_trip_witness :
  let l := [sampleTask "task1" "Test" false Status.not_started] in
  let w := device None None true 0 in
  exists w1,
    storage.saveTasks l w = (Ok tt, w1) /\ rejects w1 (tick w1) = false /\
    fst (storage.getTasks w1) = Ok l.
Proof.
  intros l w. eexists. split; [reflexivity|]. split; [reflexivity|].
  apply (proj1 (saveTasks_getTasks_round_trip l w) _ eq_refl eq_refl).
Defined.

(** X3: [saveOfflineAction] puts the action at the end of the persisted
    log, after the actions already there and without touching the stored
    tasks, and [getOfflineActions] reads the log back in that order. *)
Theorem saveOfflineAction_appends_in_order (action : OfflineAction) (w : World) :
  rejects w (tick w) = false -> rejects w (1 + tick w) = false ->
  exists w1,
    syncService.saveOfflineAction action w = (Ok tt, w1) /\
    pending w1 = pending w ++ [action] /\
    tasksItem w1 = tasksItem w /\
    (rejects w1 (tick w1) = false ->
     fst (syncService.getOfflineActions w1) = Ok (pending w ++ [action])).
Proof.
  intros Hread Hwrite. rewrite saveOfflineAction_exact, Hread, Hwrite.
  eexists. split; [reflexivity|]. repeat split.
  intros Hback. rewrite getOfflineActions_exact, Hback. reflexivity.
Qed.

Lemma saveOfflineAction_appends_in_order_witness :
  let a1 := Action.mk "action1" (DELETE "task1") "2024-01-01" in
  let a2 := Action.mk "action2" (DELETE "task2") "2024-01-02" in
  let w := device None (Some [a1]) false 0 in
  rejects w (tick w) = false /\ rejects w (1 + tick w) = false /\
  exists w1,
    syncService.saveOfflineAction a2 w = (Ok tt, w1) /\ pending w1 = [a1; a2].
Proof.
  intros a1 a2 w. split; [reflexivity|]. split; [reflexivity|].
  destruct (saveOfflineAction_appends_in_order a2 w eq_refl eq_refl)
    as (w1 & Hrun & Hp & _).
  exists w1. split; [exact Hrun|exact Hp].
Defined.

(** X4: when the storage rejects the read inside [saveOfflineAction] and
    accepts its write, the call fulfils and the persisted log holds the new
    action alone: the actions that were pending are overwritten. *)
Theorem saveOfflineAction_overwrites_unreadable_log (action : OfflineAction)
  (w : World) :
  rejects w (tick w) = true -> rejects w (1 + tick w) = false ->
  exists w1,
    syncService.saveOfflineAction action w = (Ok tt, w1) /\
    pending w1 = [action].
Proof.
  intros Hread Hwrite. rewrite saveOfflineAction_exact, Hread, Hwrite.
  eexists. split; reflexivity.
Qed.

Lemma saveOfflineAction_overwrites_unreadable_log_witness :
  let a1 := Action.mk "action1" (DELETE "task1") "2024-01-01" in
  let a2 := Action.mk "action2" (DELETE "task2") "2024-01-02" in
  let w := mkWorld (mkTaskState [] false None) None (Some [a1]) []
             (fun n => (n =? 0)%nat) (fun _ => Some false) (fun _ => 0%Z) in
  rejects w (tick w) = true /\ rejects w (1 + tick w) = false /\
  exists w1,
    syncService.saveOfflineAction a2 w = (Ok tt, w1) /\ pending w1 = [a2].
Proof.
  intros a1 a2 w. split; [reflexivity|]. split; [reflexivity|].
  exact (saveOfflineAction_overwrites_unreadable_log a2 w eq_refl eq_refl).
Defined.

(** X5: [removeOfflineAction] never rejects.  When the storage accepts its
    read and its write, the persisted log is the old one without the actions
    of the given id, the others in their order; the stored tasks are not
    touched. *)
Theorem removeOfflineAction_removes_by_id (actionId : string) (w : World) :
  (exists w1, syncService.removeOfflineAction actionId w = (Ok tt, w1) /\
              tasksItem w1 = tasksItem w) /\
  (rejects w (tick w) = false -> rejects w (1 + tick w) = false ->
   let w1 := snd (syncService.removeOfflineAction actionId w) in
   pending w1
   = filter (fun a => negb (Action.id a =? actionId)%string) (pending w) /\
   (forall a, In a (pending w1) <-> In a (pending w) /\ Action.id a <> actionId) /\
   ((forall a, In a (pending w) -> Action.id a <> actionId) ->
    pending w1 = pending w)).
Proof.
  rewrite removeOfflineAction_exact. split.
  - eexists. split; [reflexivity|]. now destruct (rejects w (1 + tick w)).
  - intros Hread Hwrite. rewrite Hread, Hwrite. cbn [snd].
    assert (Hp : pending
                   (emit (SetItem OFFLINE_ACTIONS)
                      (set_actionsItem
                         (Some (filter (fun a => negb (Action.id a =? actionId)%string)
                                  (pending w)))
                         (emit (GetItem OFFLINE_ACTIONS) w)))
                 = filter (fun a => negb (Action.id a =? actionId)%string)
                     (pending w)) by reflexivity.
    rewrite Hp. split; [reflexivity|]. split.
    + intros a. rewrite filter_In, negb_true_iff, String.eqb_neq. reflexivity.
    + intros Hnone. apply filter_keeps_all. intros a Ha.
      apply negb_true_iff, String.eqb_neq. now apply Hnone.
Qed.

Lemma removeOfflineAction_removes_by_id_witness :
  let a1 := Action.mk "action1" (DELETE "task1") "2024-01-01" in
  let a2 := Action.mk "action2" (DELETE "task2") "2024-01-02" in
  let w := device None (Some [a1; a2]) false 0 in
  rejects w (tick w) = false /\ rejects w (1 + tick w) = false /\
  pending (snd (syncService.removeOfflineAction "action1" w)) = [a2].
Proof.
  intros a1 a2 w. split; [reflexivity|]. split; [reflexivity|].
  rewrite (proj1 (proj2 (removeOfflineAction_removes_by_id "action1" w)
                   eq_refl eq_refl)).
  reflexivity.
Defined.

(** X6: [syncTasks] refuses to run offline: it rejects with 'No internet
    connection' after the probe alone, without a call to the storage.
    Online, on a storage that accepts the write, it stores the tasks it was
    given, hands the same tasks back and leaves the action log alone. *)
Theorem syncTasks_probes_before_storing (l : list Task) (w : World) :
  (connected w (tick w) = false ->
   syncService.syncTasks l w
   = (Throw NoInternetConnection, emit NetInfoFetch w)) /\
  (connected w (tick w) = true -> rejects w (1 + tick w) = false ->
   exists w1,
     syncService.syncTasks l w = (Ok l, w1) /\
     snapshot w1 = l /\ actionsItem w1 = actionsItem w).
Proof.
  rewrite syncTasks_exact. split.
  - now intros ->.
  - intros -> ->. eexists. repeat split.
Qed.

Lemma syncTasks_probes_before_storing_witness :
  let l := [sampleTask "task1" "Test" false Status.not_started] in
  (let w := device None None false 0 in
   connected w (tick w) = false /\
   fst (syncService.syncTasks l w) = Throw NoInternetConnection) /\
  (let w := device None None true 0 in
   connected w (tick w) = true /\ rejects w (1 + tick w) = false /\
   exists w1, syncService.syncTasks l w = (Ok l, w1) /\ snapshot w1 = l).
Proof.
  intros l. split.
  - intros w. split; [reflexivity|].
    now rewrite (proj1 (syncTasks_probes_before_storing l w) eq_refl).
  - intros w. split; [reflexivity|]. split; [reflexivity|].
    destruct (proj2 (syncTasks_probes_before_storing l w) eq_refl eq_refl)
      as (w1 & Hrun & Hs & _).
    now exists w1.
Defined.

(** X7: [processOfflineActions] consumes the log.  When the storage accepts
    the removal, a second call on the collection the first one handed back
    hands that collection back unchanged, whatever the storage answers
    then. *)
Theorem processOfflineActions_twice (tasks : list Task) (w : World) :
  rejects w (1 + tick w) = false ->
  exists result w1 w2,
    syncService.processOfflineActions tasks w = (Ok result, w1) /\
    syncService.processOfflineActions result w1 = (Ok result, w2).
Proof.
  intros Hremove. rewrite processOfflineActions_run, Hremove.
  set (result := syncService.replay tasks
                   (if rejects w (tick w) then [] else pending w)).
  set (w1 := emit (RemoveItem OFFLINE_ACTIONS)
               (set_actionsItem None (emit (GetItem OFFLINE_ACTIONS) w))).
  exists result, w1, (snd (syncService.processOfflineActions result w1)).
  split; [reflexivity|].
  rewrite processOfflineActions_run. cbn [snd].
  destruct (rejects w1 (tick w1)); reflexivity.
Qed.

Lemma processOfflineActions_twice_witness :
  let t1 := sampleTask "task1" "New Task" false Status.not_started in
  let w := device None (Some [Action.mk "action1" (CREATE t1) "2024-01-01"])
                  true 0 in
  rejects w (1 + tick w) = false /\
  exists w1 w2,
    syncService.processOfflineActions [] w = (Ok [t1], w1) /\
    syncService.processOfflineActions [t1] w1 = (Ok [t1], w2).
Proof.
  intros t1 w. split; [reflexivity|].
  destruct (processOfflineActions_twice [] w eq_refl)
    as (result & w1 & w2 & H1 & H2).
  assert (Hr : result = [t1]).
  { apply (f_equal fst) in H1. simpl in H1. now injection H1 as <-. }
  rewrite Hr in H1, H2. now exists w1, w2.
Defined.

(** ** More on the replay *)

Lemma filter_assign_hidden (p : Task -> bool) (pre post : list Task) (x v : Task) :
  p x = false -> p v = false ->
  filter p (pre ++ v :: post) = filter p (pre ++ x :: post).
Proof. intros Hx Hv. rewrite !filter_app. simpl. now rewrite Hx, Hv. Qed.

(** One action leaves alone the tasks whose id it does not name. *)
Lemma applyAction_frame (p : Task -> bool) (l : list Task) (a : OfflineAction) :
  (forall t, p t = true -> id t <> named a) ->
  filter p (syncService.applyAction l a) = filter p l.
Proof.
  intros Hp.
  assert (Hnamed : forall t, id t = named a -> p t = false).
  { intros t Ht. destruct (p t) eqn:E; [|reflexivity]. now apply Hp in E. }
  unfold syncService.applyAction, named in *.
  destruct (Action.body a) as [payload|payload|payload_id].
  - rewrite filter_app. simpl. rewrite (Hnamed payload eq_refl).
    apply app_nil_r.
  - destruct (Z.eqb_spec (findIndex (fun t => (id t =? id payload)%string) l) (-1))
      as [E|E]; simpl; [reflexivity|].
    destruct (findIndex_present _ _ _ E) as (pre & x & post & -> & _ & Hx & ->).
    rewrite assign_middle. apply filter_assign_hidden.
    + apply Hnamed. now apply String.eqb_eq.
    + now apply Hnamed.
  - rewrite filter_filter.
    induction l as [|t l IH]; simpl; [reflexivity|].
    destruct (String.eqb_spec (id t) payload_id) as [E|E]; simpl.
    + now rewrite (Hnamed t E).
    + destruct (p t); now rewrite IH.
Qed.

(** X8: the replay leaves alone every task whose id no action of the log
    names: such tasks of the snapshot are in the result, they are the only
    such tasks there, and they keep their relative order. *)
Theorem replay_keeps_unnamed_tasks (tasks : list Task)
  (log : list OfflineAction) :
  let unnamed t := forallb (fun a => negb (named a =? id t)%string) log in
  filter unnamed (syncService.replay tasks log) = filter unnamed tasks /\
  (forall t, unnamed t = true ->
             (In t (syncService.replay tasks log) <-> In t tasks)).
Proof.
  intros unnamed.
  assert (Hgen : forall p : Task -> bool,
            (forall t, p t = true -> forall a, In a log -> id t <> named a) ->
            forall l, filter p (syncService.replay l log) = filter p l).
  { intros p. induction log as [|a rest IH]; intros Hp l; simpl; [reflexivity|].
    rewrite IH by (intros t Ht b Hb; apply (Hp t Ht); now right).
    apply applyAction_frame. intros t Ht. apply (Hp t Ht). now left. }
  assert (Hu : forall t, unnamed t = true ->
                         forall a, In a log -> id t <> named a).
  { intros t Ht a Ha E. unfold unnamed in Ht.
    rewrite forallb_forall in Ht. specialize (Ht a Ha).
    rewrite <- E, String.eqb_refl in Ht. discriminate. }
  pose proof (Hgen unnamed Hu tasks) as Heq.
  split; [exact Heq|].
  intros t Ht. split; intros Hin.
  - assert (H : In t (filter unnamed (syncService.replay tasks log)))
      by (apply filter_In; auto).
    rewrite Heq in H. now apply filter_In in H.
  - assert (H : In t (filter unnamed tasks)) by (apply filter_In; auto).
    rewrite <- Heq in H. now apply filter_In in H.
Qed.

Lemma applyAction_update_ids (l : list Task) (a : OfflineAction) :
  is_update a = true -> map id (syncService.applyAction l a) = map id l.
Proof.
  unfold is_update, syncService.applyAction.
  destruct (Action.body a) as [payload|payload|payload_id]; try discriminate.
  intros _.
  destruct (Z.eqb_spec (findIndex (fun t => (id t =? id payload)%string) l) (-1))
    as [E|E]; simpl; [reflexivity|].
  destruct (findIndex_present _ _ _ E) as (pre & x & post & -> & _ & Hx & ->).
  rewrite assign_middle, !map_app. simpl.
  apply String.eqb_eq in Hx. now rewrite Hx.
Qed.

(** X9: a log of UPDATE actions neither adds nor removes nor moves a task:
    the ids of the result are the ids of the snapshot, in the same order. *)
Theorem replay_updates_keep_ids (tasks : list Task) (log : list OfflineAction) :
  forallb is_update log = true ->
  map id (syncService.replay tasks log) = map id tasks /\
  List.length (syncService.replay tasks log) = List.length tasks.
Proof.
  intros Hlog.
  assert (Hids : map id (syncService.replay tasks log) = map id tasks).
  { revert tasks. induction log as [|a rest IH]; intros tasks; simpl;
      [reflexivity|].
    simpl in Hlog. apply andb_true_iff in Hlog as [Ha Hrest].
    rewrite IH by assumption. now apply applyAction_update_ids. }
  split; [exact Hids|].
  rewrite <- (length_map id), Hids. apply length_map.
Qed.

Lemma replay_updates_keep_ids_witness :
  let t1 := sampleTask "task1" "Original" false Status.not_started in
  let t2 := sampleTask "task2" "Other" false Status.not_started in
  let log := [Action.mk "a1"
                (UPDATE (spread t2 (Partial.with_title "Updated" Partial.empty)))
                "2024-01-01"] in
  forallb is_update log = true /\
  map id (syncService.replay [t1; t2] log) = ["task1"; "task2"]%string.
Proof.
  intros t1 t2 log. split; [reflexivity|].
  apply (proj1 (replay_updates_keep_ids [t1; t2] log eq_refl)).
Defined.

(** An action that does not create [i] does not bring a task of id [i]
    into a collection that has none. *)
Lemma applyAction_keeps_absent (i : string) (l : list Task) (a : OfflineAction) :
  creates i a = false ->
  (forall t, In t l -> id t <> i) ->
  forall t, In t (syncService.applyAction l a) -> id t <> i.
Proof.
  unfold creates, syncService.applyAction.
  destruct (Action.body a) as [payload|payload|payload_id]; intros Hc Hl t Ht.
  - apply in_app_or in Ht as [Ht|[<-|[]]]; [now apply Hl|].
    now apply String.eqb_neq.
  - destruct (Z.eqb_spec (findIndex (fun u => (id u =? id payload)%string) l) (-1))
      as [E|E]; simpl in Ht; [now apply Hl|].
    destruct (findIndex_present _ _ _ E) as (pre & x & post & -> & _ & Hx & Hn).
    rewrite Hn, assign_middle in Ht.
    apply in_app_or in Ht as [Ht|[<-|Ht]].
    + apply Hl, in_or_app. now left.
    + apply String.eqb_eq in Hx. rewrite <- Hx.
      apply Hl, in_or_app. right. now left.
    + apply Hl, in_or_app. right. now right.
  - apply filter_In in Ht as [Ht _]. now apply Hl.
Qed.

(** X10: a deletion wins over what came before it.  If the log holds
    DELETE [i] and no later action creates a task of id [i], the result of
    the replay has no task of id [i], whatever the snapshot held and
    whatever the later UPDATE actions of that id carry. *)
Theorem replay_delete_wins (tasks : list Task) (before_ after : list OfflineAction)
  (a : OfflineAction) (i : string) :
  Action.body a = DELETE i ->
  forallb (fun b => negb (creates i b)) after = true ->
  forall t, In t (syncService.replay tasks (before_ ++ a :: after)) -> id t <> i.
Proof.
  intros Ha Hafter.
  rewrite replay_app. simpl.
  set (cur := syncService.applyAction (syncService.replay tasks before_) a).
  assert (Hcur : forall t, In t cur -> id t <> i).
  { intros t Ht. unfold cur, syncService.applyAction in Ht. rewrite Ha in Ht.
    apply filter_In in Ht as [_ Ht].
    now apply negb_true_iff, String.eqb_neq in Ht. }
  clearbody cur. revert cur Hcur.
  induction after as [|b rest IH]; intros cur Hcur; simpl; [exact Hcur|].
  simpl in Hafter. apply andb_true_iff in Hafter as [Hb Hrest].
  apply IH; [exact Hrest|].
  apply applyAction_keeps_absent; [|exact Hcur].
  now apply negb_true_iff in Hb.
Qed.

Lemma replay_delete_wins_witness :
  let t1 := sampleTask "t1" "A" false Status.not_started in
  let a1 := Action.mk "a1" (CREATE t1) "1" in
  let a2 := Action.mk "a2" (DELETE "t1") "2" in
  let a3 := Action.mk "a3" (UPDATE t1) "3" in
  Action.body a2 = DELETE "t1" /\
  forallb (fun b => negb (creates "t1" b)) [a3] = true /\
  ~ In t1 (syncService.replay [t1] ([a1] ++ a2 :: [a3])).
Proof.
  intros t1 a1 a2 a3. split; [reflexivity|]. split; [reflexivity|].
  intros H.
  now apply (replay_delete_wins [t1] [a1] [a3] a2 "t1" eq_refl eq_refl t1 H).
Defined.

(** X11: the replay invents no task: a task of the result is a task of the
    snapshot or the payload of a CREATE or of an UPDATE of the log. *)
Theorem replay_invents_nothing (tasks : list Task) (log : list OfflineAction)
  (t : Task) :
  In t (syncService.replay tasks log) ->
  In t tasks \/
  exists a, In a log /\ (Action.body a = CREATE t \/ Action.body a = UPDATE t).
Proof.
  revert tasks. induction log as [|a rest IH]; intros tasks Ht; simpl in Ht;
    [now left|].
  destruct (IH _ Ht) as [Hstep|(b & Hb & Hbody)].
  - unfold syncService.applyAction in Hstep.
    destruct (Action.body a) as [payload|payload|payload_id] eqn:Ea.
    + apply in_app_or in Hstep as [H|[<-|[]]]; [now left|].
      right. exists a. split; [now left|now left].
    + destruct (Z.eqb_spec (findIndex (fun u => (id u =? id payload)%string) tasks)
                  (-1)) as [E|E]; simpl in Hstep; [now left|].
      destruct (findIndex_present _ _ _ E) as (pre & x & post & -> & _ & _ & Hn).
      rewrite Hn, assign_middle in Hstep.
      apply in_app_or in Hstep as [H|[<-|H]].
      * left. apply in_or_app. now left.
      * right. exists a. split; [now left|now right].
      * left. apply in_or_app. right. now right.
    + apply filter_In in Hstep as [H _]. now left.
  - right. exists b. split; [now right|exact Hbody].
Qed.

Lemma replay_invents_nothing_witness :
  let t1 := sampleTask "t1" "A" false Status.not_started in
  let t2 := sampleTask "t2" "B" false Status.not_started in
  let log := [Action.mk "a1" (CREATE t2) "1"] in
  In t2 (syncService.replay [t1] log) /\
  (In t2 [t1] \/
   exists a, In a log /\ (Action.body a = CREATE t2 \/ Action.body a = UPDATE t2)).
Proof.
  intros t1 t2 log.
  assert (H : In t2 (syncService.replay [t1] log)) by (right; left; reflexivity).
  split; [exact H|]. exact (replay_invents_nothing [t1] log t2 H).
Defined.

(** ** What the services leave alone

    A property of the world that no interaction and no write of the action
    log disturbs is kept by the functions of [syncService] that write no
    tasks; the functions that write tasks keep it when these writes do not
    disturb it either. *)

Section Frame.
Context {host : JSHost}.
Variable P : World -> Prop.
Hypothesis P_emit : forall e w, P w -> P (emit e w).
Hypothesis P_log : forall v w, P w -> P (set_actionsItem v w).

Let E : Exn -> World -> Prop := fun _ => P.

Ltac frame_by lemma :=
  intros w Hw; rewrite lemma;
  repeat match goal with |- context [if ?b then _ else _] => destruct b end;
  cbv beta iota delta [E]; auto 6 using P_emit, P_log.

Lemma frame_Date_now : hoare P Date_now (fun _ => P) E.
Proof. intros w Hw. simpl. now apply P_emit. Qed.

Lemma frame_checkConnectivity :
  hoare P syncService.checkConnectivity (fun _ => P) E.
Proof. frame_by checkConnectivity_exact. Qed.

Lemma frame_getTasks : hoare P storage.getTasks (fun _ => P) E.
Proof. frame_by getTasks_exact. Qed.

Lemma frame_getOfflineActions :
  hoare P syncService.getOfflineActions (fun _ => P) E.
Proof. frame_by getOfflineActions_exact. Qed.

Lemma frame_saveOfflineAction (action : OfflineAction) :
  hoare P (syncService.saveOfflineAction action) (fun _ => P) E.
Proof. frame_by saveOfflineAction_exact. Qed.

Lemma frame_clearOfflineActions :
  hoare P syncService.clearOfflineActions (fun _ => P) E.
Proof. frame_by clearOfflineActions_exact. Qed.

Lemma frame_processOfflineActions (l : list Task) :
  hoare P (syncService.processOfflineActions l) (fun _ => P) E.
Proof. frame_by processOfflineActions_run. Qed.

Section Saving.
Variable l : list Task.
Hypothesis P_save : forall w, P w -> P (set_tasksItem (Some l) w).

Lemma frame_saveTasks : hoare P (storage.saveTasks l) (fun _ => P) E.
Proof. frame_by saveTasks_exact. Qed.

Lemma frame_syncTasks : hoare P (syncService.syncTasks l) (fun _ => P) E.
Proof. frame_by syncTasks_exact. Qed.

Lemma frame_syncOrQueue (mkAction : Async OfflineAction) :
  hoare P mkAction (fun _ => P) E ->
  hoare P (taskService.syncOrQueue l mkAction) (fun _ => P) E.
Proof.
  intros Hmk.
  assert (Hqueue : hoare P
            (action <- mkAction ;; syncService.saveOfflineAction action)
            (fun _ => P) E).
  { eapply hoare_bind; [exact Hmk|]. intros a. apply frame_saveOfflineAction. }
  eapply hoare_bind; [apply frame_checkConnectivity|].
  intros [|]; [|exact Hqueue].
  eapply hoare_tryCatch with (E1 := E).
  - eapply hoare_bind; [apply frame_syncTasks|]. intros ?. now apply hoare_ret.
  - intros ?. exact Hqueue.
Qed.
End Saving.

Lemma frame_mkAction1 (f : Z -> OfflineAction) :
  hoare P (a <- Date_now ;; ret (f a)) (fun _ => P) E.
Proof.
  eapply hoare_bind; [apply frame_Date_now|]. intros a. now apply hoare_ret.
Qed.

Lemma frame_mkAction2 (f : Z -> Z -> OfflineAction) :
  hoare P (a <- Date_now ;; s <- Date_now ;; ret (f a s)) (fun _ => P) E.
Proof.
  eapply hoare_bind; [apply frame_Date_now|]. intros a.
  eapply hoare_bind; [apply frame_Date_now|]. intros s. now apply hoare_ret.
Qed.

(** From here on the writes of tasks do not disturb [P] either. *)
Hypothesis P_tasks : forall v w, P w -> P (set_tasksItem v w).

Lemma frame_createTask (title description userId : string)
  (dueDate : option string) :
  hoare P (taskService.createTask title description userId dueDate)
    (fun _ => P) E.
Proof.
  apply hoare_rethrow.
  eapply hoare_bind; [apply frame_Date_now|]. intros d.
  eapply hoare_bind; [apply frame_Date_now|]. intros i.
  eapply hoare_bind; [apply frame_getTasks|]. intros tasks.
  eapply hoare_bind; [apply frame_saveTasks; auto|]. intros ?.
  eapply hoare_bind; [apply frame_syncOrQueue; auto; apply frame_mkAction1|].
  intros ?. now apply hoare_ret.
Qed.

Lemma frame_updateTask (taskId : string) (updates : Partial.Task) :
  hoare P (taskService.updateTask taskId updates) (fun _ => P) E.
Proof.
  apply hoare_rethrow.
  eapply hoare_bind; [apply frame_getTasks|]. intros tasks. cbv zeta.
  destruct (_ =? -1)%Z; [now apply hoare_throw|].
  destruct (nth_error tasks _) as [found|]; [|now apply hoare_throw].
  eapply hoare_bind; [apply frame_Date_now|]. intros d.
  eapply hoare_bind; [apply frame_saveTasks; auto|]. intros ?.
  eapply hoare_bind; [apply frame_syncOrQueue; auto; apply frame_mkAction2|].
  intros ?. now apply hoare_ret.
Qed.

Lemma frame_deleteTask (taskId : string) :
  hoare P (taskService.deleteTask taskId) (fun _ => P) E.
Proof.
  apply hoare_rethrow.
  eapply hoare_bind; [apply frame_getTasks|]. intros tasks. cbv zeta.
  destruct (_ =? _)%nat; [now apply hoare_throw|].
  eapply hoare_bind; [apply frame_saveTasks; auto|]. intros ?.
  apply frame_syncOrQueue; auto. apply frame_mkAction2.
Qed.

Lemma frame_toggleTaskComplete (taskId : string) :
  hoare P (taskService.toggleTaskComplete taskId) (fun _ => P) E.
Proof.
  eapply hoare_bind with (Q := fun _ => P).
  { intros w Hw. rewrite getTaskById_exact. now apply P_emit. }
  intros [task|]; [apply frame_updateTask|now apply hoare_throw].
Qed.

Lemma frame_updateTaskStatus (taskId : string) (status : TaskStatus) :
  hoare P (taskService.updateTaskStatus taskId status) (fun _ => P) E.
Proof. apply frame_updateTask. Qed.

Lemma frame_perform (m : Mutation) : hoare P (perform m) (fun _ => P) E.
Proof.
  destruct m; simpl.
  - eapply hoare_bind; [apply frame_createTask|]. intros ?. now apply hoare_ret.
  - eapply hoare_bind; [apply frame_updateTask|]. intros ?. now apply hoare_ret.
  - apply frame_deleteTask.
  - eapply hoare_bind; [apply frame_toggleTaskComplete|]. intros ?.
    now apply hoare_ret.
  - eapply hoare_bind; [apply frame_updateTaskStatus|]. intros ?.
    now apply hoare_ret.
Qed.
End Frame.

(** ** A session of mutations while offline *)

Section Session.
Context {host : JSHost}.

Lemma perform_same_environment (m : Mutation) (w : World) :
  same_environment w (snd (perform m w)).
Proof.
  pose proof (frame_perform (same_environment w)) as H.
  specialize (H (fun e w' Hw' => Hw') (fun v w' Hw' => Hw')
                (fun v w' Hw' => Hw') m w).
  assert (H0 : same_environment w w) by (repeat split).
  specialize (H H0). now destruct (perform m w) as [[?|?] ?].
Qed.

Lemma perform_memory (m : Mutation) (w : World) :
  memory (snd (perform m w)) = memory w.
Proof.
  pose proof (frame_perform (fun w' => memory w' = memory w)) as H.
  specialize (H (fun e w' Hw' => Hw') (fun v w' Hw' => Hw')
                (fun v w' Hw' => Hw') m w eq_refl).
  now destruct (perform m w) as [[?|?] ?].
Qed.

Lemma same_environment_reliable (w w' : World) :
  same_environment w w' -> reliable w -> reliable w'.
Proof. intros (Hr & _) Hw n. rewrite Hr. apply Hw. Qed.

Lemma same_environment_offline (w w' : World) :
  same_environment w w' -> offline w -> offline w'.
Proof.
  intros (_ & Hc & _) Hw n. unfold connected. rewrite Hc. apply Hw.
Qed.

(** What one update leaves when offline: nothing new when the id finds no
    task, and else one action whose replay on the old snapshot is the new
    snapshot. *)
Lemma updateTask_offline (taskId : string) (updates : Partial.Task) (w : World) :
  reliable w -> offline w -> Partial.id updates = None ->
  let w' := snd (taskService.updateTask taskId updates w) in
  exists added,
    pending w' = pending w ++ added /\
    syncService.replay (snapshot w) added = snapshot w'.
Proof.
  intros Hw Hoff Hid w'.
  destruct (find (fun t => (id t =? taskId)%string) (snapshot w)) as [x|] eqn:Hfind.
  - destruct (find_split _ _ _ _ Hfind) as (pre & post & Hs & Hpre & Hx).
    destruct (updateTask_run taskId updates w pre post x Hw Hs Hpre Hx)
      as (w1 & Hrun & _ & Hs1 & [(a & Ha & Hp)|[Hon _]]);
      [|rewrite Hoff in Hon; discriminate].
    unfold w'. rewrite Hrun. cbn [snd].
    exists [a]. split; [exact Hp|].
    rewrite Hs1, Hs. cbn [syncService.replay].
    apply applyAction_update_hit; [exact Ha| |].
    + intros y Hy. simpl. rewrite Hid.
      apply String.eqb_eq in Hx. rewrite Hx.
      apply String.eqb_neq. now apply Hpre.
    + simpl. now rewrite Hid.
  - assert (Hnone : forall t, In t (snapshot w) -> id t <> taskId).
    { intros t Ht. apply String.eqb_neq.
      exact (find_none _ _ Hfind t Ht). }
    unfold w'. rewrite (updateTask_unknown w taskId Hnone updates). cbn [snd].
    exists []. split; [symmetry; apply app_nil_r|reflexivity].
Qed.

Lemma perform_offline (m : Mutation) (w : World) :
  reliable w -> offline w -> keeps_id m ->
  let w' := snd (perform m w) in
  exists added,
    pending w' = pending w ++ added /\
    syncService.replay (snapshot w) added = snapshot w'.
Proof.
  intros Hw Hoff Hm w'. destruct m as [t0 d0 u0 due0|taskId updates|taskId|taskId|taskId s].
  - destruct (createTask_run t0 d0 u0 due0 w Hw)
      as (w1 & Hrun & _ & Hs1 & [(a & Ha & Hp)|[Hon _]]);
      [|rewrite Hoff in Hon; discriminate].
    unfold w', perform, bind. rewrite Hrun. cbn [snd ret].
    exists [a]. split; [exact Hp|].
    rewrite Hs1. cbn [syncService.replay].
    unfold syncService.applyAction. now rewrite Ha.
  - destruct (updateTask_offline taskId updates w Hw Hoff Hm) as (added & Hp & Hr).
    exists added. unfold w', perform, bind.
    destruct (taskService.updateTask taskId updates w) as [[?|?] ?]; now split.
  - destruct (find (fun t => (id t =? taskId)%string) (snapshot w)) as [x|] eqn:Hfind.
    + apply find_some in Hfind as [Hin Hx]. apply String.eqb_eq in Hx.
      destruct (deleteTask_run taskId w x Hw Hin Hx)
        as (w1 & Hrun & _ & Hs1 & [(a & Ha & Hp)|[Hon _]]);
        [|rewrite Hoff in Hon; discriminate].
      unfold w', perform. rewrite Hrun. cbn [snd].
      exists [a]. split; [exact Hp|].
      rewrite Hs1. cbn [syncService.replay].
      unfold syncService.applyAction. now rewrite Ha.
    + assert (Hnone : forall t, In t (snapshot w) -> id t <> taskId).
      { intros t Ht. apply String.eqb_neq. exact (find_none _ _ Hfind t Ht). }
      unfold w', perform. rewrite (deleteTask_unknown w taskId Hnone). cbn [snd].
      exists []. split; [symmetry; apply app_nil_r|reflexivity].
  - assert (Hperf : snd (perform (Toggle taskId) w)
                    = match find (fun t => (id t =? taskId)%string) (snapshot w) with
                      | Some x => snd (taskService.updateTask taskId (toggled x)
                                         (emit (GetItem TASKS) w))
                      | None => emit (GetItem TASKS) w
                      end).
    { unfold perform, bind, taskService.toggleTaskComplete, bind.
      rewrite getTaskById_exact, Hw.
      destruct (find _ (snapshot w)) as [x|]; [|reflexivity].
      change (Partial.with_status
                (if completed x then Status.not_started else Status.completed)
                (Partial.with_completed (negb (completed x)) Partial.empty))
        with (toggled x).
      now destruct (taskService.updateTask taskId (toggled x)
                      (emit (GetItem TASKS) w)) as [[?|?] ?]. }
    unfold w'. rewrite Hperf.
    destruct (find _ (snapshot w)) as [x|].
    + exact (updateTask_offline taskId (toggled x) (emit (GetItem TASKS) w)
               Hw Hoff eq_refl).
    + exists []. split; [symmetry; apply app_nil_r|reflexivity].
  - destruct (updateTask_offline taskId
                (Partial.with_completed (Status.eqb s Status.completed)
                   (Partial.with_status s Partial.empty)) w Hw Hoff eq_refl)
      as (added & Hp & Hr).
    exists added. unfold w', perform, bind, taskService.updateTaskStatus.
    destruct (taskService.updateTask taskId _ w) as [[?|?] ?]; now split.
Qed.
End Session.

(** X12: the action log records an offline session faithfully.  After any
    sequence of [createTask], [updateTask], [deleteTask],
    [toggleTaskComplete] and [updateTaskStatus] calls made offline on a
    reliable storage, failed calls included, the persisted log is the old
    log followed by the actions of the session, and replaying these actions
    on the snapshot the session started from gives the snapshot the session
    left, provided no update changes the id of its task. *)
Theorem offline_session_replays {host : JSHost} (ms : list Mutation) (w : World) :
  reliable w -> offline w -> Forall keeps_id ms ->
  exists added,
    pending (session ms w) = pending w ++ added /\
    syncService.replay (snapshot w) added = snapshot (session ms w).
Proof.
  intros Hw Hoff Hms. revert w Hw Hoff.
  induction Hms as [|m rest Hm Hrest IH]; intros w Hw Hoff; simpl.
  - exists []. split; [symmetry; apply app_nil_r|reflexivity].
  - destruct (perform_offline m w Hw Hoff Hm) as (added1 & Hp1 & Hr1).
    pose proof (perform_same_environment m w) as Henv.
    destruct (IH (snd (perform m w))
                (same_environment_reliable _ _ Henv Hw)
                (same_environment_offline _ _ Henv Hoff))
      as (added2 & Hp2 & Hr2).
    exists (added1 ++ added2). split.
    + now rewrite Hp2, Hp1, app_assoc.
    + now rewrite replay_app, Hr1.
Qed.

Lemma offline_session_replays_witness :
  let t1 := sampleTask "task1" "Task 1" false Status.not_started in
  let w := device (Some [t1]) None false 1704067200000 in
  let ms := [Create "New" "Description" "user1" None; Toggle "task1";
             Delete "nonexistent"; Delete "task1"] in
  reliable w /\ offline w /\ Forall keeps_id ms /\
  exists added,
    pending (session ms w) = pending w ++ added /\
    syncService.replay (snapshot w) added = snapshot (session ms w).
Proof.
  intros t1 w ms.
  assert (Hw : reliable w) by (intros n; reflexivity).
  assert (Hoff : offline w) by (intros n; reflexivity).
  assert (Hms : Forall keeps_id ms) by (repeat constructor).
  split; [exact Hw|]. split; [exact Hoff|]. split; [exact Hms|].
  exact (offline_session_replays ms w Hw Hoff Hms).
Defined.

(** ** The two connectivity probes of a mutation *)

Section Probes.
Context {host : JSHost}.

(** On a reliable storage the tail of a mutation queues the action unless
    both probes, the one of the facade and the one of [syncTasks], report a
    connection. *)
Lemma syncOrQueue_cases (tasks : list Task) (mkAction : Async OfflineAction)
  (Q : OfflineAction -> Prop) (w : World) :
  reliable w -> snapshot w = tasks ->
  (forall w0, exists a w1, mkAction w0 = (Ok a, w1) /\ extends w0 w1 /\ Q a) ->
  exists w',
    taskService.syncOrQueue tasks mkAction w = (Ok tt, w') /\
    snapshot w' = tasks /\
    if connected w (tick w) && connected w (1 + tick w)
    then pending w' = pending w
    else exists a, Q a /\ pending w' = pending w ++ [a].
Proof.
  intros Hw Hs Hmk.
  assert (Hqueue : forall w0, extends w w0 ->
            exists w',
              (action <- mkAction ;; syncService.saveOfflineAction action) w0
              = (Ok tt, w') /\
              snapshot w' = tasks /\
              exists a, Q a /\ pending w' = pending w ++ [a]).
  { intros w0 Hw0. destruct (Hmk w0) as (a & w1 & Hrun & Hext & Ha).
    assert (Hw1 : extends w w1).
    { clear - Hw0 Hext. induction Hext; [assumption|now constructor]. }
    unfold bind. rewrite Hrun.
    rewrite saveOfflineAction_run by (eapply extends_reliable; eassumption).
    eexists. split; [reflexivity|]. split.
    - simpl. rewrite <- Hs. apply (extends_snapshot _ _ Hw1).
    - exists a. split; [exact Ha|]. simpl.
      now rewrite (extends_pending _ _ Hw1). }
  unfold taskService.syncOrQueue, bind at 1.
  rewrite checkConnectivity_exact.
  destruct (connected w (tick w)) eqn:Hc1; cbn [andb].
  - unfold tryCatch, bind at 1. rewrite syncTasks_exact, tick_emit.
    change (rejects (emit NetInfoFetch w)) with (rejects w).
    change (connected (emit NetInfoFetch w)) with (connected w).
    change (1 + tick w) with (S (tick w)).
    rewrite Hw.
    destruct (connected w (S (tick w))) eqn:Hc2.
    + eexists. split; [reflexivity|]. split; reflexivity.
    + destruct (Hqueue (emit NetInfoFetch (emit NetInfoFetch w)))
        as (w' & Hrun & Hsnap & Hpend); [repeat constructor|].
      exists w'. repeat split; auto.
  - destruct (Hqueue (emit NetInfoFetch w))
      as (w' & Hrun & Hsnap & Hpend); [repeat constructor|].
    exists w'. repeat split; auto.
Qed.

Lemma createTask_cases (title description userId : string)
  (dueDate : option string) (w : World) :
  reliable w ->
  let newTask := createdTask title description userId dueDate w in
  exists w',
    taskService.createTask title description userId dueDate w = (Ok newTask, w') /\
    snapshot w' = snapshot w ++ [newTask] /\
    if connected w (4 + tick w) && connected w (5 + tick w)
    then pending w' = pending w
    else exists a, Action.body a = CREATE newTask /\ pending w' = pending w ++ [a].
Proof.
  intros Hw newTask.
  cbv [taskService.createTask tryCatch bind Date_now].
  rewrite getTasks_run by (intros n; apply Hw).
  rewrite saveTasks_run by (intros n; apply Hw).
  rewrite !tick_emit.
  match goal with |- context [taskService.syncOrQueue ?t ?mk ?W] =>
    destruct (syncOrQueue_cases t mk (fun a => Action.body a = CREATE newTask) W)
      as (w' & Hrun & Hsnap & Hpend)
  end.
  - intros n. apply Hw.
  - reflexivity.
  - intros w0. do 2 eexists. split; [reflexivity|]. split; [|reflexivity].
    repeat constructor.
  - rewrite Hrun. exists w'. split; [reflexivity|]. split; [exact Hsnap|].
    rewrite ?tick_emit, ?tick_set_tasksItem, ?tick_emit in Hpend. exact Hpend.
Qed.

Lemma updateTask_cases (taskId : string) (updates : Partial.Task) (w : World)
  (pre post : list Task) (x : Task) :
  reliable w ->
  snapshot w = pre ++ x :: post ->
  (forall y, In y pre -> (id y =? taskId)%string = false) ->
  (id x =? taskId)%string = true ->
  let updatedTask :=
    with_updatedAt (spread x updates) (toISOString (clock w (1 + tick w))) in
  exists w',
    taskService.updateTask taskId updates w = (Ok updatedTask, w') /\
    snapshot w' = pre ++ updatedTask :: post /\
    if connected w (3 + tick w) && connected w (4 + tick w)
    then pending w' = pending w
    else exists a, Action.body a = UPDATE updatedTask /\
                   pending w' = pending w ++ [a].
Proof.
  intros Hw Hs Hpre Hx updatedTask.
  unfold taskService.updateTask, tryCatch, bind at 1.
  rewrite getTasks_run by assumption. rewrite Hs.
  rewrite (findIndex_first _ (fun t => (id t =? taskId)%string) pre post x Hpre Hx).
  replace (Z.of_nat (List.length pre) =? -1)%Z with false
    by (symmetry; apply Z.eqb_neq; lia).
  rewrite Nat2Z.id, nth_error_middle.
  cbv [bind Date_now]. rewrite assign_middle.
  rewrite saveTasks_run by (intros n; apply Hw).
  rewrite !tick_emit.
  match goal with |- context [taskService.syncOrQueue ?t ?mk ?W] =>
    destruct (syncOrQueue_cases t mk (fun a => Action.body a = UPDATE updatedTask) W)
      as (w' & Hrun & Hsnap & Hpend)
  end.
  - intros n. apply Hw.
  - reflexivity.
  - intros w0. do 2 eexists. split; [reflexivity|]. split; [|reflexivity].
    repeat constructor.
  - rewrite Hrun. exists w'. split; [reflexivity|]. split; [exact Hsnap|].
    rewrite ?tick_emit, ?tick_set_tasksItem, ?tick_emit in Hpend. exact Hpend.
Qed.

Lemma deleteTask_cases (taskId : string) (w : World) (x : Task) :
  reliable w -> In x (snapshot w) -> id x = taskId ->
  exists w',
    taskService.deleteTask taskId w = (Ok tt, w') /\
    snapshot w' = filter (fun t => negb (id t =? taskId)%string) (snapshot w) /\
    if connected w (2 + tick w) && connected w (3 + tick w)
    then pending w' = pending w
    else exists a, Action.body a = DELETE taskId /\ pending w' = pending w ++ [a].
Proof.
  intros Hw Hin Hid.
  unfold taskService.deleteTask, tryCatch, bind at 1.
  rewrite getTasks_run by assumption.
  assert (Hlt : (List.length (snapshot w) =?
                 List.length (filter (fun t => negb (id t =? taskId)%string)
                                (snapshot w)))%nat = false).
  { apply Nat.eqb_neq.
    pose proof (filter_length_lt _ (fun t => negb (id t =? taskId)%string)
                  (snapshot w) x Hin) as Hlt.
    cbv beta in Hlt. rewrite Hid, String.eqb_refl in Hlt.
    specialize (Hlt eq_refl). lia. }
  rewrite Hlt. unfold bind at 1.
  rewrite saveTasks_run by (intros n; apply Hw).
  match goal with |- context [taskService.syncOrQueue ?t ?mk ?W] =>
    destruct (syncOrQueue_cases t mk (fun a => Action.body a = DELETE taskId) W)
      as (w' & Hrun & Hsnap & Hpend)
  end.
  - intros n. apply Hw.
  - reflexivity.
  - intros w0. do 2 eexists. split; [reflexivity|]. split; [|reflexivity].
    repeat constructor.
  - rewrite Hrun. exists w'. split; [reflexivity|]. split; [exact Hsnap|].
    rewrite ?tick_emit, ?tick_set_tasksItem, ?tick_emit in Hpend. exact Hpend.
Qed.
End Probes.

(** X13: a mutation probes the connectivity twice, once itself and once
    inside [syncTasks].  On a reliable storage [createTask], and
    [updateTask] and [deleteTask] on an id that finds its task, queue no
    action when both probes report a connection and exactly one action when
    either of them does not, so a connection lost between the two probes
    still queues the mutation. *)
Theorem mutation_queues_unless_both_probes_online {host : JSHost} (w : World) :
  reliable w ->
  (forall title description userId dueDate,
   exists t w',
     taskService.createTask title description userId dueDate w = (Ok t, w') /\
     if connected w (4 + tick w) && connected w (5 + tick w)
     then pending w' = pending w
     else exists a, Action.body a = CREATE t /\ pending w' = pending w ++ [a]) /\
  (forall taskId updates task,
     find (fun t => (id t =? taskId)%string) (snapshot w) = Some task ->
     exists t w',
       taskService.updateTask taskId updates w = (Ok t, w') /\
       if connected w (3 + tick w) && connected w (4 + tick w)
       then pending w' = pending w
       else exists a, Action.body a = UPDATE t /\ pending w' = pending w ++ [a]) /\
  (forall taskId task,
     In task (snapshot w) -> id task = taskId ->
     exists w',
       taskService.deleteTask taskId w = (Ok tt, w') /\
       if connected w (2 + tick w) && connected w (3 + tick w)
       then pending w' = pending w
       else exists a, Action.body a = DELETE taskId /\
                      pending w' = pending w ++ [a]).
Proof.
  intros Hw. repeat split.
  - intros title0 description0 userId0 dueDate0.
    destruct (createTask_cases title0 description0 userId0 dueDate0 w Hw)
      as (w' & Hrun & _ & Hp).
    now exists (createdTask title0 description0 userId0 dueDate0 w), w'.
  - intros taskId updates task Hfind.
    destruct (find_split _ _ _ _ Hfind) as (pre & post & Hs & Hpre & Hx).
    destruct (updateTask_cases taskId updates w pre post task Hw Hs Hpre Hx)
      as (w' & Hrun & _ & Hp).
    exists (with_updatedAt (spread task updates)
              (toISOString (clock w (1 + tick w)))), w'.
    auto.
  - intros taskId task Hin Hid.
    destruct (deleteTask_cases taskId w task Hw Hin Hid) as (w' & Hrun & _ & Hp).
    now exists w'.
Qed.

Lemma mutation_queues_unless_both_probes_online_witness :
  let t1 := sampleTask "task1" "Task 1" false Status.not_started in
  let w := mkWorld (mkTaskState [] false None) (Some [t1]) None []
             (fun _ => false) (fun n => Some (n =? 2)%nat)
             (fun n => Z.of_nat n) in
  reliable w /\ In t1 (snapshot w) /\
  connected w (2 + tick w) && connected w (3 + tick w) = false /\
  exists w' a,
    taskService.deleteTask "task1" w = (Ok tt, w') /\
    Action.body a = DELETE "task1" /\ pending w' = [a].
Proof.
  intros t1 w.
  assert (Hw : reliable w) by (intros n; reflexivity).
  assert (Hin : In t1 (snapshot w)) by (left; reflexivity).
  split; [exact Hw|]. split; [exact Hin|]. split; [reflexivity|].
  destruct (proj2 (proj2 (mutation_queues_unless_both_probes_online w Hw))
              "task1"%string t1 Hin eq_refl) as (w' & Hrun & Hp).
  change (connected w (2 + tick w) && connected w (3 + tick w)) with false in Hp.
  destruct Hp as (a & Ha & Hp). now exists w', a.
Defined.

(** ** Replaying on a collection that holds the mutation already *)

(** X14: the log of an offline [createTask] is meant for the snapshot from
    before the call.  Replayed on the snapshot the call left, it adds the
    created task a second time: on a storage that accepts its calls and
    with an empty log before the call, [processOfflineActions] on the
    stored tasks hands back the old snapshot followed by the created task
    twice, and the log is cleared. *)
Theorem replay_after_offline_create_duplicates {host : JSHost} (w : World)
  (title0 description0 userId0 : string) (dueDate0 : option string) :
  reliable w -> connected w (4 + tick w) = false -> pending w = [] ->
  exists t w1 w2,
    taskService.createTask title0 description0 userId0 dueDate0 w = (Ok t, w1) /\
    syncService.processOfflineActions (snapshot w1) w1
    = (Ok (snapshot w ++ [t; t]), w2) /\
    pending w2 = [].
Proof.
  intros Hw Hoff Hempty.
  destruct (createTask_run title0 description0 userId0 dueDate0 w Hw)
    as (w1 & Hrun & Hw1 & Hs1 & [(a & Ha & Hp)|[Hon _]]); [|congruence].
  exists (createdTask title0 description0 userId0 dueDate0 w), w1.
  eexists. split; [exact Hrun|].
  rewrite processOfflineActions_run, !Hw1, Hp, Hempty, Hs1. cbn [app].
  split.
  - f_equal. f_equal. cbn [syncService.replay].
    unfold syncService.applyAction. rewrite Ha.
    now rewrite <- app_assoc.
  - reflexivity.
Qed.

Lemma replay_after_offline_create_duplicates_witness :
  let w := device (Some [sampleTask "t1" "A" false Status.not_started]) None
                  false 1704067200000 in
  reliable w /\ connected w (4 + tick w) = false /\ pending w = [] /\
  exists t w1 w2,
    taskService.createTask "B" "Description" "user1" None w = (Ok t, w1) /\
    syncService.processOfflineActions (snapshot w1) w1
    = (Ok (snapshot w ++ [t; t]), w2).
Proof.
  intros w.
  assert (Hw : reliable w) by (intros n; reflexivity).
  split; [exact Hw|]. split; [reflexivity|]. split; [reflexivity|].
  destruct (replay_after_offline_create_duplicates w "B" "Description" "user1"
              None Hw eq_refl eq_refl) as (t & w1 & w2 & H1 & H2 & _).
  now exists t, w1, w2.
Defined.

(** ** Mutations on a storage that rejects *)

Section Rejections.
Context {host : JSHost}.

(** X15: a mutation whose write of the tasks is rejected rejects in turn and
    changes nothing: the stored tasks and the action log are as before, and
    the call stops there, without a connectivity probe and without queueing
    an action.  The write is the fourth interaction of [createTask], the
    third of [updateTask] and the second of [deleteTask]. *)
Theorem rejected_write_aborts_mutation (w : World) :
  (forall title description userId dueDate,
     rejects w (3 + tick w) = true ->
     let r := taskService.createTask title description userId dueDate w in
     fst r = Throw Rejected /\
     tasksItem (snd r) = tasksItem w /\ actionsItem (snd r) = actionsItem w /\
     trace (snd r) = trace w ++ [DateNow; DateNow; GetItem TASKS; SetItem TASKS]) /\
  (forall taskId updates task,
     rejects w (tick w) = false ->
     find (fun t => (id t =? taskId)%string) (snapshot w) = Some task ->
     rejects w (2 + tick w) = true ->
     let r := taskService.updateTask taskId updates w in
     fst r = Throw Rejected /\
     tasksItem (snd r) = tasksItem w /\ actionsItem (snd r) = actionsItem w /\
     trace (snd r) = trace w ++ [GetItem TASKS; DateNow; SetItem TASKS]) /\
  (forall taskId task,
     rejects w (tick w) = false ->
     In task (snapshot w) -> id task = taskId ->
     rejects w (1 + tick w) = true ->
     let r := taskService.deleteTask taskId w in
     fst r = Throw Rejected /\
     tasksItem (snd r) = tasksItem w /\ actionsItem (snd r) = actionsItem w /\
     trace (snd r) = trace w ++ [GetItem TASKS; SetItem TASKS]).
Proof.
  repeat apply conj.
  - intros title0 description0 userId0 dueDate0 Hrej.
    cbv [taskService.createTask tryCatch bind Date_now].
    rewrite getTasks_exact, saveTasks_exact, !tick_emit.
    change (rejects (emit (GetItem TASKS) (emit DateNow (emit DateNow w))))
      with (rejects w).
    change (3 + tick w) with (S (S (S (tick w)))) in Hrej. rewrite Hrej.
    cbn [fst snd throw]. repeat split.
    simpl. now rewrite <- ?app_assoc.
  - intros taskId updates task Hread Hfind Hrej.
    destruct (find_split _ _ _ _ Hfind) as (pre & post & Hs & Hpre & Hx).
    assert (Hrun : taskService.updateTask taskId updates w
                   = (Throw Rejected,
                      emit (SetItem TASKS) (emit DateNow (emit (GetItem TASKS) w)))).
    { unfold taskService.updateTask, tryCatch, bind at 1.
      rewrite getTasks_exact, Hread, Hs.
      rewrite (findIndex_first _ (fun t => (id t =? taskId)%string) pre post task Hpre Hx).
      replace (Z.of_nat (List.length pre) =? -1)%Z with false
        by (symmetry; apply Z.eqb_neq; lia).
      rewrite Nat2Z.id, nth_error_middle.
      cbv [bind Date_now]. rewrite saveTasks_exact, !tick_emit.
      change (rejects (emit DateNow (emit (GetItem TASKS) w))) with (rejects w).
      change (2 + tick w) with (S (S (tick w))) in Hrej. now rewrite Hrej. }
    cbv zeta. rewrite Hrun. cbn [fst snd]. repeat split.
    simpl. now rewrite <- ?app_assoc.
  - intros taskId task Hread Hin Hid Hrej.
    assert (Hrun : taskService.deleteTask taskId w
                   = (Throw Rejected, emit (SetItem TASKS) (emit (GetItem TASKS) w))).
    { unfold taskService.deleteTask, tryCatch, bind at 1.
      rewrite getTasks_exact, Hread.
      assert (Hlt : (List.length (snapshot w) =?
                     List.length (filter (fun t => negb (id t =? taskId)%string)
                                    (snapshot w)))%nat = false).
      { apply Nat.eqb_neq.
        pose proof (filter_length_lt _ (fun t => negb (id t =? taskId)%string)
                      (snapshot w) task Hin) as Hlt.
        cbv beta in Hlt. rewrite Hid, String.eqb_refl in Hlt.
        specialize (Hlt eq_refl). lia. }
      rewrite Hlt. unfold bind at 1. rewrite saveTasks_exact, tick_emit.
      change (rejects (emit (GetItem TASKS) w)) with (rejects w).
      change (1 + tick w) with (S (tick w)) in Hrej. now rewrite Hrej. }
    cbv zeta. rewrite Hrun. cbn [fst snd]. repeat split.
    simpl. now rewrite <- ?app_assoc.
Qed.

(** X16: a rejected read of the stored tasks makes [updateTask],
    [deleteTask] and [toggleTaskComplete] report 'Task not found' for every
    id, the ids of stored tasks included, and nothing is written. *)
Theorem rejected_read_reports_not_found (w : World) (taskId : string)
  (updates : Partial.Task) :
  rejects w (tick w) = true ->
  taskService.updateTask taskId updates w
  = (Throw TaskNotFound, emit (GetItem TASKS) w) /\
  taskService.deleteTask taskId w
  = (Throw TaskNotFound, emit (GetItem TASKS) w) /\
  taskService.toggleTaskComplete taskId w
  = (Throw TaskNotFound, emit (GetItem TASKS) w).
Proof.
  intros Hread. repeat split.
  - unfold taskService.updateTask, tryCatch, bind.
    now rewrite getTasks_exact, Hread.
  - unfold taskService.deleteTask, tryCatch, bind.
    now rewrite getTasks_exact, Hread.
  - unfold taskService.toggleTaskComplete, bind.
    now rewrite getTaskById_exact, Hread.
Qed.

(** X17: [createTask] builds the new collection from what [getTasks]
    answers.  When the read is rejected and the write accepted, the stored
    collection becomes the new task alone, whatever it held and whatever
    the rest of the call meets. *)
Theorem createTask_overwrites_unreadable_tasks (w : World)
  (title0 description0 userId0 : string) (dueDate0 : option string) :
  rejects w (2 + tick w) = true -> rejects w (3 + tick w) = false ->
  snapshot (snd (taskService.createTask title0 description0 userId0 dueDate0 w))
  = [createdTask title0 description0 userId0 dueDate0 w].
Proof.
  intros Hread Hwrite.
  set (newTask := createdTask title0 description0 userId0 dueDate0 w).
  cbv [taskService.createTask tryCatch bind Date_now].
  rewrite getTasks_exact, saveTasks_exact, !tick_emit.
  change (rejects (emit (GetItem TASKS) (emit DateNow (emit DateNow w))))
    with (rejects w).
  change (rejects (emit DateNow (emit DateNow w))) with (rejects w).
  change (2 + tick w) with (S (S (tick w))) in Hread.
  change (3 + tick w) with (S (S (S (tick w)))) in Hwrite.
  rewrite Hread, Hwrite. cbn [app].
  set (P := fun w' : World => snapshot w' = [newTask]).
  assert (P_emit : forall e w', P w' -> P (emit e w')) by (intros ? ? H; exact H).
  assert (P_log : forall v w', P w' -> P (set_actionsItem v w'))
    by (intros ? ? H; exact H).
  assert (P_save : forall w', P w' -> P (set_tasksItem (Some [newTask]) w'))
    by (intros ? _; reflexivity).
  match goal with |- context [taskService.syncOrQueue ?t ?mk ?W] =>
    assert (Hmk : hoare P mk (fun _ => P) (fun _ => P))
      by (intros ? H; exact H);
    pose proof (frame_syncOrQueue P P_emit P_log t P_save mk Hmk
                  W eq_refl) as Hframe;
    revert Hframe; destruct (taskService.syncOrQueue t mk W) as [[?|?] ?]
  end; intros Hframe; exact Hframe.
Qed.
End Rejections.

(** A storage that rejects the interactions of the list and accepts the
    others, on a device that is offline. *)
Lemma rejected_write_aborts_mutation_witness :
  let w := mkWorld (mkTaskState [] false None)
             (Some [sampleTask "t1" "A" false Status.not_started]) None []
             (fun n => (n =? 3)%nat) (fun _ => Some false) (fun n => Z.of_nat n) in
  rejects w (3 + tick w) = true /\
  let r := taskService.createTask "B" "Description" "user1" None w in
  fst r = Throw Rejected /\ tasksItem (snd r) = tasksItem w.
Proof.
  intros w. split; [reflexivity|].
  destruct (proj1 (rejected_write_aborts_mutation w) "B"%string
              "Description"%string "user1"%string None eq_refl)
    as (Hr & Ht & _).
  split; [exact Hr|exact Ht].
Defined.

Lemma rejected_read_reports_not_found_witness :
  let w := mkWorld (mkTaskState [] false None)
             (Some [sampleTask "t1" "A" false Status.not_started]) None []
             (fun n => (n =? 0)%nat) (fun _ => Some false) (fun n => Z.of_nat n) in
  rejects w (tick w) = true /\
  In "t1"%string (map id (snapshot w)) /\
  fst (taskService.deleteTask "t1" w) = Throw TaskNotFound.
Proof.
  intros w. split; [reflexivity|]. split; [left; reflexivity|].
  now rewrite (proj1 (proj2 (rejected_read_reports_not_found w "t1"
                               Partial.empty eq_refl))).
Defined.

Lemma createTask_overwrites_unreadable_tasks_witness :
  let w := mkWorld (mkTaskState [] false None)
             (Some [sampleTask "t1" "A" false Status.not_started]) None []
             (fun n => (n =? 2)%nat) (fun _ => Some false) (fun n => Z.of_nat n) in
  rejects w (2 + tick w) = true /\ rejects w (3 + tick w) = false /\
  map title
    (snapshot (snd (taskService.createTask "B" "Description" "user1" None w)))
  = ["B"%string].
Proof.
  intros w. split; [reflexivity|]. split; [reflexivity|].
  now rewrite (createTask_overwrites_unreadable_tasks w "B" "Description"
                 "user1" None eq_refl eq_refl).
Defined.

(** ** The store over the two backends *)

Section Store.
Context {host : JSHost}.

(** The facade leaves the state of the store alone. *)
Lemma updateTask_memory (taskId : string) (updates : Partial.Task) (w : World) :
  memory (snd (taskService.updateTask taskId updates w)) = memory w.
Proof.
  pose proof (frame_updateTask (fun w' => memory w' = memory w)
                (fun e w' Hw' => Hw') (fun v w' Hw' => Hw')
                (fun v w' Hw' => Hw') taskId updates w eq_refl) as H.
  now destruct (taskService.updateTask taskId updates w) as [[?|?] ?].
Qed.

Lemma deleteTask_memory (taskId : string) (w : World) :
  memory (snd (taskService.deleteTask taskId w)) = memory w.
Proof.
  pose proof (frame_deleteTask (fun w' => memory w' = memory w)
                (fun e w' Hw' => Hw') (fun v w' Hw' => Hw')
                (fun v w' Hw' => Hw') taskId w eq_refl) as H.
  now destruct (taskService.deleteTask taskId w) as [[?|?] ?].
Qed.

Lemma store_updateTask_run (w : World) (taskId : string)
  (updates : Partial.Task) :
  exists w',
    taskStore.updateTask taskId updates w = (Ok tt, w') /\
    error (memory w') = None.
Proof.
  unfold taskStore.updateTask, tryCatch at 1, bind at 1.
  unfold useTaskStore.set_error at 1.
  set (w0 := set_memory _ w).
  assert (H0 : error (memory w0) = None) by reflexivity. clearbody w0.
  unfold bind at 1, tryCatch at 1, bind at 1.
  assert (Hfallback :
    forall w1, error (memory w1) = None ->
    exists b w2,
      tryCatch
        (updatedFromService <- taskService.updateTask taskId updates ;;
         useTaskStore.set_tasks
           (map (fun task => if (id task =? taskId)%string
                             then updatedFromService else task)) ;;;
         ret true)
        (fun _ => ret false) w1 = (Ok b, w2) /\ error (memory w2) = None).
  { intros w1 H1. unfold tryCatch, bind.
    pose proof (updateTask_memory taskId updates w1) as Hm.
    destruct (taskService.updateTask taskId updates w1) as [[t|e] w2];
      simpl in Hm.
    - eexists _, _. split; [reflexivity|]. simpl. now rewrite Hm.
    - eexists _, _. split; [reflexivity|]. simpl. now rewrite Hm. }
  assert (Hfinish :
    forall (b : bool) w2, error (memory w2) = None ->
    exists w3,
      (if b then ret tt
       else useTaskStore.set_tasks
              (map (fun task => if (id task =? taskId)%string
                                then spread task updates else task))) w2
      = (Ok tt, w3) /\ error (memory w3) = None).
  { intros [|] w2 H2; eexists; (split; [reflexivity|]); simpl; auto. }
  unfold firestoreService.updateTask.
  destruct (taskId =? "")%string; [|destruct (rejects w0 (tick w0))];
    cbn [throw].
  - destruct (Hfallback w0 H0) as (b & w2 & -> & H2).
    destruct (Hfinish b w2 H2) as (w3 & -> & H3). now exists w3.
  - destruct (Hfallback (emit FirestoreUpdateDoc w0) H0) as (b & w2 & -> & H2).
    destruct (Hfinish b w2 H2) as (w3 & -> & H3). now exists w3.
  - cbn [ret]. eexists. split; [reflexivity|]. exact H0.
Qed.

(** X18: [updateTask] of the store never rejects, so its outer [catch] is
    never entered and no error is recorded: a rejection of the backend is
    caught by the fallback, and a rejection of the fallback is caught and
    logged. *)
Theorem store_updateTask_never_rejects (w : World) (taskId : string)
  (updates : Partial.Task) :
  fst (taskStore.updateTask taskId updates w) = Ok tt /\
  error (memory (snd (taskStore.updateTask taskId updates w))) = None.
Proof.
  destruct (store_updateTask_run w taskId updates) as (w' & -> & H). now split.
Qed.
(** X19: when the backend rejects the update and the fallback finds no
    stored task of that id, [updateTask] of the store still fulfils and
    still merges the updates into the tasks it holds in memory, while
    AsyncStorage keeps what it held: the copy in memory moves away from the
    stored one without an error being recorded. *)
Theorem store_updateTask_merges_when_backends_fail (w : World)
  (taskId : string) (updates : Partial.Task) :
  taskId <> ""%string -> rejects w (tick w) = true ->
  (forall t, In t (snapshot w) -> id t <> taskId) ->
  exists w',
    taskStore.updateTask taskId updates w = (Ok tt, w') /\
    tasks (memory w')
    = map (fun task => if (id task =? taskId)%string
                       then spread task updates else task) (tasks (memory w)) /\
    error (memory w') = None /\
    tasksItem w' = tasksItem w /\ actionsItem w' = actionsItem w /\
    trace w' = trace w ++ [FirestoreUpdateDoc; GetItem TASKS].
Proof.
  intros Hid Hrej Hunknown.
  apply String.eqb_neq in Hid.
  unfold taskStore.updateTask, tryCatch at 1, bind at 1.
  unfold useTaskStore.set_error at 1.
  unfold bind at 1, tryCatch at 1, bind at 1.
  unfold firestoreService.updateTask. rewrite Hid.
  change (rejects (set_memory _ w) (tick (set_memory _ w)))
    with (rejects w (tick w)).
  rewrite Hrej. unfold tryCatch at 1, bind at 1.
  match goal with |- context [taskService.updateTask _ _ ?W] =>
    rewrite (updateTask_unknown W taskId Hunknown updates)
  end.
  cbn [ret]. unfold useTaskStore.set_tasks.
  eexists. split; [reflexivity|]. simpl.
  repeat split. now rewrite <- app_assoc.
Qed.
(** An action of the store that tries the backend, falls back on the
    facade and then changes the tasks in memory. *)
Lemma store_action_recorded (backend fallback : Async unit)
  (f : list Task -> list Task) (w : World) :
  (forall w1, memory (snd (backend w1)) = memory w1) ->
  (forall w1, memory (snd (fallback w1)) = memory w1) ->
  recorded w f
    (tryCatch
       (useTaskStore.set_error None ;;;
        tryCatch backend (fun _ => fallback) ;;;
        useTaskStore.set_tasks f)
       (fun error => useTaskStore.set_error (Some error) ;;; throw error) w).
Proof.
  intros Hb Hf.
  unfold tryCatch, bind, useTaskStore.set_error, useTaskStore.set_tasks, throw.
  set (w0 := set_memory _ w).
  pose proof (Hb w0) as Hb0.
  destruct (backend w0) as [[[]|e] w1]; simpl in Hb0.
  - simpl. now rewrite Hb0.
  - pose proof (Hf w1) as Hf1.
    destruct (fallback w1) as [[[]|e'] w2]; simpl in Hf1; simpl;
      now rewrite Hf1, Hb0.
Qed.

Lemma firestore_updateTask_memory (taskId : string) (updates : Partial.Task)
  (w : World) :
  memory (snd (firestoreService.updateTask taskId updates w)) = memory w.
Proof.
  unfold firestoreService.updateTask.
  destruct (taskId =? "")%string; [reflexivity|].
  now destruct (rejects w (tick w)).
Qed.

Lemma firestore_deleteTask_memory (taskId : string) (w : World) :
  memory (snd (firestoreService_deleteTask taskId w)) = memory w.
Proof.
  unfold firestoreService_deleteTask. now destruct (rejects w (tick w)).
Qed.

Lemma drop_value_memory {A} (m : Async A) (w : World) :
  memory (snd (m w)) = memory w ->
  memory (snd ((m ;;; ret tt) w)) = memory w.
Proof. unfold bind. now destruct (m w) as [[?|?] ?]. Qed.

Lemma toggleTaskComplete_memory (taskId : string) (w : World) :
  memory (snd (taskService.toggleTaskComplete taskId w)) = memory w.
Proof.
  pose proof (frame_toggleTaskComplete (fun w' => memory w' = memory w)
                (fun e w' Hw' => Hw') (fun v w' Hw' => Hw')
                (fun v w' Hw' => Hw') taskId w eq_refl) as H.
  now destruct (taskService.toggleTaskComplete taskId w) as [[?|?] ?].
Qed.

(** X20: [deleteTask], [toggleTaskComplete] and [updateTaskStatus] of the
    store change the tasks in memory only when they fulfil.  A rejected
    call leaves the tasks in memory as they were and records the error it
    throws; a fulfilled call records no error and has removed the tasks of
    that id, resp. set [completed] to the negation of the first task of
    that id, resp. set [status], on every task of that id. *)
Theorem store_action_changes_memory_only_on_success (w : World)
  (taskId : string) (status0 : TaskStatus) :
  recorded w (filter (fun task => negb (id task =? taskId)%string))
    (taskStore.deleteTask taskId w) /\
  recorded w
    (fun l =>
       match find (fun t => (id t =? taskId)%string) l with
       | Some existing =>
           map (fun task => if (id task =? taskId)%string
                            then useTaskStore.with_completed task
                                   (negb (completed existing))
                            else task) l
       | None => l
       end)
    (useTaskStore.toggleTaskComplete taskId w) /\
  recorded w
    (map (fun task => if (id task =? taskId)%string
                      then useTaskStore.with_status task status0 else task))
    (useTaskStore.updateTaskStatus taskId status0 w).
Proof.
  repeat apply conj.
  - apply store_action_recorded.
    + apply firestore_deleteTask_memory.
    + apply deleteTask_memory.
  - unfold useTaskStore.toggleTaskComplete.
    destruct (find (fun t => (id t =? taskId)%string) (tasks (memory w)))
      as [existing|] eqn:Hfind.
    + pose proof (store_action_recorded
        (firestoreService.updateTask taskId
           (Partial.with_completed (negb (completed existing)) Partial.empty))
        (taskService.toggleTaskComplete taskId ;;; ret tt)
        (map (fun task => if (id task =? taskId)%string
                          then useTaskStore.with_completed task
                                 (negb (completed existing))
                          else task)) w
        (firestore_updateTask_memory _ _)
        (fun w1 => drop_value_memory _ w1 (toggleTaskComplete_memory _ w1)))
        as H.
      unfold tryCatch at 1, bind at 1, useTaskStore.set_error at 1 in H.
      unfold tryCatch at 1, bind at 1, useTaskStore.set_error at 1.
      unfold bind at 1, useTaskStore.get.
      change (tasks (memory (set_memory _ w))) with (tasks (memory w)).
      rewrite Hfind. revert H.
      match goal with |- recorded _ _ ?r -> _ => destruct r as [[[]|e] w'] end;
        unfold recorded; cbv beta; rewrite ?Hfind; auto.
    + unfold tryCatch, bind, useTaskStore.set_error, useTaskStore.get, throw.
      change (tasks (memory (set_memory _ w))) with (tasks (memory w)).
      rewrite Hfind. simpl. auto.
  - apply store_action_recorded.
    + apply firestore_updateTask_memory.
    + intros w1. apply drop_value_memory.
      unfold taskService.updateTaskStatus. apply updateTask_memory.
Qed.

Lemma store_syncTasks_exact (w : World) :
  let w0 := set_memory (mkTaskState (tasks (memory w)) true None) w in
  let w1 := emit NetInfoFetch w0 in
  taskStore.syncTasks w
  = if connected w (tick w) then
      match syncService.syncTasks (tasks (memory w)) w1 with
      | (Ok syncedTasks, w2) =>
          match syncService.processOfflineActions syncedTasks w2 with
          | (Ok processedTasks, w3) =>
              (Ok tt, set_memory (mkTaskState processedTasks false
                                    (error (memory w3))) w3)
          | (Throw e, w3) =>
              (Ok tt, set_memory (mkTaskState (tasks (memory w3)) false
                                    (Some e)) w3)
          end
      | (Throw e, w2) =>
          (Ok tt, set_memory (mkTaskState (tasks (memory w2)) false (Some e)) w2)
      end
    else (Ok tt, set_memory (mkTaskState (tasks (memory w)) false None) w1).
Proof.
  cbv zeta.
  unfold taskStore.syncTasks, tryCatch, bind at 1, taskStore.set_state at 1.
  unfold bind at 1. rewrite checkConnectivity_exact.
  change (connected (set_memory _ w) (tick (set_memory _ w)))
    with (connected w (tick w)).
  destruct (connected w (tick w)); [|reflexivity].
  unfold bind at 1, useTaskStore.get. unfold bind at 1.
  change (tasks (memory (emit NetInfoFetch (set_memory _ w))))
    with (tasks (memory w)).
  destruct (syncService.syncTasks _ _) as [[syncedTasks|e] w2]; [|reflexivity].
  unfold bind.
  destruct (syncService.processOfflineActions _ _) as [[processedTasks|e] w3];
    reflexivity.
Qed.

(** X21: [syncTasks] of the store never rejects and always leaves
    [isLoading] false.  The tasks in memory change only when the sync went
    through, and then no error is recorded; when the first probe finds the
    device offline nothing at all is read or written and no error is
    recorded. *)
Theorem store_syncTasks_never_rejects (w : World) :
  exists w',
    taskStore.syncTasks w = (Ok tt, w') /\
    isLoading (memory w') = false /\
    (error (memory w') = None \/ tasks (memory w') = tasks (memory w)) /\
    (connected w (tick w) = false ->
     tasks (memory w') = tasks (memory w) /\ error (memory w') = None /\
     tasksItem w' = tasksItem w /\ actionsItem w' = actionsItem w /\
     trace w' = trace w ++ [NetInfoFetch]).
Proof.
  rewrite store_syncTasks_exact. cbv zeta.
  set (w0 := set_memory _ w).
  destruct (connected w (tick w)).
  - rewrite syncTasks_exact.
    destruct (connected (emit NetInfoFetch w0) (tick (emit NetInfoFetch w0)));
      [destruct (rejects (emit NetInfoFetch w0) (1 + tick (emit NetInfoFetch w0)))|].
    + eexists. split; [reflexivity|]. simpl.
      split; [reflexivity|]. split; [now right|discriminate].
    + rewrite processOfflineActions_run.
      eexists. split; [reflexivity|]. split; [reflexivity|].
      split; [|discriminate]. left.
      now destruct (rejects _ (1 + _)).
    + eexists. split; [reflexivity|]. simpl.
      split; [reflexivity|]. split; [now right|discriminate].
  - eexists. split; [reflexivity|]. simpl.
    split; [reflexivity|]. split; [now left|]. intros _. repeat split.
Qed.

(** X22: a sync of the store that goes through stores the tasks the store
    held in memory, as they were before the replay, then replays the log on
    them for the memory alone and clears the log: the tasks in memory are
    the replay of the log on the former memory, the stored tasks are the
    former memory, whatever AsyncStorage held, and the actions are stored
    nowhere any more. *)
Theorem store_syncTasks_stores_before_replay (w : World) :
  reliable w -> connected w (tick w) = true ->
  connected w (1 + tick w) = true ->
  exists w',
    taskStore.syncTasks w = (Ok tt, w') /\
    tasks (memory w') = syncService.replay (tasks (memory w)) (pending w) /\
    snapshot w' = tasks (memory w) /\
    pending w' = [] /\
    error (memory w') = None.
Proof.
  intros Hw Hon1 Hon2.
  rewrite store_syncTasks_exact. cbv zeta. rewrite Hon1, syncTasks_exact.
  rewrite tick_emit.
  change (connected (emit NetInfoFetch (set_memory _ w)) (S (tick (set_memory _ w))))
    with (connected w (1 + tick w)).
  rewrite Hon2.
  change (rejects (emit NetInfoFetch (set_memory _ w))) with (rejects w).
  rewrite Hw, processOfflineActions_run.
  match goal with |- context [rejects ?W] =>
    change (rejects W) with (rejects w) end.
  rewrite !Hw.
  eexists. split; [reflexivity|]. simpl. repeat split.
Qed.

End Store.

Lemma store_updateTask_merges_when_backends_fail_witness :
  let w := mkWorld (mkTaskState [sampleTask "t1" "A" false Status.not_started]
                      false None)
             None None [] (fun _ => true) (fun _ => Some false)
             (fun n => Z.of_nat n) in
  map title
    (tasks (memory (snd (taskStore.updateTask "t1"
                           (Partial.with_title "B" Partial.empty) w))))
  = ["B"%string] /\
  tasksItem (snd (taskStore.updateTask "t1"
                    (Partial.with_title "B" Partial.empty) w)) = None.
Proof.
  intros w.
  destruct (store_updateTask_merges_when_backends_fail w "t1"
              (Partial.with_title "B" Partial.empty))
    as (w' & -> & Ht & _ & Hs & _).
  - discriminate.
  - reflexivity.
  - intros t [].
  - cbn [snd]. rewrite Ht, Hs. split; reflexivity.
Defined.

Lemma store_syncTasks_stores_before_replay_witness :
  let held := sampleTask "t1" "A" false Status.not_started in
  let queued := sampleTask "t2" "B" false Status.not_started in
  let w := mkWorld (mkTaskState [held] false None)
             (Some [held; queued])
             (Some [Action.mk "a1" (CREATE queued) "2024-01-01T00:00:00.000Z"])
             [] (fun _ => false) (fun _ => Some true) (fun n => Z.of_nat n) in
  exists w',
    taskStore.syncTasks w = (Ok tt, w') /\
    tasks (memory w') = [held; queued] /\ snapshot w' = [held] /\
    pending w' = [].
Proof.
  intros held queued w.
  destruct (store_syncTasks_stores_before_replay w
              (fun n => eq_refl) eq_refl eq_refl)
    as (w' & Hrun & Hm & Hs & Hp & _).
  exists w'. repeat split; assumption.
Defined.

(** ** One call after another *)

(** X25: on a storage that accepts its calls, deleting the task that
    [createTask] has just handed back restores the stored tasks, provided
    no stored task had the id the new task was given; the tasks are the
    same and in the same order. *)
Theorem createTask_then_deleteTask_restores {host : JSHost} (w : World)
  (title0 description0 userId0 : string) (dueDate0 : option string) :
  reliable w ->
  (forall t, In t (snapshot w) ->
             id t <> id (createdTask title0 description0 userId0 dueDate0 w)) ->
  exists t w1 w2,
    taskService.createTask title0 description0 userId0 dueDate0 w = (Ok t, w1) /\
    taskService.deleteTask (id t) w1 = (Ok tt, w2) /\
    snapshot w2 = snapshot w.
Proof.
  intros Hw Hfresh.
  destruct (createTask_run title0 description0 userId0 dueDate0 w Hw)
    as (w1 & Hrun & Hw1 & Hs1 & _).
  set (t := createdTask title0 description0 userId0 dueDate0 w) in *.
  assert (Hin : In t (snapshot w1)) by (rewrite Hs1, in_app_iff; simpl; auto).
  destruct (deleteTask_run (id t) w1 t Hw1 Hin eq_refl)
    as (w2 & Hdel & _ & Hs2 & _).
  exists t, w1, w2. split; [exact Hrun|]. split; [exact Hdel|].
  rewrite Hs2, Hs1, filter_app. cbn [filter]. rewrite String.eqb_refl.
  cbn [negb]. rewrite app_nil_r. apply filter_keeps_all.
  intros x Hx. apply negb_true_iff, String.eqb_neq. now apply Hfresh.
Qed.

Lemma createTask_then_deleteTask_restores_witness :
  let w := device (Some [sampleTask "t1" "A" false Status.not_started]) None
                  false 1704067200000 in
  exists t w1 w2,
    taskService.createTask "B" "Description" "user1" None w = (Ok t, w1) /\
    taskService.deleteTask (id t) w1 = (Ok tt, w2) /\
    snapshot w2 = [sampleTask "t1" "A" false Status.not_started].
Proof.
  intros w.
  apply (createTask_then_deleteTask_restores w "B" "Description" "user1" None).
  - intros n. reflexivity.
  - intros t [<-|[]]. vm_compute. discriminate.
Defined.

(** X26: on a storage that accepts its calls, [getTaskById] after
    [updateTask] answers the task that [updateTask] handed back, provided
    the updates carry no [id] and the id finds a stored task. *)
Theorem updateTask_then_getTaskById {host : JSHost} (w : World)
  (taskId : string) (updates : Partial.Task) (found : Task) :
  reliable w ->
  find (fun t => (id t =? taskId)%string) (snapshot w) = Some found ->
  Partial.id updates = None ->
  exists t w1,
    taskService.updateTask taskId updates w = (Ok t, w1) /\
    fst (taskService.getTaskById taskId w1) = Ok (Some t).
Proof.
  intros Hw Hfind Hid.
  destruct (find_split _ _ _ _ Hfind) as (pre & post & Hs & Hpre & Hx).
  destruct (updateTask_run taskId updates w pre post found Hw Hs Hpre Hx)
    as (w1 & Hrun & Hw1 & Hs1 & _).
  eexists _, w1. split; [exact Hrun|].
  rewrite getTaskById_exact, Hw1, Hs1. cbn [fst]. do 2 f_equal.
  apply find_first; [exact Hpre|].
  unfold with_updatedAt, spread. cbn [id]. now rewrite Hid.
Qed.

Lemma updateTask_then_getTaskById_witness :
  let w := device (Some [sampleTask "t1" "A" false Status.not_started]) None
                  false 1704067200000 in
  exists t w1,
    taskService.updateTask "t1" (Partial.with_title "B" Partial.empty) w
    = (Ok t, w1) /\
    fst (taskService.getTaskById "t1" w1) = Ok (Some t).
Proof.
  intros w.
  apply (updateTask_then_getTaskById w "t1"
           (Partial.with_title "B" Partial.empty)
           (sampleTask "t1" "A" false Status.not_started)).
  - intros n. reflexivity.
  - reflexivity.
  - reflexivity.
Defined.

(** ** The mirror of the log in [useSyncStore] *)

(** X27: on a storage that accepts its calls, each action of the sync
    store leaves [pendingActions] equal to the stored log: the log as it is
    for [checkConnectivity], which also sets [isOnline] to the answer of
    the probe; the log with the action appended for [addOfflineAction];
    the empty log for [clearPendingActions].  [isSyncing] is never
    touched. *)
Theorem syncStore_mirrors_log (w : World) (state : syncStore.SyncState)
  (action : OfflineAction) :
  reliable w ->
  (exists w',
     syncStore.checkConnectivity state w
     = (Ok (syncStore.mk (connected w (tick w)) (pending w)
              (syncStore.isSyncing state)), w') /\
     pending w' = pending w) /\
  (exists w',
     syncStore.addOfflineAction action state w
     = (Ok (syncStore.mk (syncStore.isOnline state) (pending w ++ [action])
              (syncStore.isSyncing state)), w') /\
     pending w' = pending w ++ [action]) /\
  (exists w',
     syncStore.clearPendingActions state w
     = (Ok (syncStore.mk (syncStore.isOnline state) []
              (syncStore.isSyncing state)), w') /\
     pending w' = []).
Proof.
  intros Hw. repeat apply conj.
  - unfold syncStore.checkConnectivity, bind.
    rewrite checkConnectivity_exact, getOfflineActions_exact.
    change (rejects (emit NetInfoFetch w)) with (rejects w). rewrite Hw.
    eexists. split; reflexivity.
  - unfold syncStore.addOfflineAction, bind.
    rewrite saveOfflineAction_exact, !Hw, getOfflineActions_exact.
    match goal with |- context [rejects ?W] =>
      change (rejects W) with (rejects w) end.
    rewrite Hw. eexists. split; reflexivity.
  - unfold syncStore.clearPendingActions, bind.
    rewrite clearOfflineActions_exact, Hw.
    eexists. split; reflexivity.
Qed.

Lemma syncStore_mirrors_log_witness :
  let w := device None None false 1704067200000 in
  let a := Action.mk "a1" (DELETE "t1") "2024-01-01T00:00:00.000Z" in
  exists w',
    syncStore.addOfflineAction a (syncStore.mk true [] false) w
    = (Ok (syncStore.mk true [a] false), w') /\
    pending w' = [a].
Proof.
  intros w a.
  exact (proj1 (proj2 (syncStore_mirrors_log w (syncStore.mk true [] false) a
                         (fun n => eq_refl)))).
Defined.

(** X28: when AsyncStorage rejects the removal of the log,
    [clearPendingActions] still fulfils and still sets [pendingActions] to
    the empty array, while the stored log is as it was: the store shows no
    pending action although the actions are still stored. *)
Theorem syncStore_clear_hides_kept_log (w : World)
  (state : syncStore.SyncState) :
  rejects w (tick w) = true ->
  exists state' w',
    syncStore.clearPendingActions state w = (Ok state', w') /\
    syncStore.pendingActions state' = [] /\
    actionsItem w' = actionsItem w.
Proof.
  intros Hrej. unfold syncStore.clearPendingActions, bind.
  rewrite clearOfflineActions_exact, Hrej.
  eexists _, _. split; [reflexivity|]. split; reflexivity.
Qed.

Lemma syncStore_clear_hides_kept_log_witness :
  let a := Action.mk "a1" (DELETE "t1") "2024-01-01T00:00:00.000Z" in
  let w := mkWorld (mkTaskState [] false None) None (Some [a]) []
             (fun _ => true) (fun _ => Some false) (fun n => Z.of_nat n) in
  exists state' w',
    syncStore.clearPendingActions (syncStore.mk false [a] false) w
    = (Ok state', w') /\
    syncStore.pendingActions state' = [] /\ pending w' = [a].
Proof.
  intros a w.
  destruct (syncStore_clear_hides_kept_log w (syncStore.mk false [a] false)
              eq_refl) as (state' & w' & Hrun & Hp & Hl).
  exists state', w'. split; [exact Hrun|]. split; [exact Hp|].
  unfold pending. now rewrite Hl.
Defined.

(** ** The status buttons of the detail screen *)

(** X29: for a signed-in user of role ['user'], whatever status buttons are
    pressed and in whatever order, the status held by the detail screen
    never moves backward in the order not started, in progress, completed,
    and a completed task stays completed.  For an admin, or with no user,
    the last button pressed decides. *)
Theorem handleStatusChange_user_never_moves_back (status : TaskStatus)
  (presses : list TaskStatus) :
  (TaskDetailScreen.rank status
   <= TaskDetailScreen.rank
        (pressed (Some TaskDetailScreen.user) status presses))%nat /\
  (status = Status.completed ->
   pressed (Some TaskDetailScreen.user) status presses = Status.completed) /\
  (forall role newStatus,
     role <> Some TaskDetailScreen.user ->
     pressed role status (presses ++ [newStatus]) = newStatus).
Proof.
  repeat apply conj.
  - revert status. induction presses as [|n presses IH]; intros status.
    + simpl. lia.
    + cbn [pressed fold_left]. fold (pressed (Some TaskDetailScreen.user)).
      etransitivity; [|apply IH].
      destruct status, n; simpl; lia.
  - intros ->. induction presses as [|n presses IH]; [reflexivity|].
    cbn [pressed fold_left].
    replace (fst (TaskDetailScreen.handleStatusChange
                    (Some TaskDetailScreen.user) Status.completed n))
      with Status.completed by (now destruct n).
    exact IH.
  - intros role newStatus Hrole. unfold pressed. rewrite fold_left_app.
    cbn [fold_left].
    destruct role as [[|]|]; [reflexivity|now destruct Hrole|reflexivity].
Qed.

Lemma handleStatusChange_user_never_moves_back_witness :
  pressed (Some TaskDetailScreen.user) Status.completed
    [Status.not_started; Status.in_progress] = Status.completed /\
  pressed (Some TaskDetailScreen.admin) Status.completed
    ([Status.in_progress] ++ [Status.not_started]) = Status.not_started.
Proof.
  destruct (handleStatusChange_user_never_moves_back Status.completed
              [Status.not_started; Status.in_progress]) as (_ & Hkeep & _).
  destruct (handleStatusChange_user_never_moves_back Status.completed
              [Status.in_progress]) as (_ & _ & Hlast).
  split.
  - apply Hkeep. reflexivity.
  - apply Hlast. discriminate.
Defined.

Lemma store_syncTasks_never_rejects_witness :
  let w := mkWorld (mkTaskState [sampleTask "t1" "A" false Status.not_started]
                      false None)
             None None [] (fun _ => false) (fun _ => Some false)
             (fun n => Z.of_nat n) in
  connected w (tick w) = false /\
  exists w',
    taskStore.syncTasks w = (Ok tt, w') /\
    tasks (memory w') = tasks (memory w) /\ trace w' = [NetInfoFetch].
Proof.
  intros w. split; [reflexivity|].
  destruct (store_syncTasks_never_rejects w) as (w' & Hrun & _ & _ & Hoff).
  destruct (Hoff eq_refl) as (Ht & _ & _ & _ & Htr).
  exists w'. split; [exact Hrun|]. split; [exact Ht|exact Htr].
Defined.
